(** * Memory Harvester Engine: embedding pipeline and search endpoints

    A shallow embedding of
    - [src/mhe/memory/embeddings.py]      (module [Embeddings]),
    - [src/mhe/access/error_handling.py]  (module [ErrorHandling]),
    - [src/mhe/access/routers/search.py]  (modules [Search], [Suggestions] and
      [EmbeddingEndpoints]),
    - [src/mhe/memory/embedding_manager.py] (module [EmbeddingManager]),
    - [src/mhe/llm/clients.py]            (module [Clients]),
    followed by the theorems that settle the properties of the retrieval core.

    Conventions.  Python [str] is [string] (ASCII); a [datetime] is an integer
    tick; a raised exception is the [Err] branch of [result].  A number of a
    request body is the rational [Q] it denotes and Python holds the double
    nearest to it: the range checks on request numbers and the tolerance test
    on the two weights are made on IEEE 754 doubles (module [Float64]).
    Relevance scores, which the code computes from integer counts, are exact
    rationals, also where one is multiplied by a weight or compared with a
    threshold. *)

From Stdlib Require Import List String Ascii Bool Arith ZArith QArith Qabs Qminmax Lia.
From Stdlib Require Import SpecFloat.
Set Warnings "-abstract-large-number".
Import ListNotations.
Close Scope Q_scope.
Open Scope string_scope.

(** ** Results of fallible code *)

Inductive result (E A : Type) : Type :=
| Ok (a : A)
| Err (e : E).
Arguments Ok {E A} a.
Arguments Err {E A} e.

Definition bind {E A B : Type} (r : result E A) (k : A -> result E B) : result E B :=
  match r with
  | Ok a => k a
  | Err e => Err e
  end.

Notation "x <- r ;; k" := (bind r (fun x => k))
  (at level 61, r at next level, right associativity).
Notation "' p <- r ;; k" := (bind r (fun p => k))
  (at level 61, p pattern, r at next level, right associativity).

(* ===================================================================== *)
(** * src/mhe/memory/embeddings.py *)
(* ===================================================================== *)

Module Embeddings.

(** Modelled from the spec: the ORM classes imported from [.models] are not
    part of the sources of this revision.  Rows carry the columns that
    [embeddings.py] reads or writes (spec 3: ContentItem, EmbeddingRecord);
    identifiers are the primary keys of their tables. *)
Record Message := mkMessage {
  message_id : string;
  message_content : string
}.

Record MemoryCard := mkMemoryCard {
  card_id : string;
  card_title : string;
  card_summary : string
}.

Section Pipeline.

(** The value type of the [vector] column and the embedding client.
    [embed text = None] stands for a call of [embedding_client.embed] that
    raises; the client is a function, hence deterministic. *)
Variable vector : Type.
Variable embed : string -> option vector.

Record Embedding := mkEmbedding {
  target_kind : string;
  target_id : string;
  model : string;
  dim : nat;
  vector_ : vector;
  created_at : nat
}.

(** The database as the pipeline sees it.  [clock] is the source of
    [datetime.utcnow()]. *)
Record Store := mkStore {
  messages : list Message;
  memory_cards : list MemoryCard;
  embeddings : list Embedding;
  clock : nat
}.

Record EmbeddingJob := mkEmbeddingJob {
  job_target_kind : string;
  job_target_id : string;
  job_content : string;
  job_model : string;
  job_dim : nat
}.

Record EmbeddingResult := mkEmbeddingResult {
  res_target_kind : string;
  res_target_id : string;
  res_vector : vector;
  res_model : string;
  res_dim : nat
}.

(** [EmbeddingPipeline.__init__]: the fields read by the methods below. *)
Record EmbeddingPipeline := mkEmbeddingPipeline {
  batch_size : nat;
  max_concurrent : nat;
  self_model : string;
  self_dim : nat
}.

Inductive pipeline_error :=
| EmbeddingClientError      (* embedding_client.embed raised *)
| CardinalityViolation      (* one INSERT ... ON CONFLICT DO UPDATE statement
                               hit the same conflict key twice *)
| OutOfFuel.                (* the loop bound of the model was reached *)

(** *** The anti-join

    [select(T).outerjoin(Embedding, and_(target_kind == kind,
      target_id == T.id, model == self.model)).where(Embedding.id.is_(None))]
    keeps the rows of [T] with no matching embedding row. *)
Definition embedding_matches (kind id mdl : string) (e : Embedding) : bool :=
  (target_kind e =? kind) && (target_id e =? id) && (model e =? mdl).

Definition has_embedding (kind id mdl : string) (table : list Embedding) : bool :=
  existsb (embedding_matches kind id mdl) table.

Definition unembedded {T : Type} (kind : string) (id_of : T -> string)
    (mdl : string) (table : list Embedding) (rows : list T) : list T :=
  filter (fun r => negb (has_embedding kind (id_of r) mdl table)) rows.

(** [.limit(batch_size).offset(offset)] *)
Definition limit_offset {T : Type} (lim off : nat) (rows : list T) : list T :=
  firstn lim (skipn off rows).

(** *** stream_unembedded_messages / stream_unembedded_memory_cards

    One resumption of the generator at the given [offset]: [None] is the
    [break] (the pull returned no rows), [Some jobs] is the [yield]; the
    caller resumes it with [offset + batch_size]. *)
Definition message_job (p : EmbeddingPipeline) (msg : Message) : EmbeddingJob :=
  mkEmbeddingJob "message" (message_id msg) (message_content msg)
                 (self_model p) (self_dim p).

Definition newline : string := String (ascii_of_nat 10) EmptyString.

Definition card_job (p : EmbeddingPipeline) (card : MemoryCard) : EmbeddingJob :=
  mkEmbeddingJob "memory_card" (card_id card)
                 (card_title card ++ newline ++ card_summary card)
                 (self_model p) (self_dim p).

Definition stream_unembedded_messages (p : EmbeddingPipeline) (db : Store)
    (offset : nat) : option (list EmbeddingJob) :=
  let messages_ :=
    limit_offset (batch_size p) offset
      (unembedded "message" message_id (self_model p) (embeddings db) (messages db)) in
  match messages_ with
  | [] => None
  | _ => Some (map (message_job p) messages_)
  end.

Definition stream_unembedded_memory_cards (p : EmbeddingPipeline) (db : Store)
    (offset : nat) : option (list EmbeddingJob) :=
  let cards :=
    limit_offset (batch_size p) offset
      (unembedded "memory_card" card_id (self_model p) (embeddings db) (memory_cards db)) in
  match cards with
  | [] => None
  | _ => Some (map (card_job p) cards)
  end.

(** *** generate_embeddings_batch

    The client has no [embed_batch]; the fallback loop calls [embed] once per
    text and any exception is re-raised. *)
Fixpoint embed_texts (texts : list string) : result pipeline_error (list vector) :=
  match texts with
  | [] => Ok []
  | text :: rest =>
      match embed text with
      | None => Err EmbeddingClientError
      | Some v => vectors <- embed_texts rest ;; Ok (v :: vectors)
      end
  end.

Definition make_result (jv : EmbeddingJob * vector) : EmbeddingResult :=
  mkEmbeddingResult (job_target_kind (fst jv)) (job_target_id (fst jv)) (snd jv)
                    (job_model (fst jv)) (job_dim (fst jv)).

Definition generate_embeddings_batch (jobs : list EmbeddingJob)
    : result pipeline_error (list EmbeddingResult) :=
  match jobs with
  | [] => Ok []
  | _ =>
      vectors <- embed_texts (map job_content jobs) ;;
      Ok (map make_result (combine jobs vectors))
  end.

(** *** bulk_upsert_embeddings

    Modelled from the spec: the unique index named by [index_elements] is
    declared in the absent [.models]; spec 3 and 6 give the conflict key
    [(target_kind, target_id, model)].

    [INSERT ... VALUES rows ON CONFLICT (target_kind, target_id, model)
     DO UPDATE SET vector = excluded.vector, created_at = excluded.created_at].
    A proposed row whose key is already in the table updates that row; a
    statement that proposes the same key twice is refused by the database
    (the whole statement fails, the [except] branch rolls back and re-raises). *)
Definition key := (string * string * string)%type.

Definition key_eqb (a b : key) : bool :=
  let '(k1, i1, m1) := a in
  let '(k2, i2, m2) := b in
  (k1 =? k2) && (i1 =? i2) && (m1 =? m2).

Definition key_of (e : Embedding) : key := (target_kind e, target_id e, model e).

Definition on_conflict_update (excluded e : Embedding) : Embedding :=
  if key_eqb (key_of excluded) (key_of e)
  then mkEmbedding (target_kind e) (target_id e) (model e) (dim e)
                   (vector_ excluded) (created_at excluded)
  else e.

Definition upsert_row (row : Embedding) (table : list Embedding) : list Embedding :=
  if existsb (fun e => key_eqb (key_of row) (key_of e)) table
  then map (on_conflict_update row) table
  else (table ++ [row])%list.

Fixpoint upsert_rows (seen : list key) (table rows : list Embedding)
    : option (list Embedding) :=
  match rows with
  | [] => Some table
  | row :: rest =>
      if existsb (key_eqb (key_of row)) seen then None
      else upsert_rows (key_of row :: seen) (upsert_row row table) rest
  end.

(** [embedding_data]: the [i]-th row is stamped with the [i]-th reading of
    the clock. *)
Fixpoint embedding_data (now : nat) (results : list EmbeddingResult) : list Embedding :=
  match results with
  | [] => []
  | r :: rest =>
      mkEmbedding (res_target_kind r) (res_target_id r) (res_model r) (res_dim r)
                  (res_vector r) now
      :: embedding_data (S now) rest
  end.

Definition bulk_upsert_embeddings (db : Store) (results : list EmbeddingResult)
    : result pipeline_error (Store * nat) :=
  match results with
  | [] => Ok (db, 0)
  | _ =>
      match upsert_rows [] (embeddings db) (embedding_data (clock db) results) with
      | Some table =>
          Ok (mkStore (messages db) (memory_cards db) table
                      (clock db + List.length results),
              List.length results)
      | None => Err CardinalityViolation
      end
  end.

(** *** process_embedding_pipeline

    [async for batch in stream(db): results = generate(batch);
     count = upsert(db, results); stats[kind] += count].
    The generator is resumed after the upsert has committed, so the next pull
    sees the new embedding rows.  [fuel] bounds the number of resumptions. *)
Fixpoint process_stream
    (stream : EmbeddingPipeline -> Store -> nat -> option (list EmbeddingJob))
    (fuel : nat) (p : EmbeddingPipeline) (db : Store) (offset count : nat)
    : result pipeline_error (Store * nat) :=
  match fuel with
  | 0 => Err OutOfFuel
  | S fuel' =>
      match stream p db offset with
      | None => Ok (db, count)
      | Some batch =>
          results <- generate_embeddings_batch batch ;;
          '(db', n) <- bulk_upsert_embeddings db results ;;
          process_stream stream fuel' p db' (offset + batch_size p) (count + n)
      end
  end.

Record Stats := mkStats {
  stats_messages : nat;
  stats_memory_cards : nat;
  stats_artifacts : nat
}.

Definition process_embedding_pipeline (p : EmbeddingPipeline) (db : Store)
    : result pipeline_error (Store * Stats) :=
  '(db1, n_messages) <-
     process_stream stream_unembedded_messages (S (List.length (messages db))) p db 0 0 ;;
  '(db2, n_cards) <-
     process_stream stream_unembedded_memory_cards (S (List.length (memory_cards db1))) p db1 0 0 ;;
  Ok (db2, mkStats n_messages n_cards 0).

End Pipeline.

Arguments mkEmbedding {vector}.
Arguments mkStore {vector}.
Arguments target_kind {vector}.
Arguments target_id {vector}.
Arguments model {vector}.
Arguments dim {vector}.
Arguments vector_ {vector}.
Arguments created_at {vector}.
Arguments messages {vector}.
Arguments memory_cards {vector}.
Arguments embeddings {vector}.
Arguments clock {vector}.
Arguments key_of {vector}.
Arguments has_embedding {vector}.
Arguments unembedded {vector T}.

End Embeddings.

(* ===================================================================== *)
(** * Python [str] methods and [re] on ASCII strings *)
(* ===================================================================== *)

Module Py.

Local Open Scope nat_scope.

(** [str.isspace] on one character: TAB..CR, FS..US and SPACE. *)
Definition isspace (c : ascii) : bool :=
  let n := nat_of_ascii c in
  ((9 <=? n) && (n <=? 13)) || ((28 <=? n) && (n <=? 32)).

Definition lower_char (c : ascii) : ascii :=
  let n := nat_of_ascii c in
  if (65 <=? n) && (n <=? 90) then ascii_of_nat (n + 32) else c.

Fixpoint lower (s : string) : string :=
  match s with
  | EmptyString => EmptyString
  | String c s' => String (lower_char c) (lower s')
  end.

Definition is_empty (s : string) : bool :=
  match s with
  | EmptyString => true
  | String _ _ => false
  end.

Fixpoint lstrip (s : string) : string :=
  match s with
  | EmptyString => EmptyString
  | String c s' => if isspace c then lstrip s' else s
  end.

Fixpoint rstrip (s : string) : string :=
  match s with
  | EmptyString => EmptyString
  | String c s' =>
      let r := rstrip s' in
      if isspace c && is_empty r then EmptyString else String c r
  end.

Definition strip (s : string) : string := rstrip (lstrip s).

(** [s.split()]: maximal runs of non-whitespace characters. *)
Fixpoint split_from (cur s : string) : list string :=
  match s with
  | EmptyString => if is_empty cur then [] else [cur]
  | String c s' =>
      if isspace c
      then (if is_empty cur then split_from EmptyString s'
            else cur :: split_from EmptyString s')
      else split_from (cur ++ String c EmptyString) s'
  end.

Definition split (s : string) : list string := split_from EmptyString s.

(** [sub in s] *)
Fixpoint contains (sub s : string) : bool :=
  if prefix sub s then true
  else match s with
       | EmptyString => false
       | String _ s' => contains sub s'
       end.

(** [s.count(sub)]: non-overlapping occurrences, scanning left to right;
    [skip] characters of a match just counted are still to be passed. *)
Fixpoint count_from (skip : nat) (sub s : string) : nat :=
  match s with
  | EmptyString => 0
  | String _ s' =>
      match skip with
      | S k => count_from k sub s'
      | O => if prefix sub s
             then S (count_from (String.length sub - 1) sub s')
             else count_from 0 sub s'
      end
  end.

Definition count (s sub : string) : nat :=
  if is_empty sub then S (String.length s) else count_from 0 sub s.

(** [s.replace(c, by)] for a one-character [c]. *)
Fixpoint replace (c : ascii) (by_ : string) (s : string) : string :=
  match s with
  | EmptyString => EmptyString
  | String d s' =>
      if Ascii.eqb c d then by_ ++ replace c by_ s' else String d (replace c by_ s')
  end.

(** [s[:n]] *)
Definition slice_to (n : nat) (s : string) : string := substring 0 n s.

(** [sep.join(parts)] *)
Definition join (sep : string) (parts : list string) : string := String.concat sep parts.

(** [str(n)] for a non-negative integer. *)
Definition digit (n : nat) : ascii := ascii_of_nat (48 + n).

Fixpoint str_nat_fuel (fuel n : nat) (acc : string) : string :=
  match fuel with
  | O => acc
  | S fuel' =>
      let acc' := String (digit (n mod 10)) acc in
      if n <? 10 then acc' else str_nat_fuel fuel' (n / 10) acc'
  end.

Definition str_nat (n : nat) : string := str_nat_fuel (S n) n EmptyString.

(** *** Regular expressions ([re.search], [re.match])

    Matching by derivatives.  Patterns are transcribed from their source text
    constructor by constructor. *)
Inductive regex :=
| Void
| Eps
| Chr (p : ascii -> bool)
| Cat (r1 r2 : regex)
| Alt (r1 r2 : regex)
| Star (r : regex).

Fixpoint nullable (r : regex) : bool :=
  match r with
  | Void => false
  | Eps => true
  | Chr _ => false
  | Cat r1 r2 => nullable r1 && nullable r2
  | Alt r1 r2 => nullable r1 || nullable r2
  | Star _ => true
  end.

Definition cat (r1 r2 : regex) : regex :=
  match r1, r2 with
  | Void, _ => Void
  | _, Void => Void
  | Eps, _ => r2
  | _, _ => Cat r1 r2
  end.

Definition alt (r1 r2 : regex) : regex :=
  match r1, r2 with
  | Void, _ => r2
  | _, Void => r1
  | _, _ => Alt r1 r2
  end.

Fixpoint deriv (c : ascii) (r : regex) : regex :=
  match r with
  | Void => Void
  | Eps => Void
  | Chr p => if p c then Eps else Void
  | Cat r1 r2 =>
      if nullable r1 then alt (cat (deriv c r1) r2) (deriv c r2)
      else cat (deriv c r1) r2
  | Alt r1 r2 => alt (deriv c r1) (deriv c r2)
  | Star r1 => cat (deriv c r1) (Star r1)
  end.

Fixpoint fullmatch (r : regex) (s : string) : bool :=
  match s with
  | EmptyString => nullable r
  | String c s' => fullmatch (deriv c r) s'
  end.

Definition anychar : regex := Chr (fun _ => true).

(** [re.match(r, s)]: a match starting at position 0. *)
Definition re_match (r : regex) (s : string) : bool :=
  fullmatch (Cat r (Star anychar)) s.

(** [re.search(r, s)]: a match starting anywhere. *)
Definition re_search (r : regex) (s : string) : bool :=
  fullmatch (Cat (Star anychar) (Cat r (Star anychar))) s.

(** [re.search(r, s, re.IGNORECASE)] for a pattern [r] written in lower case. *)
Definition re_search_ignorecase (r : regex) (s : string) : bool :=
  re_search r (lower s).

(** Pattern syntax. *)
Fixpoint lit (s : string) : regex :=
  match s with
  | EmptyString => Eps
  | String c s' => Cat (Chr (Ascii.eqb c)) (lit s')
  end.

Fixpoint alts (rs : list regex) : regex :=
  match rs with
  | [] => Void
  | [r] => r
  | r :: rs' => Alt r (alts rs')
  end.

Definition plus (r : regex) : regex := Cat r (Star r).

(** [\w], [\s], [.] and [[^c]] on ASCII. *)
Definition word_char (c : ascii) : bool :=
  let n := nat_of_ascii c in
  ((48 <=? n) && (n <=? 57)) || ((65 <=? n) && (n <=? 90))
  || ((97 <=? n) && (n <=? 122)) || (n =? 95).

Definition dot : regex := Chr (fun c => negb (nat_of_ascii c =? 10)).
Definition not_char (x : ascii) : regex := Chr (fun c => negb (Ascii.eqb x c)).

End Py.

(* ===================================================================== *)
(** * Python [float]: IEEE 754 binary64 *)
(* ===================================================================== *)

Module Float64.

Definition float : Type := spec_float.

Definition prec : Z := 53.
Definition emax : Z := 1024.

Definition of_Z (n : Z) : float :=
  match n with
  | Z0 => S754_zero false
  | Zpos p => S754_finite false p 0
  | Zneg p => S754_finite true p 0
  end.

(** [float(q)]: the double nearest to the number [q], ties to even, as the
    JSON parser and the float literals of the source produce it.  The
    quotient of the two integers is rounded once. *)
Definition of_Q (q : Q) : float :=
  SFdiv prec emax (of_Z (Qnum q)) (of_Z (Zpos (Qden q))).

Definition add (x y : float) : float := SFadd prec emax x y.
Definition sub (x y : float) : float := SFsub prec emax x y.
Definition abs (x : float) : float := SFabs x.

(** [x < y] and [x <= y] *)
Definition ltb (x y : float) : bool := SFltb x y.
Definition leb (x y : float) : bool := SFleb x y.

End Float64.

(* ===================================================================== *)
(** * src/mhe/access/error_handling.py *)
(* ===================================================================== *)

Module ErrorHandling.
Import Py.

(** The exception classes raised by the search router.  The human-readable
    message and the [details] dictionary are not modelled; [field],
    [operation] and [service] are. *)
Inductive APIError :=
| ValidationError (field : option string)
| NotFoundError (resource : string)
| DatabaseError (operation : option string)
| ExternalServiceError (service : string).

Definition error_code (e : APIError) : string :=
  match e with
  | ValidationError _ => "VALIDATION_ERROR"
  | NotFoundError _ => "NOT_FOUND"
  | DatabaseError _ => "DATABASE_ERROR"
  | ExternalServiceError _ => "EXTERNAL_SERVICE_ERROR"
  end.

Definition status_code (e : APIError) : nat :=
  match e with
  | ValidationError _ => 400
  | NotFoundError _ => 404
  | DatabaseError _ => 500
  | ExternalServiceError _ => 502
  end.

Definition error_field (e : APIError) : option string :=
  match e with
  | ValidationError f => f
  | _ => None
  end.

(** A raised Python exception: an [APIError], a subclass of
    [sqlalchemy.exc.SQLAlchemyError], or any other exception class (a
    pydantic validation error, [AttributeError], [TypeError], ...). *)
Inductive exn :=
| Api (e : APIError)
| SQLAlchemyError (name : string)
| PyException (name : string).

Definition raising (A : Type) : Type := result exn A.

Definition raise_ValidationError {A : Type} (field : string) : raising A :=
  Err (Api (ValidationError (Some field))).

(** [try: body  except Exception as e: raise handler] *)
Definition try_except {A : Type} (body : raising A) (handler : APIError) : raising A :=
  match body with
  | Ok a => Ok a
  | Err _ => Err (Api handler)
  end.

(** *** InputValidator *)

Definition squote : string := String (ascii_of_nat 39) EmptyString.
Definition dquote_char : ascii := ascii_of_nat 34.
Definition squote_char : ascii := ascii_of_nat 39.
Definition backslash : string := String (ascii_of_nat 92) EmptyString.

(** The three source patterns, in order: the alternation of the quote
    character, two dashes, the semicolon, the bar (written twice) and the
    star (written twice); the alternation of ten SQL keywords; the
    alternation of six script words. *)
Definition SQL_INJECTION_PATTERNS : list regex :=
  [ alts [lit squote; lit "--"; lit ";"; Alt (lit "|") (lit "|"); Alt (lit "*") (lit "*")];
    alts [lit "union"; lit "select"; lit "insert"; lit "delete"; lit "update";
          lit "drop"; lit "create"; lit "alter"; lit "exec"; lit "execute"];
    alts [lit "script"; lit "javascript"; lit "vbscript"; lit "onload";
          lit "onerror"; lit "onclick"] ].

(** The four source patterns: an opening script tag, any characters and a
    closing script tag; the word javascript and a colon; [on], one or more
    word characters, optional whitespace and an equals sign; the same shape
    as the first for iframe tags. *)
Definition XSS_PATTERNS : list regex :=
  [ Cat (lit "<script") (Cat (Star (not_char ">")) (Cat (lit ">")
      (Cat (Star dot) (lit "</script>"))));
    lit "javascript:";
    Cat (lit "on") (Cat (plus (Chr word_char)) (Cat (Star (Chr isspace)) (lit "=")));
    Cat (lit "<iframe") (Cat (Star (not_char ">")) (Cat (lit ">")
      (Cat (Star dot) (lit "</iframe>")))) ].

(** Dot dot slash, dot dot backslash and their two percent-encoded forms. *)
Definition PATH_TRAVERSAL_PATTERNS : list regex :=
  [ lit "../"; lit (".." ++ backslash); lit "%2e%2e%2f"; lit "%2e%2e%5c" ].

Definition MAX_STRING_LENGTH : nat := 10000.
Definition MAX_LIST_LENGTH : nat := 1000.
Definition MAX_QUERY_LENGTH : nat := 500.

(** [max_length or default] *)
Definition or_default (x : option nat) (default : nat) : nat :=
  match x with
  | Some (S n) => S n
  | _ => default
  end.

Definition html_escape (value : string) : string :=
  replace squote_char "&#x27;"
    (replace dquote_char "&quot;"
       (replace ">" "&gt;" (replace "<" "&lt;" value))).

Definition sanitize_string (value field_name : string) : raising string :=
  if existsb (fun pattern => re_search_ignorecase pattern value) SQL_INJECTION_PATTERNS
  then raise_ValidationError field_name
  else if existsb (fun pattern => re_search_ignorecase pattern value) XSS_PATTERNS
  then raise_ValidationError field_name
  else if existsb (fun pattern => re_search_ignorecase pattern value) PATH_TRAVERSAL_PATTERNS
  then raise_ValidationError field_name
  else Ok (strip (html_escape value)).

Definition validate_string (value field_name : string) (min_length : nat)
    (max_length : option nat) (allow_empty : bool) (pattern : option regex)
    (sanitize : bool) : raising string :=
  if negb allow_empty && is_empty (strip value)
  then raise_ValidationError field_name
  else if (String.length value <? min_length)%nat
  then raise_ValidationError field_name
  else if (or_default max_length MAX_STRING_LENGTH <? String.length value)%nat
  then raise_ValidationError field_name
  else if match pattern with
          | Some r => negb (re_match r value)
          | None => false
          end
  then raise_ValidationError field_name
  else if sanitize then sanitize_string value field_name
  else Ok value.

Definition Zlt_opt_min (v : Z) (min_value : option Z) : bool :=
  match min_value with
  | Some m => (v <? m)%Z
  | None => false
  end.

Definition Zgt_opt_max (v : Z) (max_value : option Z) : bool :=
  match max_value with
  | Some m => (m <? v)%Z
  | None => false
  end.

(** [validate_integer] on a value that already is an [int]. *)
Definition validate_integer (value : Z) (field_name : string)
    (min_value max_value : option Z) : raising Z :=
  if Zlt_opt_min value min_value then raise_ValidationError field_name
  else if Zgt_opt_max value max_value then raise_ValidationError field_name
  else Ok value.

Definition Qltb (a b : Q) : bool := negb (Qle_bool b a).

(** [validate_float] on a number: [float(value)] succeeds, and the two
    bounds are compared with the double [float_value].  The number is handed
    on; its double is [Float64.of_Q] of it wherever it is compared again. *)
Definition validate_float (value : Q) (field_name : string)
    (min_value max_value : option Q) : raising Q :=
  let float_value := Float64.of_Q value in
  if match min_value with
     | Some m => Float64.ltb float_value (Float64.of_Q m)
     | None => false
     end
  then raise_ValidationError field_name
  else if match max_value with
          | Some m => Float64.ltb (Float64.of_Q m) float_value
          | None => false
          end
  then raise_ValidationError field_name
  else Ok value.

(** [validate_list] with an [item_validator] (every caller passes one): an
    item's [ValidationError] is re-raised with the field [name[i]]. *)
Fixpoint validate_items {A B : Type} (item_validator : A -> raising B)
    (field_name : string) (i : nat) (items : list A) : raising (list B) :=
  match items with
  | [] => Ok []
  | item :: rest =>
      match item_validator item with
      | Ok v =>
          vs <- validate_items item_validator field_name (S i) rest ;;
          Ok (v :: vs)
      | Err (Api (ValidationError _)) =>
          raise_ValidationError (field_name ++ "[" ++ str_nat i ++ "]")
      | Err e => Err e
      end
  end.

Definition validate_list {A B : Type} (value : list A) (field_name : string)
    (max_length : option nat) (item_validator : A -> raising B) : raising (list B) :=
  if (or_default max_length MAX_LIST_LENGTH <? List.length value)%nat
  then raise_ValidationError field_name
  else validate_items item_validator field_name 0 value.

Definition validate_search_query (query : string) : raising string :=
  query' <- validate_string query "search_query" 1 (Some MAX_QUERY_LENGTH) false None true ;;
  if (50 <? List.length (split query'))%nat
  then raise_ValidationError "search_query"
  else Ok query'.

Definition validate_pagination (offset limit : Z) : raising (Z * Z) :=
  offset' <- validate_integer offset "offset" (Some 0%Z) None ;;
  limit' <- validate_integer limit "limit" (Some 1%Z) (Some 100%Z) ;;
  Ok (offset', limit').

(** *** handle_api_errors

    What a decorated endpoint hands back to its caller: the value the body
    returned, or a [JSONResponse] built from the exception it raised. *)
Inductive response (A : Type) : Type :=
| Returned (a : A)
| JSONResponse (status : nat) (code : string) (field : option string).
Arguments Returned {A} a.
Arguments JSONResponse {A} status code field.

Definition handle_api_errors {A : Type} (body : raising A) : response A :=
  match body with
  | Ok a => Returned a
  | Err (Api e) => JSONResponse (status_code e) (error_code e) (error_field e)
  | Err (SQLAlchemyError _) => JSONResponse 500 "DATABASE_ERROR" None
  | Err (PyException _) => JSONResponse 500 "INTERNAL_ERROR" None
  end.

End ErrorHandling.

(* ===================================================================== *)
(** * src/mhe/access/routers/search.py *)
(* ===================================================================== *)

Module Search.
Import Py ErrorHandling.

(** ** Tables

    Modelled from the spec: the ORM classes imported from
    [...memory.models] are not part of the sources of this revision.  Rows
    carry the columns and relationships that [search.py] reads (spec 3:
    ContentItem [{kind, id, text, thread_id, timestamp}]); a [timestamp] is
    an integer tick. *)
Record Assistant := mkAssistant {
  assistant_id : string;
  assistant_name : string
}.

Record Thread := mkThread {
  thread_id : string;
  thread_title : string;
  thread_assistant_id : string
}.

Record Artifact := mkArtifact {
  artifact_id : string;
  artifact_title : option string;
  artifact_content : string;
  artifact_type : string;
  artifact_language : option string
}.

Record Message := mkMessage {
  id : string;
  message_thread_id : string;
  role : string;
  content : string;
  timestamp : Z;
  artifacts : list Artifact
}.

Record MemoryCard := mkMemoryCard {
  card_id : string;
  card_message_id : string;
  content_summary : string;
  key_concepts : list string;
  importance_score : Q
}.

Record Database := mkDatabase {
  assistants : list Assistant;
  threads : list Thread;
  messages : list Message;
  memory_cards : list MemoryCard
}.

(** A [Session]: the tables, and a schedule of transient faults.  Each run
    of a [try] block that queries the database takes the head of [faults];
    [true] means that the driver raises during that run. *)
Record Session := mkSession {
  database : Database;
  faults : list bool
}.

Definition next_fault (s : Session) : bool * Session :=
  match faults s with
  | [] => (false, s)
  | f :: fs => (f, mkSession (database s) fs)
  end.

(** What lies outside the Python sources: the database's [contains]
    operator ([LIKE] on the lowered column), whether [Query.options]
    tolerates a [None] argument, [str(datetime)] and the generative client. *)
Record Env := mkEnv {
  sql_contains : string -> string -> bool;
  options_accept_none : bool;
  str_datetime : Z -> string;
  summarize : string -> option string
}.

(** ** Request and response models (pydantic) *)

Record SearchQuery := mkSearchQuery {
  sq_query : string;
  sq_limit : Z;
  sq_offset : Z;
  sq_assistant_filter : option (list string);
  sq_date_from : option Z;
  sq_date_to : option Z;
  sq_include_artifacts : bool;
  sq_include_memory_cards : bool
}.

Record VectorSearchQuery := mkVectorSearchQuery {
  vq_query : string;
  vq_similarity_threshold : Q;
  vq_limit : Z;
  vq_assistant_filter : option (list string)
}.

Record HybridSearchQuery := mkHybridSearchQuery {
  hq_query : string;
  hq_text_weight : Q;
  hq_vector_weight : Q;
  hq_limit : Z;
  hq_assistant_filter : option (list string)
}.

Record RAGQuery := mkRAGQuery {
  rq_query : string;
  rq_max_context_tokens : Z;
  rq_max_results : Z;
  rq_assistant_filter : option (list string);
  rq_include_conversation_context : bool;
  rq_temperature : Q
}.

Definition Z_between (lo hi v : Z) : bool := ((lo <=? v) && (v <=? hi))%Z.

(** [ge] and [le] on a [float] field: the bounds and the number as doubles. *)
Definition float_between (lo hi v : Q) : bool :=
  Float64.leb (Float64.of_Q lo) (Float64.of_Q v)
  && Float64.leb (Float64.of_Q v) (Float64.of_Q hi).

(** The [Field(ge=..., le=...)] constraints, checked when a model is built. *)
Definition SearchQuery_valid (q : SearchQuery) : bool :=
  Z_between 1 100 (sq_limit q) && (0 <=? sq_offset q)%Z.

Definition VectorSearchQuery_valid (q : VectorSearchQuery) : bool :=
  float_between 0 1 (vq_similarity_threshold q) && Z_between 1 100 (vq_limit q).

Definition HybridSearchQuery_valid (q : HybridSearchQuery) : bool :=
  float_between 0 1 (hq_text_weight q) && float_between 0 1 (hq_vector_weight q)
  && Z_between 1 100 (hq_limit q).

Definition RAGQuery_valid (q : RAGQuery) : bool :=
  Z_between 500 8000 (rq_max_context_tokens q) && Z_between 1 50 (rq_max_results q)
  && float_between 0 2 (rq_temperature q).

(** Building a model inside an endpoint: pydantic raises its own
    [ValidationError] (not an [APIError]) when a constraint fails. *)
Definition pydantic_init {A : Type} (valid : A -> bool) (a : A) : raising A :=
  if valid a then Ok a else Err (PyException "pydantic.ValidationError").

Inductive meta_value :=
| MStr (s : string)
| MOptStr (s : option string)
| MInt (n : nat)
| MFloat (q : Q)
| MList (l : list string).

Record SearchResult := mkSearchResult {
  sr_id : string;
  sr_type : string;
  sr_content : string;
  sr_title : option string;
  score : Q;
  sr_timestamp : Z;
  sr_assistant_name : string;
  sr_thread_title : string;
  sr_metadata : list (string * meta_value)
}.

(** [execution_time_ms] (wall-clock) is left out. *)
Record SearchResponse := mkSearchResponse {
  results : list SearchResult;
  total_count : nat;
  resp_query : string;
  search_type : string
}.

Record RAGContext := mkRAGContext {
  source_id : string;
  source_type : string;
  ctx_content : string;
  ctx_assistant_name : string;
  ctx_thread_title : string;
  ctx_timestamp : Z;
  relevance_score : Q
}.

(** [generation_time_ms] (wall-clock) is left out. *)
Record RAGResponse := mkRAGResponse {
  answer : string;
  rag_resp_query : string;
  contexts : list RAGContext;
  total_context_tokens : Z;
  sources_count : nat
}.

(** ** Helpers shared by the endpoints *)

(** The block repeated in every endpoint:
    [assistant_filter = None; if q.assistant_filter: assistant_filter =
     validate_list(..., max_length=20, item_validator=validate_string(x,
     "assistant_name", min_length=1, max_length=100))]. *)
Definition validate_assistant_filter (assistant_filter : option (list string))
    : raising (option (list string)) :=
  match assistant_filter with
  | None => Ok None
  | Some [] => Ok None
  | Some names =>
      names' <- validate_list names "assistant_filter" (Some 20)
                  (fun x => validate_string x "assistant_name" 1 (Some 100) true None true) ;;
      Ok (Some names')
  end.

(** [if assistant_filter:] *)
Definition filter_given (assistant_filter : option (list string)) : bool :=
  match assistant_filter with
  | Some (_ :: _) => true
  | _ => false
  end.

Definition name_in (assistant_filter : option (list string)) (name : string) : bool :=
  match assistant_filter with
  | Some names => existsb (String.eqb name) names
  | None => false
  end.

(** [session.query(Message).join(Thread).join(Assistant)] *)
Definition join_message (db : Database) (m : Message)
    : option (Message * Thread * Assistant) :=
  match find (fun t => thread_id t =? message_thread_id m) (threads db) with
  | Some t =>
      match find (fun a => assistant_id a =? thread_assistant_id t) (assistants db) with
      | Some a => Some (m, t, a)
      | None => None
      end
  | None => None
  end.

Fixpoint filter_map {A B : Type} (f : A -> option B) (l : list A) : list B :=
  match l with
  | [] => []
  | x :: l' =>
      match f x with
      | Some y => y :: filter_map f l'
      | None => filter_map f l'
      end
  end.

Definition joined_messages (db : Database) : list (Message * Thread * Assistant) :=
  filter_map (join_message db) (messages db).

(** [session.query(MemoryCard).join(Message).join(Thread).join(Assistant)] *)
Definition join_card (db : Database) (c : MemoryCard)
    : option (MemoryCard * (Message * Thread * Assistant)) :=
  match find (fun m => id m =? card_message_id c) (messages db) with
  | Some m =>
      match join_message db m with
      | Some row => Some (c, row)
      | None => None
      end
  | None => None
  end.

Definition joined_cards (db : Database)
    : list (MemoryCard * (Message * Thread * Assistant)) :=
  filter_map (join_card db) (memory_cards db).

Definition Z_limit {A : Type} (n : Z) (l : list A) : list A := firstn (Z.to_nat n) l.
Definition Z_offset {A : Type} (n : Z) (l : list A) : list A := skipn (Z.to_nat n) l.

(** [sum(text.count(term) for term in search_terms) / len(search_terms)]
    followed by [min(score / 10.0, 1.0)].  [search_terms] comes from a
    validated query and is never empty. *)
Definition term_frequency (text_lower : string) (search_terms : list string) : Q :=
  (inject_Z (Z.of_nat (list_sum (map (count text_lower) search_terms)))
   / inject_Z (Z.of_nat (List.length search_terms)))%Q.

Definition relevance (text_lower : string) (search_terms : list string) : Q :=
  Qmin (term_frequency text_lower search_terms / 10)%Q 1%Q.

(** [text[:500] + "..." if len(text) > 500 else text] *)
Definition preview (text : string) : string :=
  if (500 <? String.length text)%nat then slice_to 500 text ++ "..." else text.

(** [results.sort(key=lambda x: x.score, reverse=True)]: stable, equal scores
    keep their order. *)
Fixpoint insert_desc (x : SearchResult) (l : list SearchResult) : list SearchResult :=
  match l with
  | [] => [x]
  | y :: l' => if Qltb (score x) (score y) then y :: insert_desc x l' else x :: l
  end.

Definition sort_desc (l : list SearchResult) : list SearchResult :=
  fold_right insert_desc [] l.

Section Endpoints.

Variable env : Env.

(** ** text_search *)

(** The [WHERE] clause of the message query. *)
Definition message_matches (search_terms : list string)
    (row : Message * Thread * Assistant) : bool :=
  let '(m, t, _) := row in
  forallb (fun term => sql_contains env (lower (content m)) term
                       || sql_contains env (lower (thread_title t)) term)
          search_terms.

Definition opt_filter {A : Type} (given : bool) (f : A -> bool) (l : list A) : list A :=
  if given then filter f l else l.

Definition is_some {A : Type} (o : option A) : bool :=
  match o with
  | Some _ => true
  | None => false
  end.

Definition nonempty {A : Type} (l : list A) : bool :=
  match l with
  | [] => false
  | _ :: _ => true
  end.

Definition message_query (db : Database) (search_terms : list string)
    (assistant_filter : option (list string)) (date_from date_to : option Z)
    : list (Message * Thread * Assistant) :=
  let q0 := joined_messages db in
  let q1 := opt_filter (nonempty search_terms) (message_matches search_terms) q0 in
  let q2 := opt_filter (filter_given assistant_filter)
              (fun '(_, _, a) => name_in assistant_filter (assistant_name a)) q1 in
  let q3 := match date_from with
            | Some d => filter (fun '(m, _, _) => (d <=? timestamp m)%Z) q2
            | None => q2
            end in
  let q4 := match date_to with
            | Some d => filter (fun '(m, _, _) => (timestamp m <=? d)%Z) q3
            | None => q3
            end in
  (* .filter(message_query.whereclause is not None) *)
  if nonempty search_terms || filter_given assistant_filter
     || is_some date_from || is_some date_to
  then q4 else [].

Definition message_result (search_terms : list string)
    (row : Message * Thread * Assistant) : SearchResult :=
  let '(message, thread, assistant) := row in
  mkSearchResult (id message) "message" (preview (content message)) None
    (relevance (lower (content message)) search_terms)
    (timestamp message) (assistant_name assistant) (thread_title thread)
    [("thread_id", MStr (message_thread_id message));
     ("role", MStr (role message));
     ("artifact_count", MInt (List.length (artifacts message)))].

Definition artifact_result (search_terms : list string)
    (row : Message * Thread * Assistant) (artifact : Artifact) : SearchResult :=
  let '(message, thread, assistant) := row in
  mkSearchResult (artifact_id artifact) "artifact" (preview (artifact_content artifact))
    (artifact_title artifact)
    (relevance (lower (artifact_content artifact)) search_terms)
    (timestamp message) (assistant_name assistant) (thread_title thread)
    [("message_id", MStr (id message));
     ("artifact_type", MStr (artifact_type artifact));
     ("language", MOptStr (artifact_language artifact))].

(** One iteration of [for message in messages]. *)
Definition message_results (search_terms : list string) (include_artifacts : bool)
    (row : Message * Thread * Assistant) : list SearchResult :=
  let '(message, _, _) := row in
  message_result search_terms row
  :: (if include_artifacts
      then map (artifact_result search_terms row)
             (filter (fun artifact =>
                        existsb (fun term => contains term (lower (artifact_content artifact)))
                                search_terms)
                     (artifacts message))
      else []).

(** [for term in search_terms: memory_text_conditions.append(or_(...,
       func.lower(MemoryCard.key_concepts.cast(text)).contains(term)))]:
    [text] is the SQL text construct imported from [sqlalchemy] at the top of
    the module, not a column type.  Building the cast calls it without an
    argument, which raises [TypeError] at the first term; only an empty list
    of terms leaves the loop, with no condition. *)
Definition memory_text_conditions (search_terms : list string) : raising unit :=
  match search_terms with
  | [] => Ok tt
  | _ :: _ => Err (PyException "TypeError")
  end.

Definition card_result (search_terms : list string)
    (row : MemoryCard * (Message * Thread * Assistant)) : SearchResult :=
  let '(card, (message, thread, assistant)) := row in
  mkSearchResult (card_id card) "memory_card" (content_summary card) None
    (relevance (lower (content_summary card)) search_terms * importance_score card)%Q
    (timestamp message) (assistant_name assistant) (thread_title thread)
    [("message_id", MStr (card_message_id card));
     ("importance_score", MFloat (importance_score card));
     ("key_concepts", MList (firstn 5 (key_concepts card)))].

(** The memory-card query once [memory_text_conditions] is empty. *)
Definition memory_card_query (db : Database)
    (assistant_filter : option (list string)) (limit : Z)
    : list (MemoryCard * (Message * Thread * Assistant)) :=
  let q0 := joined_cards db in
  let q2 := opt_filter (filter_given assistant_filter)
              (fun '(_, (_, _, a)) => name_in assistant_filter (assistant_name a)) q0 in
  Z_limit (limit / 2) q2.

(** The body of the [try] block, on a database that answers. *)
Definition text_search_try (db : Database) (search_query : SearchQuery)
    (validated_query : string) (offset limit : Z)
    (assistant_filter : option (list string)) : raising SearchResponse :=
  let search_terms := split (lower validated_query) in
  if negb (sq_include_artifacts search_query) && negb (options_accept_none env)
  then Err (SQLAlchemyError "ArgumentError")
  else
    let messages_ :=
      Z_limit limit (Z_offset offset
        (message_query db search_terms assistant_filter
           (sq_date_from search_query) (sq_date_to search_query))) in
    let results0 :=
      flat_map (message_results search_terms (sq_include_artifacts search_query))
               messages_ in
    results1 <-
      (if sq_include_memory_cards search_query
       then
         _ <- memory_text_conditions search_terms ;;
         Ok (results0 ++ map (card_result search_terms)
                             (memory_card_query db assistant_filter limit))%list
       else Ok results0) ;;
    let results2 := Z_limit limit (sort_desc results1) in
    Ok (mkSearchResponse results2 (List.length results2) validated_query "text").

(** The undecorated function. *)
Definition text_search_body (search_query : SearchQuery) (session : Session)
    : raising SearchResponse * Session :=
  match
    (validated_query <- validate_search_query (sq_query search_query) ;;
     pagination <- validate_pagination (sq_offset search_query) (sq_limit search_query) ;;
     assistant_filter <- validate_assistant_filter (sq_assistant_filter search_query) ;;
     Ok (validated_query, pagination, assistant_filter))
  with
  | Err e => (Err e, session)
  | Ok (validated_query, (offset, limit), assistant_filter) =>
      let '(fault, session') := next_fault session in
      (try_except
         (if fault then Err (SQLAlchemyError "OperationalError")
          else text_search_try (database session) search_query validated_query
                 offset limit assistant_filter)
         (DatabaseError (Some "text_search")),
       session')
  end.

(** [text_search] as bound in the module, that is, under [@handle_api_errors]. *)
Definition text_search (search_query : SearchQuery) (session : Session)
    : response SearchResponse * Session :=
  let '(r, session') := text_search_body search_query session in
  (handle_api_errors r, session').

(** Attribute access on what an awaited endpoint handed back: a
    [JSONResponse] has no [results]. *)
Definition get_results (r : response SearchResponse) : raising (list SearchResult) :=
  match r with
  | Returned resp => Ok (results resp)
  | JSONResponse _ _ _ => Err (PyException "AttributeError")
  end.

(** ** vector_search *)

Definition vector_search_body (search_query : VectorSearchQuery) (session : Session)
    : raising SearchResponse * Session :=
  match
    (validated_query <- validate_search_query (vq_query search_query) ;;
     similarity_threshold <-
       validate_float (vq_similarity_threshold search_query) "similarity_threshold"
                      (Some 0%Q) (Some 1%Q) ;;
     assistant_filter <- validate_assistant_filter (vq_assistant_filter search_query) ;;
     Ok (validated_query, similarity_threshold, assistant_filter))
  with
  | Err e => (Err e, session)
  | Ok (validated_query, similarity_threshold, assistant_filter) =>
      let handler := ExternalServiceError "embedding_service" in
      match pydantic_init SearchQuery_valid
              (mkSearchQuery validated_query (vq_limit search_query) 0 assistant_filter
                             None None true true) with
      | Err e => (try_except (Err e) handler, session)
      | Ok text_query =>
          let '(response_, session') := text_search text_query session in
          (try_except
             (match response_ with
              | Returned resp =>
                  let results' :=
                    filter (fun r => Qle_bool similarity_threshold (score r)) (results resp) in
                  Ok (mkSearchResponse results' (List.length results') (resp_query resp)
                                       "vector_fallback")
              | JSONResponse _ _ _ => Err (PyException "AttributeError")
              end)
             handler,
           session')
      end
  end.

Definition vector_search (search_query : VectorSearchQuery) (session : Session)
    : response SearchResponse * Session :=
  let '(r, session') := vector_search_body search_query session in
  (handle_api_errors r, session').

(** ** hybrid_search *)

(** [combined_results]: a [dict] keyed by [result.id]; iteration follows
    insertion order and assigning to an existing key keeps its position. *)
Definition dict := list (string * SearchResult).

Fixpoint dict_get (k : string) (d : dict) : option SearchResult :=
  match d with
  | [] => None
  | (k', v) :: d' => if k' =? k then Some v else dict_get k d'
  end.

Fixpoint dict_set (k : string) (v : SearchResult) (d : dict) : dict :=
  match d with
  | [] => [(k, v)]
  | (k', v') :: d' => if k' =? k then (k', v) :: d' else (k', v') :: dict_set k v d'
  end.

Definition dict_values (d : dict) : list SearchResult := map snd d.

Definition with_score (r : SearchResult) (s : Q) : SearchResult :=
  mkSearchResult (sr_id r) (sr_type r) (sr_content r) (sr_title r) s
                 (sr_timestamp r) (sr_assistant_name r) (sr_thread_title r)
                 (sr_metadata r).

(** [for result in text_response.results:
       result.score *= text_weight; combined_results[result.id] = result] *)
Definition add_text_results (text_weight : Q) (text_results : list SearchResult)
    (combined_results : dict) : dict :=
  fold_left
    (fun combined result =>
       let result' := with_score result (score result * text_weight)%Q in
       dict_set (sr_id result') result' combined)
    text_results combined_results.

(** [for result in vector_response.results:
       result.score *= vector_weight
       if result.id in combined_results:
           combined_results[result.id].score += result.score
       else: combined_results[result.id] = result] *)
Definition add_vector_results (vector_weight : Q) (vector_results : list SearchResult)
    (combined_results : dict) : dict :=
  fold_left
    (fun combined result =>
       let result' := with_score result (score result * vector_weight)%Q in
       match dict_get (sr_id result') combined with
       | Some existing =>
           dict_set (sr_id result')
                    (with_score existing (score existing + score result')%Q) combined
       | None => dict_set (sr_id result') result' combined
       end)
    vector_results combined_results.

Definition combine_results (text_weight vector_weight : Q)
    (text_results vector_results : list SearchResult) : dict :=
  add_vector_results vector_weight vector_results
    (add_text_results text_weight text_results []).

(** The part of the [try] block that follows the two awaited searches. *)
Definition hybrid_fuse (text_weight vector_weight : Q) (limit : Z)
    (validated_query : string)
    (text_response vector_response : response SearchResponse)
    : raising SearchResponse :=
  text_results <- get_results text_response ;;
  vector_results <- get_results vector_response ;;
  let combined_results :=
    combine_results text_weight vector_weight text_results vector_results in
  let final_results := Z_limit limit (sort_desc (dict_values combined_results)) in
  Ok (mkSearchResponse final_results (List.length final_results) validated_query "hybrid").

(** [abs(text_weight + vector_weight - 1.0) > 0.01], in double precision:
    the sum and the difference are each rounded. *)
Definition weight_sum_off (text_weight vector_weight : Q) : bool :=
  Float64.ltb (Float64.of_Q (1 # 100))
    (Float64.abs
       (Float64.sub
          (Float64.add (Float64.of_Q text_weight) (Float64.of_Q vector_weight))
          (Float64.of_Q 1))).

(** The validation that precedes the [try] block. *)
Definition hybrid_validate (search_query : HybridSearchQuery)
    : raising (string * Q * Q * option (list string)) :=
  validated_query <- validate_search_query (hq_query search_query) ;;
  text_weight <- validate_float (hq_text_weight search_query) "text_weight"
                   (Some 0%Q) (Some 1%Q) ;;
  vector_weight <- validate_float (hq_vector_weight search_query) "vector_weight"
                     (Some 0%Q) (Some 1%Q) ;;
  if weight_sum_off text_weight vector_weight
  then raise_ValidationError "weights"
  else
    assistant_filter <- validate_assistant_filter (hq_assistant_filter search_query) ;;
    Ok (validated_query, text_weight, vector_weight, assistant_filter).

(** The [try] block: both searches are awaited before either result list is
    read; any exception raised inside is replaced by the [except] clause. *)
Definition hybrid_try (validated_query : string) (text_weight vector_weight : Q)
    (assistant_filter : option (list string)) (limit : Z) (session : Session)
    : raising SearchResponse * Session :=
  let handler := ExternalServiceError "search_engine" in
  match pydantic_init SearchQuery_valid
          (mkSearchQuery validated_query (limit * 2) 0 assistant_filter
                         None None true true) with
  | Err e => (try_except (Err e) handler, session)
  | Ok text_query =>
      let '(text_response, session1) := text_search text_query session in
      match pydantic_init VectorSearchQuery_valid
              (mkVectorSearchQuery validated_query (1 # 2) (limit * 2)
                                   assistant_filter) with
      | Err e => (try_except (Err e) handler, session1)
      | Ok vector_query =>
          let '(vector_response, session2) := vector_search vector_query session1 in
          (try_except
             (hybrid_fuse text_weight vector_weight limit validated_query
                          text_response vector_response)
             handler,
           session2)
      end
  end.

Definition hybrid_search_body (search_query : HybridSearchQuery) (session : Session)
    : raising SearchResponse * Session :=
  match hybrid_validate search_query with
  | Err e => (Err e, session)
  | Ok (validated_query, text_weight, vector_weight, assistant_filter) =>
      hybrid_try validated_query text_weight vector_weight assistant_filter
                 (hq_limit search_query) session
  end.

Definition hybrid_search (search_query : HybridSearchQuery) (session : Session)
    : response SearchResponse * Session :=
  let '(r, session') := hybrid_search_body search_query session in
  (handle_api_errors r, session').

(** A request as the router receives it: FastAPI builds the body model first
    and answers 422 without calling the endpoint when a [Field] constraint
    fails. *)
Inductive routed (A : Type) : Type :=
| Unprocessable422
| Handled (r : response A).
Arguments Unprocessable422 {A}.
Arguments Handled {A} r.

Definition post_hybrid (body : HybridSearchQuery) (session : Session)
    : routed SearchResponse * Session :=
  if HybridSearchQuery_valid body
  then let '(r, session') := hybrid_search body session in (Handled r, session')
  else (Unprocessable422, session).

(** ** rag_query *)

(** [query.order_by(key.desc()).first()] and [query.order_by(key.asc()).first()]
    over the rows that pass [keep]; among rows with equal keys the one the
    table lists first is returned. *)
Definition pick_first (better : Message -> Message -> bool) (rows : list Message)
    : option Message :=
  fold_left
    (fun best m =>
       match best with
       | None => Some m
       | Some b => if better m b then Some m else best
       end)
    rows None.

Definition prev_message_of (db : Database) (message : Message) : option Message :=
  pick_first (fun m b => (timestamp b <? timestamp m)%Z)
    (filter (fun m => (message_thread_id m =? message_thread_id message)
                      && (timestamp m <? timestamp message)%Z)
            (messages db)).

Definition next_message_of (db : Database) (message : Message) : option Message :=
  pick_first (fun m b => (timestamp m <? timestamp b)%Z)
    (filter (fun m => (message_thread_id m =? message_thread_id message)
                      && (timestamp message <? timestamp m)%Z)
            (messages db)).

(** The [content] of one context: the message alone, or the threaded window. *)
Definition neighbor_part (label : string) (neighbor : option Message) : list string :=
  match neighbor with
  | Some m => [label ++ role m ++ ": " ++ slice_to 200 (content m) ++ "..."]
  | None => []
  end.

Definition context_parts (db : Database) (message : Message) : list string :=
  let current := "[Current] " ++ role message ++ ": " ++ content message in
  (neighbor_part "[Previous] " (prev_message_of db message)
   ++ [current]
   ++ neighbor_part "[Next] " (next_message_of db message))%list.

Definition context_content (db : Database) (include_conversation_context : bool)
    (message : Message) : string :=
  if include_conversation_context
  then join Embeddings.newline (context_parts db message)
  else content message.

(** [len(content) // 4] *)
Definition estimated_tokens (content_ : string) : Z :=
  (Z.of_nat (String.length content_) / 4)%Z.

Definition make_context (db : Database) (search_terms : list string)
    (include_conversation_context : bool)
    (row : Message * Thread * Assistant) : RAGContext :=
  let '(message, thread, assistant) := row in
  mkRAGContext (id message) "message"
    (context_content db include_conversation_context message)
    (assistant_name assistant) (thread_title thread) (timestamp message)
    (relevance (lower (content message)) search_terms).

(** Step 2, [for message in messages: ... if total_tokens + estimated_tokens >
    validated_max_context_tokens: break ... total_tokens += estimated_tokens];
    returns [(contexts, total_tokens)]. *)
Fixpoint build_contexts (db : Database) (search_terms : list string)
    (include_conversation_context : bool) (validated_max_context_tokens : Z)
    (messages_ : list (Message * Thread * Assistant)) (total_tokens : Z)
    : list RAGContext * Z :=
  match messages_ with
  | [] => ([], total_tokens)
  | row :: rest =>
      let ctx := make_context db search_terms include_conversation_context row in
      let estimated := estimated_tokens (ctx_content ctx) in
      if (validated_max_context_tokens <? total_tokens + estimated)%Z
      then ([], total_tokens)
      else
        let '(contexts_, total) :=
          build_contexts db search_terms include_conversation_context
                         validated_max_context_tokens rest (total_tokens + estimated)%Z in
        (ctx :: contexts_, total)
  end.

Definition rag_message_query (db : Database) (search_terms : list string)
    (assistant_filter : option (list string)) (limit : Z)
    : list (Message * Thread * Assistant) :=
  let q0 := joined_messages db in
  let q1 := opt_filter (nonempty search_terms) (message_matches search_terms) q0 in
  let q2 := opt_filter (filter_given assistant_filter)
              (fun '(_, _, a) => name_in assistant_filter (assistant_name a)) q1 in
  Z_limit limit q2.

Definition context_source (ctx : RAGContext) : string :=
  "Source: " ++ ctx_assistant_name ctx ++ " - " ++ ctx_thread_title ctx
  ++ " (" ++ str_datetime env (ctx_timestamp ctx) ++ ")" ++ Embeddings.newline
  ++ ctx_content ctx.

Definition build_prompt (query : string) (contexts_ : list RAGContext) : string :=
  let nl := Embeddings.newline in
  "Based on the following conversation contexts, please answer the user's question."
  ++ nl ++ nl ++ "User Question: " ++ query ++ nl ++ nl ++ "Relevant Contexts:" ++ nl
  ++ join (nl ++ nl) (map context_source contexts_) ++ nl ++ nl
  ++ "Please provide a comprehensive answer based on the contexts above. "
  ++ "If the contexts don't contain enough information to fully answer the question, "
  ++ "please indicate what additional information might be needed.".

Definition rag_validate (rag_query : RAGQuery)
    : raising (string * Z * Z * Q * option (list string)) :=
  validated_query <- validate_search_query (rq_query rag_query) ;;
  validated_max_context_tokens <-
    validate_integer (rq_max_context_tokens rag_query) "max_context_tokens"
                     (Some 500%Z) (Some 8000%Z) ;;
  validated_max_results <-
    validate_integer (rq_max_results rag_query) "max_results" (Some 1%Z) (Some 50%Z) ;;
  validated_temperature <-
    validate_float (rq_temperature rag_query) "temperature" (Some 0%Q) (Some 2%Q) ;;
  assistant_filter <- validate_assistant_filter (rq_assistant_filter rag_query) ;;
  Ok (validated_query, validated_max_context_tokens, validated_max_results,
      validated_temperature, assistant_filter).

Definition rag_query_try (db : Database) (rag_query : RAGQuery)
    (validated_query : string) (validated_max_context_tokens validated_max_results : Z)
    (assistant_filter : option (list string)) : raising RAGResponse :=
  _ <- pydantic_init HybridSearchQuery_valid
         (mkHybridSearchQuery validated_query (3 # 10) (7 # 10) validated_max_results
                              assistant_filter) ;;
  let search_terms := split (lower validated_query) in
  let messages_ := rag_message_query db search_terms assistant_filter validated_max_results in
  let '(contexts_, total_tokens) :=
    build_contexts db search_terms (rq_include_conversation_context rag_query)
                   validated_max_context_tokens messages_ 0%Z in
  match summarize env (build_prompt (rq_query rag_query) contexts_) with
  | None => Err (PyException "generative client")
  | Some answer_ =>
      Ok (mkRAGResponse answer_ validated_query contexts_ total_tokens
                        (List.length contexts_))
  end.

Definition rag_query_body (rag_query : RAGQuery) (session : Session)
    : raising RAGResponse * Session :=
  match rag_validate rag_query with
  | Err e => (Err e, session)
  | Ok (validated_query, validated_max_context_tokens, validated_max_results, _,
        assistant_filter) =>
      let '(fault, session') := next_fault session in
      (try_except
         (if fault then Err (SQLAlchemyError "OperationalError")
          else rag_query_try (database session) rag_query validated_query
                 validated_max_context_tokens validated_max_results assistant_filter)
         (ExternalServiceError "llm_service"),
       session')
  end.

Definition rag_query (rag_query_ : RAGQuery) (session : Session)
    : response RAGResponse * Session :=
  let '(r, session') := rag_query_body rag_query_ session in
  (handle_api_errors r, session').

End Endpoints.

Arguments Unprocessable422 {A}.
Arguments Handled {A} r.

End Search.

(* ===================================================================== *)
(** * Notions used in the statements about the pipeline *)
(* ===================================================================== *)

Module EmbeddingsSpec.
Import Embeddings.

Section Spec.

Variable vector : Type.
Variable embed : string -> option vector.

(** The records stored under one conflict key. *)
Definition records_for (k : key) (table : list (Embedding vector)) : list (Embedding vector) :=
  filter (fun e => key_eqb k (key_of e)) table.

(** The shape shared by the two generators. *)
Definition stream_rows {T : Type} (kind : string) (id_of : T -> string)
    (job_of : EmbeddingPipeline -> T -> EmbeddingJob)
    (rows_of : Store vector -> list T)
    (p : EmbeddingPipeline) (db : Store vector) (offset : nat)
    : option (list EmbeddingJob) :=
  let rows :=
    limit_offset (batch_size p) offset
      (unembedded kind id_of (self_model p) (embeddings db) (rows_of db)) in
  match rows with
  | [] => None
  | _ => Some (map (job_of p) rows)
  end.

(** [e] is the record the pipeline writes for a job. *)
Definition made_from (job : EmbeddingJob) (e : Embedding vector) : Prop :=
  key_of e = (job_target_kind job, job_target_id job, job_model job)
  /\ embed (job_content job) = Some (vector_ e).

Definition job_key (job : EmbeddingJob) : key :=
  (job_target_kind job, job_target_id job, job_model job).

Definition result_key (r : EmbeddingResult vector) : key :=
  (res_target_kind vector r, res_target_id vector r, res_model vector r).

(** The jobs of a whole store. *)
Definition jobs_of (p : EmbeddingPipeline) (db : Store vector) : list EmbeddingJob :=
  (map (message_job p) (messages db) ++ map (card_job p) (memory_cards db))%list.

End Spec.

(** A store of three messages, a pipeline with batches of two, and a client
    that embeds a text as its length. *)
Definition length_client (text : string) : option nat := Some (String.length text).

Definition batches_of_two : EmbeddingPipeline :=
  mkEmbeddingPipeline 2 10 "text-embedding-ada-002" 1536.

Definition three_messages : Store nat :=
  mkStore [mkMessage "m1" "alpha"; mkMessage "m2" "beta"; mkMessage "m3" "gamma"]
          [mkMemoryCard "c1" "title" "summary"] [] 0.

(** A store of seven messages, none of them embedded. *)
Definition seven_messages : Store nat :=
  mkStore [mkMessage "m1" "alpha"; mkMessage "m2" "beta"; mkMessage "m3" "gamma";
           mkMessage "m4" "delta"; mkMessage "m5" "epsilon"; mkMessage "m6" "zeta";
           mkMessage "m7" "eta"]
          [] [] 0.

End EmbeddingsSpec.

(* ===================================================================== *)
(** * Notions used in the statements about the search endpoints *)
(* ===================================================================== *)

Module SearchSpec.
Import Py ErrorHandling Search.

(** The sum of the token estimates of a list of contexts. *)
Definition tokens_of (contexts_ : list RAGContext) : Z :=
  fold_right (fun c acc => (estimated_tokens (ctx_content c) + acc)%Z) 0%Z contexts_.

(** An endpoint handed back an error response. *)
Definition failed {A : Type} (r : response A) : Prop :=
  exists status code field, r = JSONResponse status code field.

(** A text search over messages and their artifacts, memory cards not
    requested. *)
Definition messages_only (query : string) (limit : Z) : SearchQuery :=
  mkSearchQuery query limit 0 None None None true false.



(** ** A concrete installation *)

(** Substring matching for [contains], a [Query.options] that refuses
    [None], decimal ticks and a generative client with a fixed answer. *)
Definition env0 : Env :=
  mkEnv (fun haystack needle => contains needle haystack)
        false
        (fun t => str_nat (Z.to_nat t))
        (fun _ => Some "ok").

Definition python6 : string := "python python python python python python".

(** One thread of three messages at ticks 1, 2, 3 and one memory card. *)
Definition db0 : Database :=
  mkDatabase
    [mkAssistant "a1" "claude"]
    [mkThread "t1" "help" "a1"]
    [mkMessage "m1" "t1" "user" "how do I learn python" 1 [];
     mkMessage "m2" "t1" "assistant" python6 2 [];
     mkMessage "m3" "t1" "user" "thanks" 3 []]
    [mkMemoryCard "c1" "m2" (python6 ++ " python python notes") ["python"] 1].

Definition session0 : Session := mkSession db0 [].

Definition hybrid_python (text_weight vector_weight : Q) (limit : Z) : HybridSearchQuery :=
  mkHybridSearchQuery "python" text_weight vector_weight limit None.

(** What a response shows of its results. *)
Definition summary (r : response SearchResponse) : option (list (string * string * Q)) :=
  match r with
  | Returned resp => Some (map (fun x => (sr_id x, sr_type x, Qred (score x))) (results resp))
  | JSONResponse _ _ _ => None
  end.




End SearchSpec.

(* ===================================================================== *)
(** * src/mhe/memory/embedding_manager.py and the convenience functions of
      embeddings.py *)
(* ===================================================================== *)

Module EmbeddingManager.
Import Embeddings.

Section Manager.

Variable vector : Type.
Variable embed : string -> option vector.

(** The dictionary [process_batch] returns. *)
Record BatchReport := mkBatchReport {
  success : bool;
  processed : option nat;
  report_target_kind : string;
  report_batch_size : option nat;
  report_message : option string;
  report_error : option pipeline_error
}.

(** [batch_size or self.pipeline.batch_size] *)
Definition effective_batch_size (batch_size_ : option nat) (p : EmbeddingPipeline) : nat :=
  match batch_size_ with
  | Some (S n) => S n
  | _ => batch_size p
  end.

(** A call [stream_unembedded_*(db, batch_size)] with an explicit batch size
    reads the pipeline's model and dimension and that batch size. *)
Definition with_batch_size (p : EmbeddingPipeline) (n : nat) : EmbeddingPipeline :=
  mkEmbeddingPipeline n (max_concurrent p) (self_model p) (self_dim p).

(** The body of [async for batch in stream: ... return {...}]: the first
    batch is embedded and upserted and the function returns; an exhausted
    generator falls through to the final [return]. *)
Definition first_batch
    (stream : EmbeddingPipeline -> Store vector -> nat -> option (list EmbeddingJob))
    (p : EmbeddingPipeline) (target_kind_ : string) (db : Store vector)
    : result pipeline_error (BatchReport * Store vector) :=
  match stream p db 0 with
  | Some batch =>
      results <- generate_embeddings_batch vector embed batch ;;
      '(db', count) <- bulk_upsert_embeddings vector db results ;;
      Ok (mkBatchReport true (Some count) target_kind_ (Some (List.length batch)) None None,
          db')
  | None =>
      Ok (mkBatchReport true (Some 0) target_kind_ None (Some "No items to process") None,
          db)
  end.

(** [EmbeddingManager.process_batch]: any exception becomes a report with
    [success = False]; the failed statement was rolled back. *)
Definition process_batch (p : EmbeddingPipeline) (target_kind_ : string)
    (batch_size_ : option nat) (db : Store vector) : BatchReport * Store vector :=
  let p' := with_batch_size p (effective_batch_size batch_size_ p) in
  let attempt :=
    if target_kind_ =? "message"
    then first_batch (stream_unembedded_messages vector) p' target_kind_ db
    else if target_kind_ =? "memory_card"
    then first_batch (stream_unembedded_memory_cards vector) p' target_kind_ db
    else Ok (mkBatchReport true (Some 0) target_kind_ None
                           (Some "No items to process") None, db) in
  match attempt with
  | Ok (report, db') => (report, db')
  | Err e => (mkBatchReport false None target_kind_ None None (Some e), db)
  end.

(** [embed_content_batch(content_list, target_kind)] of embeddings.py, for
    the pipeline [EmbeddingPipeline()] it builds: job [i] has the id
    [temp_i]. *)
Fixpoint temp_jobs (p : EmbeddingPipeline) (target_kind_ : string) (i : nat)
    (content_list : list string) : list EmbeddingJob :=
  match content_list with
  | [] => []
  | content :: rest =>
      mkEmbeddingJob target_kind_ ("temp_" ++ Py.str_nat i) content
                     (self_model p) (self_dim p)
      :: temp_jobs p target_kind_ (S i) rest
  end.

Definition embed_content_batch (p : EmbeddingPipeline) (content_list : list string)
    (target_kind_ : string) : result pipeline_error (list vector) :=
  results <- generate_embeddings_batch vector embed (temp_jobs p target_kind_ 0 content_list) ;;
  Ok (map (res_vector vector) results).

(** *** get_embedding_stats and run_full_pipeline *)

(** [round(x, 2)] *)
Variable round2 : Q -> Q.

(** One block ([messages] or [memory_cards]) of the dictionary
    [get_embedding_stats] returns; [pending] is a difference of two counts. *)
Record KindStats := mkKindStats {
  total : nat;
  embedded : nat;
  pending : Z;
  completion_percent : Q
}.

Record EmbeddingStats := mkEmbeddingStats {
  messages_block : KindStats;
  memory_cards_block : KindStats;
  models : list (string * nat);
  total_embeddings : nat
}.

(** [select(func.count(Embedding.id)).where(Embedding.target_kind == kind)] *)
Definition count_kind (kind : string) (table : list (Embedding vector)) : nat :=
  List.length (filter (fun e => target_kind e =? kind) table).

(** [select(Embedding.model, func.count(Embedding.id)).group_by(Embedding.model)]
    read into a dictionary; the groups are listed in the order in which
    their model first occurs in the table. *)
Fixpoint count_model (mdl : string) (groups : list (string * nat)) : list (string * nat) :=
  match groups with
  | [] => [(mdl, 1)]
  | (m, n) :: rest =>
      if m =? mdl then (m, S n) :: rest else (m, n) :: count_model mdl rest
  end.

Definition model_stats (table : list (Embedding vector)) : list (string * nat) :=
  fold_left (fun groups e => count_model (model e) groups) table [].

(** [(embedded / total * 100) if total > 0 else 0], rounded. *)
Definition kind_stats (total_ embedded_ : nat) : KindStats :=
  let completion :=
    if (0 <? total_)%nat
    then (inject_Z (Z.of_nat embedded_) / inject_Z (Z.of_nat total_) * 100)%Q
    else 0%Q in
  mkKindStats total_ embedded_ (Z.of_nat total_ - Z.of_nat embedded_)%Z (round2 completion).

Definition get_embedding_stats (db : Store vector) : EmbeddingStats :=
  let total_messages := List.length (messages db) in
  let embedded_messages := count_kind "message" (embeddings db) in
  let total_cards := List.length (memory_cards db) in
  let embedded_cards := count_kind "memory_card" (embeddings db) in
  mkEmbeddingStats (kind_stats total_messages embedded_messages)
                   (kind_stats total_cards embedded_cards)
                   (model_stats (embeddings db))
                   (embedded_messages + embedded_cards).

(** The dictionary [run_full_pipeline] returns, without [duration_seconds]
    and [timestamp] (wall-clock); no [progress_callback] is passed. *)
Record PipelineReport := mkPipelineReport {
  run_success : bool;
  run_processed : Stats;
  initial_stats : EmbeddingStats;
  final_stats : EmbeddingStats
}.

Definition run_full_pipeline (p : EmbeddingPipeline) (db : Store vector)
    : result pipeline_error (PipelineReport * Store vector) :=
  let initial := get_embedding_stats db in
  '(db', processing_stats) <- process_embedding_pipeline vector embed p db ;;
  Ok (mkPipelineReport true processing_stats initial (get_embedding_stats db'), db').

End Manager.

End EmbeddingManager.

(* ===================================================================== *)
(** * Further notions used in statements about the pipeline *)
(* ===================================================================== *)

Module EmbeddingsExtraSpec.
Import Embeddings EmbeddingsSpec.

Section Spec.

Variable vector : Type.
Variable embed : string -> option vector.

(** [r] is the result the pipeline builds for [job]. *)
Definition result_of_job (job : EmbeddingJob) (r : EmbeddingResult vector) : Prop :=
  res_target_kind vector r = job_target_kind job
  /\ res_target_id vector r = job_target_id job
  /\ res_model vector r = job_model job
  /\ res_dim vector r = job_dim job
  /\ embed (job_content job) = Some (res_vector vector r).

(** The messages and memory cards that have no embedding of the pipeline's
    model. *)
Definition pending_messages (p : EmbeddingPipeline) (db : Store vector) : list Message :=
  unembedded "message" message_id (self_model p) (embeddings db) (messages db).

Definition pending_cards (p : EmbeddingPipeline) (db : Store vector) : list MemoryCard :=
  unembedded "memory_card" card_id (self_model p) (embeddings db) (memory_cards db).

End Spec.

(** The identity in place of [round(x, 2)], for the examples. *)
Definition no_rounding (x : Q) : Q := x.

(** A store in which the message [m1] is embedded under two models. *)
Definition two_models_store : Store nat :=
  mkStore [mkMessage "m1" "alpha"] []
          [mkEmbedding "message" "m1" "text-embedding-ada-002" 768 5 0;
           mkEmbedding "message" "m1" "text-embedding-3-small" 768 7 1] 2.

(** A store whose only message has an empty content. *)
Definition blank_message_store : Store nat := mkStore [mkMessage "m1" ""] [] [] 0.

(** A client that fails on the empty text. *)
Definition picky_client (text : string) : option nat :=
  match text with
  | EmptyString => None
  | _ => Some (String.length text)
  end.

(** A store whose only message is embedded, and the store and counters that
    one run over [three_messages] produces. *)
Definition embedded_store : Store nat :=
  mkStore [mkMessage "m1" "alpha"] []
          [mkEmbedding "message" "m1" "text-embedding-ada-002" 768 5 0] 1.

Definition after_one_run : Store nat * Stats :=
  match process_embedding_pipeline nat length_client batches_of_two three_messages with
  | Ok outcome => outcome
  | Err _ => (three_messages, mkStats 0 0 0)
  end.

(** Two results, the first for the key already present in [embedded_store]. *)
Definition two_results : list (EmbeddingResult nat) :=
  [mkEmbeddingResult nat "message" "m1" 9 "text-embedding-ada-002" 1536;
   mkEmbeddingResult nat "message" "m2" 7 "text-embedding-ada-002" 1536].

End EmbeddingsExtraSpec.

(* ===================================================================== *)
(** * Notions used in statements about strings and validation *)
(* ===================================================================== *)

Module ValidationSpec.
Import Py ErrorHandling.

(** The language of a regular expression. *)
Inductive matches : regex -> string -> Prop :=
| matches_eps : matches Eps EmptyString
| matches_chr (p : ascii -> bool) (c : ascii) :
    p c = true -> matches (Chr p) (String c EmptyString)
| matches_cat (r1 r2 : regex) (s1 s2 : string) :
    matches r1 s1 -> matches r2 s2 -> matches (Cat r1 r2) (s1 ++ s2)
| matches_alt_l (r1 r2 : regex) (s : string) :
    matches r1 s -> matches (Alt r1 r2) s
| matches_alt_r (r1 r2 : regex) (s : string) :
    matches r2 s -> matches (Alt r1 r2) s
| matches_star_nil (r : regex) : matches (Star r) EmptyString
| matches_star_cons (r : regex) (s1 s2 : string) :
    matches r s1 -> matches (Star r) s2 -> matches (Star r) (s1 ++ s2).

(** [c in s] for one character. *)
Fixpoint mem_char (c : ascii) (s : string) : bool :=
  match s with
  | EmptyString => false
  | String d s' => Ascii.eqb c d || mem_char c s'
  end.

(** Every character of [s] satisfies [p]. *)
Fixpoint all_chars (p : ascii -> bool) (s : string) : bool :=
  match s with
  | EmptyString => true
  | String c s' => p c && all_chars p s'
  end.

(** [s] has a character that is not whitespace. *)
Fixpoint has_nonspace (s : string) : bool :=
  match s with
  | EmptyString => false
  | String c s' => negb (isspace c) || has_nonspace s'
  end.

(** The literal alternatives of the injection and path-traversal patterns. *)
Definition blocked_words : list string :=
  [ "union"; "select"; "insert"; "delete"; "update"; "drop"; "create"; "alter";
    "exec"; "execute";
    "script"; "javascript"; "vbscript"; "onload"; "onerror"; "onclick" ].

Definition blocked_marks : list string :=
  [ squote; "--"; ";"; "|"; "*";
    "../"; ".." ++ backslash; "%2e%2e%2f"; "%2e%2e%5c" ].

(** The four characters [sanitize_string] replaces by entities. *)
Definition escaped_chars : list ascii :=
  [ "<"%char; ">"%char; dquote_char; squote_char ].

End ValidationSpec.

(* ===================================================================== *)
(** * src/mhe/access/routers/search.py: run_embedding_pipeline *)
(* ===================================================================== *)

Module EmbeddingEndpoints.
Import Embeddings EmbeddingManager ErrorHandling.

Section Endpoint.

Variable vector : Type.
Variable embed : string -> option vector.
Variable round2 : Q -> Q.

(** The [data] of the response: what [process_batch] or
    [run_full_pipeline] returned. *)
Inductive RunData :=
| BatchData (report : BatchReport)
| PipelineData (report : PipelineReport).

(** The validation that precedes the [try] block. *)
Definition validate_run_request (batch_size_ : option Z) (target_kind_ : option string)
    : raising (option Z * option string) :=
  validated_batch_size <-
    match batch_size_ with
    | Some n =>
        v <- validate_integer n "batch_size" (Some 1%Z) (Some 1000%Z) ;;
        Ok (Some v)
    | None => Ok None
    end ;;
  match target_kind_ with
  | Some kind =>
      if negb (kind =? "all") && negb ((kind =? "message") || (kind =? "memory_card"))
      then raise_ValidationError "target_kind"
      else Ok (validated_batch_size, target_kind_)
  | None => Ok (validated_batch_size, target_kind_)
  end.

(** [if validated_target_kind and validated_target_kind != "all"] *)
Definition specific_kind (validated_target_kind : option string) : option string :=
  match validated_target_kind with
  | Some (String c s) => if String c s =? "all" then None else Some (String c s)
  | _ => None
  end.

(** The endpoint under [@handle_api_errors], for the manager's pipeline [p];
    a response carries the store the run left behind. *)
Definition run_embedding_pipeline (p : EmbeddingPipeline) (batch_size_ : option Z)
    (target_kind_ : option string) (db : Store vector)
    : response (RunData * Store vector) :=
  handle_api_errors
    (match validate_run_request batch_size_ target_kind_ with
     | Err e => Err e
     | Ok (validated_batch_size, validated_target_kind) =>
         try_except
           (match specific_kind validated_target_kind with
            | Some kind =>
                let '(report, db') :=
                  process_batch vector embed p kind
                                (option_map Z.to_nat validated_batch_size) db in
                Ok (BatchData report, db')
            | None =>
                match run_full_pipeline vector embed round2 p db with
                | Ok (report, db') => Ok (PipelineData report, db')
                | Err _ => Err (PyException "Exception")
                end
            end)
           (ExternalServiceError "embedding_service")
     end).

End Endpoint.

End EmbeddingEndpoints.

(* ===================================================================== *)
(** * src/mhe/llm/clients.py: the generative clients *)
(* ===================================================================== *)

Module Clients.
Import Py.

(** The attributes of [settings] (from [mhe.common.config], not part of the
    sources of this revision) that the generative clients read. *)
Record Settings := mkSettings {
  llm_provider : option string;
  llm_model : string;
  openai_api_key : option string
}.

(** Truth value of an optional string: [None] and the empty string are
    falsy. *)
Definition truthy (x : option string) : bool :=
  match x with
  | Some (String _ _) => true
  | _ => false
  end.

(** [x or default] *)
Definition str_or (x : option string) (default : string) : string :=
  match x with
  | Some s => if truthy x then s else default
  | None => default
  end.

Definition newline_char : ascii := ascii_of_nat 10.

(** [MockGenerativeClient.summarize] *)
Definition mock_summarize (prompt : string) : string :=
  let snippet := replace newline_char " " (slice_to 200 prompt) in
  "(mock) Summary: " ++ snippet ++ "...".

Inductive GenerativeClient :=
| MockGenerativeClient
| OpenAIGenerativeClient (model : string) (api_key : option string).

(** [client.summarize(prompt)]; the OpenAI stub calls the mock on both
    branches. *)
Definition summarize (client : GenerativeClient) (prompt : string) : string :=
  match client with
  | MockGenerativeClient => mock_summarize prompt
  | OpenAIGenerativeClient _ api_key =>
      if negb (truthy api_key) then mock_summarize prompt
      else mock_summarize prompt
  end.

Definition get_generative_client (settings : Settings) : GenerativeClient :=
  let provider := lower (str_or (llm_provider settings) "mock") in
  if provider =? "openai"
  then OpenAIGenerativeClient (llm_model settings) (openai_api_key settings)
  else MockGenerativeClient.

End Clients.

(* ===================================================================== *)
(** * src/mhe/access/routers/search.py: get_search_suggestions *)
(* ===================================================================== *)

Module Suggestions.
Import Py ErrorHandling Search.

(** The dictionary the endpoint returns. *)
Record Suggestions := mkSuggestions {
  suggested_threads : list string;
  suggested_concepts : list string;
  suggested_assistants : list string
}.

Section Endpoint.

Variable env : Env.

(** The order in which [set(all_concepts)] is iterated. *)
Variable set_iteration : list string -> list string.

(** The body of the [try] block, on a database that answers. *)
Definition get_search_suggestions_try (db : Database) (validated_query : string)
    (validated_limit : Z) : Suggestions :=
  let thread_suggestions :=
    Z_limit (validated_limit / 3)
      (filter (fun t => sql_contains env (lower (thread_title t)) (lower validated_query))
              (threads db)) in
  let assistant_suggestions :=
    Z_limit (validated_limit / 3)
      (filter (fun a => sql_contains env (lower (assistant_name a)) (lower validated_query))
              (assistants db)) in
  let concept_suggestions := Z_limit 100 (memory_cards db) in
  let all_concepts := flat_map key_concepts concept_suggestions in
  let matching_concepts :=
    filter (fun c => contains (lower validated_query) (lower c))
           (set_iteration all_concepts) in
  mkSuggestions (map thread_title thread_suggestions)
                (Z_limit (validated_limit / 3) matching_concepts)
                (map assistant_name assistant_suggestions).

Definition get_search_suggestions_body (q : string) (limit : Z) (session : Session)
    : raising Suggestions * Session :=
  match
    (validated_query <- validate_string q "query" 1 (Some 100) false None true ;;
     validated_limit <- validate_integer limit "limit" (Some 1%Z) (Some 50%Z) ;;
     Ok (validated_query, validated_limit))
  with
  | Err e => (Err e, session)
  | Ok (validated_query, validated_limit) =>
      let '(fault, session') := next_fault session in
      (try_except
         (if fault then Err (SQLAlchemyError "OperationalError")
          else Ok (get_search_suggestions_try (database session) validated_query
                                              validated_limit))
         (DatabaseError (Some "search_suggestions")),
       session')
  end.

(** The endpoint under [@handle_api_errors]; the [Query(ge=1, le=20)]
    constraint on [limit] is checked by the router first (422). *)
Definition get_search_suggestions (q : string) (limit : Z) (session : Session)
    : routed Suggestions * Session :=
  if Z_between 1 20 limit
  then let '(r, session') := get_search_suggestions_body q limit session in
       (Handled (handle_api_errors r), session')
  else (Unprocessable422, session).

End Endpoint.

End Suggestions.

(* ===================================================================== *)
(** * Notions used in the further statements about the search endpoints *)
(* ===================================================================== *)

Module SearchExtraSpec.
Import ErrorHandling Search.

(** Scores never increase along the list. *)
Fixpoint descending (l : list SearchResult) : Prop :=
  match l with
  | [] => True
  | x :: l' => Forall (fun y => (score y <= score x)%Q) l' /\ descending l'
  end.


(** What a decorated endpoint may hand back: a value, a 400 that names a
    field, or the one error its [except] clause raises. *)
Definition answers_or_fails {A : Type} (r : response A) (status : nat) (code : string)
    : Prop :=
  match r with
  | Returned _ => True
  | JSONResponse st c f =>
      (st = 400%nat /\ c = "VALIDATION_ERROR" /\ exists field, f = Some field)
      \/ (st = status /\ c = code /\ f = None)
  end.

(** [env0] with the generative client of [llm/clients.py] under default
    settings, and a question of 83 characters. *)
Definition default_settings : Clients.Settings := Clients.mkSettings None "" None.

Definition env_mock : Env :=
  mkEnv (sql_contains SearchSpec.env0)
        (options_accept_none SearchSpec.env0) (str_datetime SearchSpec.env0)
        (fun prompt =>
           Some (Clients.summarize (Clients.get_generative_client default_settings) prompt)).

Definition long_question : RAGQuery :=
  mkRAGQuery (SearchSpec.python6 ++ " " ++ SearchSpec.python6) 500 10 None false (7 # 10).

(** An iteration order for [set(all_concepts)], for the examples: the
    list without its duplicates. *)
Definition first_occurrences (l : list string) : list string := nodup string_dec l.

End SearchExtraSpec.

(* ===================================================================== *)
(** * Properties of the embedding pipeline *)
(* ===================================================================== *)

Module EmbeddingsFacts.
Import Embeddings EmbeddingsSpec.

Lemma key_eqb_eq (a b : key) : key_eqb a b = true <-> a = b.
Proof.
  destruct a as [[k1 i1] m1], b as [[k2 i2] m2]. unfold key_eqb.
  rewrite !andb_true_iff, !String.eqb_eq. split.
  - intros [[-> ->] ->]. reflexivity.
  - intros H. inversion H. auto.
Qed.

Lemma key_eqb_refl (a : key) : key_eqb a a = true.
Proof. apply key_eqb_eq. reflexivity. Qed.

Lemma NoDup_map_filter {A B : Type} (f : A -> B) (g : A -> bool) (l : list A) :
  NoDup (map f l) -> NoDup (map f (filter g l)).
Proof.
  induction l as [|a l IH]; simpl; intros H; [constructor|].
  inversion H as [|? ? Hin Hnd]; subst.
  destruct (g a); simpl; [constructor|]; auto.
  intros Hc. apply Hin. apply in_map_iff in Hc. destruct Hc as [x [Hx Hf]].
  apply filter_In in Hf. apply in_map_iff. exists x. tauto.
Qed.

Lemma NoDup_map_limit_offset {A B : Type} (f : A -> B) (lim off : nat) (l : list A) :
  NoDup (map f l) -> NoDup (map f (limit_offset lim off l)).
Proof.
  intros H. unfold limit_offset.
  rewrite <- firstn_map, <- skipn_map.
  rewrite <- (firstn_skipn off (map f l)) in H. apply NoDup_app_remove_l in H.
  rewrite <- (firstn_skipn lim (skipn off (map f l))) in H.
  apply NoDup_app_remove_r in H. exact H.
Qed.

Lemma limit_offset_incl {A : Type} (lim off : nat) (l : list A) :
  incl (limit_offset lim off l) l.
Proof.
  intros x Hx. unfold limit_offset in Hx.
  rewrite <- (firstn_skipn off l). apply in_or_app. right.
  rewrite <- (firstn_skipn lim (skipn off l)). apply in_or_app. left. exact Hx.
Qed.

Lemma limit_offset_nonempty {A : Type} (lim off : nat) (l : list A) :
  limit_offset lim off l <> [] -> 0 < lim /\ off < List.length l.
Proof.
  unfold limit_offset. intros H. split.
  - destruct lim; [simpl in H; congruence | lia].
  - destruct (Nat.lt_ge_cases off (List.length l)) as [Hlt | Hge]; [exact Hlt|].
    rewrite (skipn_all2 l Hge) in H. rewrite firstn_nil in H. congruence.
Qed.

Section Pipeline.

Variable vector : Type.
Variable embed : string -> option vector.
Hypothesis embed_total : forall text, embed text <> None.

Lemma existsb_key_false (k : key) (table : list (Embedding vector)) :
  existsb (fun e => key_eqb k (key_of e)) table = false <->
  ~ In k (map key_of table).
Proof.
  induction table as [|e t IH]; simpl.
  - split; auto.
  - rewrite orb_false_iff, IH. split.
    + intros [H1 H2] [H | H]; [|auto].
      rewrite <- H, key_eqb_refl in H1. discriminate.
    + intros H. split.
      * destruct (key_eqb k (key_of e)) eqn:E; [|reflexivity].
        apply key_eqb_eq in E. exfalso. apply H. left. auto.
      * intros H'. apply H. right. exact H'.
Qed.

Lemma existsb_seen_false (k : key) (seen : list key) :
  existsb (key_eqb k) seen = false <-> ~ In k seen.
Proof.
  induction seen as [|x t IH]; simpl.
  - split; auto.
  - rewrite orb_false_iff, IH. split.
    + intros [H1 H2] [H | H]; [|auto].
      rewrite H, key_eqb_refl in H1. discriminate.
    + intros H. split.
      * destruct (key_eqb k x) eqn:E; [|reflexivity].
        apply key_eqb_eq in E. exfalso. apply H. left. auto.
      * intros H'. apply H. right. exact H'.
Qed.

Lemma has_embedding_false (kind id mdl : string) (table : list (Embedding vector)) :
  has_embedding kind id mdl table = false <->
  ~ In (kind, id, mdl) (map key_of table).
Proof.
  rewrite <- existsb_key_false. unfold has_embedding.
  assert (E : forall e : Embedding vector,
             embedding_matches vector kind id mdl e = key_eqb (kind, id, mdl) (key_of e)).
  { intros e. unfold embedding_matches, key_eqb, key_of.
    rewrite (String.eqb_sym (target_kind e)), (String.eqb_sym (target_id e)),
            (String.eqb_sym (model e)). reflexivity. }
  induction table as [|e t IH]; simpl; [tauto|].
  rewrite E, !orb_false_iff, IH. tauto.
Qed.

(** Rows with fresh, pairwise distinct keys are appended. *)
Lemma upsert_rows_fresh (rows : list (Embedding vector)) :
  forall (seen : list key) (table : list (Embedding vector)),
    NoDup (map key_of rows) ->
    (forall k, In k (map key_of rows) -> ~ In k seen) ->
    (forall k, In k (map key_of rows) -> ~ In k (map key_of table)) ->
    upsert_rows vector seen table rows = Some (table ++ rows)%list.
Proof.
  induction rows as [|r rows IH]; intros seen table Hnd Hseen Htab; simpl.
  - rewrite app_nil_r. reflexivity.
  - simpl in Hnd. inversion Hnd as [|? ? Hr Hnd']; subst.
    assert (E1 : existsb (key_eqb (key_of r)) seen = false).
    { apply existsb_seen_false. apply Hseen. left. reflexivity. }
    rewrite E1. unfold upsert_row.
    assert (E2 : existsb (fun e => key_eqb (key_of r) (key_of e)) table = false).
    { apply existsb_key_false. apply Htab. left. reflexivity. }
    rewrite E2. rewrite IH.
    + rewrite <- app_assoc. reflexivity.
    + exact Hnd'.
    + intros k Hk [H | H].
      * subst k. contradiction.
      * apply (Hseen k); [right; exact Hk | exact H].
    + intros k Hk. rewrite map_app, in_app_iff. intros [H | H].
      * apply (Htab k); [right; exact Hk | exact H].
      * simpl in H. destruct H as [H | []]. subst k. contradiction.
Qed.

Lemma embed_texts_total (texts : list string) :
  exists vectors,
    embed_texts vector embed texts = Ok vectors
    /\ Forall2 (fun text v => embed text = Some v) texts vectors.
Proof.
  induction texts as [|t ts [vs [E F]]]; simpl.
  - exists []. split; [reflexivity | constructor].
  - destruct (embed t) as [v|] eqn:Et; [|exfalso; exact (embed_total t Et)].
    exists (v :: vs). rewrite E. simpl. split; [reflexivity|].
    constructor; assumption.
Qed.

(** What [generate_embeddings_batch] followed by [embedding_data] yields. *)
Lemma embedding_data_of_jobs (jobs : list EmbeddingJob) :
  forall (vectors : list vector) (now : nat),
    Forall2 (fun text v => embed text = Some v) (map job_content jobs) vectors ->
    let rows := embedding_data vector now
                  (map (make_result vector) (combine jobs vectors)) in
    map key_of rows = map job_key jobs
    /\ List.length rows = List.length jobs
    /\ Forall (fun e => exists job, In job jobs /\ made_from vector embed job e) rows.
Proof.
  induction jobs as [|j jobs IH]; intros vectors now F; simpl in *.
  - repeat split; constructor.
  - inversion F as [|? v ? vs Hv F']; subst. simpl.
    destruct (IH vs (S now) F') as [K [L P]].
    repeat split.
    + f_equal. exact K.
    + f_equal. exact L.
    + constructor.
      * exists j. split; [left; reflexivity|]. split; [reflexivity | exact Hv].
      * eapply Forall_impl; [|exact P].
        intros e [job [Hin Hm]]. exists job. split; [right; exact Hin | exact Hm].
Qed.

Lemma generate_embeddings_batch_total (jobs : list EmbeddingJob) :
  exists vectors,
    generate_embeddings_batch vector embed jobs
      = Ok (map (make_result vector) (combine jobs vectors))
    /\ Forall2 (fun text v => embed text = Some v) (map job_content jobs) vectors.
Proof.
  destruct jobs as [|j jobs].
  - exists []. split; [reflexivity | constructor].
  - destruct (embed_texts_total (map job_content (j :: jobs))) as [vs [E F]].
    exists vs. unfold generate_embeddings_batch. rewrite E. split; [reflexivity | exact F].
Qed.

Lemma bulk_upsert_fresh (db : Store vector) (results : list (EmbeddingResult vector)) :
  let rows := embedding_data vector (clock db) results in
  NoDup (map key_of rows) ->
  (forall k, In k (map key_of rows) -> ~ In k (map key_of (embeddings db))) ->
  bulk_upsert_embeddings vector db results
    = Ok (mkStore (messages db) (memory_cards db) (embeddings db ++ rows)%list
                  (clock db + List.length results),
          List.length results).
Proof.
  intros rows Hnd Hfresh. unfold bulk_upsert_embeddings.
  destruct results as [|r results].
  - simpl. rewrite app_nil_r, Nat.add_0_r. destruct db; reflexivity.
  - fold rows. rewrite (upsert_rows_fresh rows [] (embeddings db) Hnd); auto.
Qed.

Section Stream.

Variable T : Type.
Variable kind : string.
Variable id_of : T -> string.
Variable job_of : EmbeddingPipeline -> T -> EmbeddingJob.
Variable rows_of : Store vector -> list T.

Hypothesis job_key_of :
  forall p r, job_key (job_of p r) = (kind, id_of r, self_model p).
Hypothesis rows_of_frame :
  forall db table c,
    rows_of (mkStore (messages db) (memory_cards db) table c) = rows_of db.

Lemma pulled_keys (p : EmbeddingPipeline) (db : Store vector) (offset : nat) :
  NoDup (map id_of (rows_of db)) ->
  let pulled := limit_offset (batch_size p) offset
                  (unembedded kind id_of (self_model p) (embeddings db) (rows_of db)) in
  let keys := map job_key (map (job_of p) pulled) in
  NoDup keys
  /\ (forall k, In k keys -> ~ In k (map key_of (embeddings db)))
  /\ incl pulled (rows_of db).
Proof.
  intros Hnd pulled keys.
  assert (Hk : keys = map (fun r => (kind, id_of r, self_model p)) pulled).
  { unfold keys. rewrite map_map. apply map_ext. intros r. apply job_key_of. }
  assert (Hincl : incl pulled (unembedded kind id_of (self_model p) (embeddings db) (rows_of db))).
  { apply limit_offset_incl. }
  repeat split.
  - rewrite Hk.
    assert (Hids : NoDup (map id_of pulled)).
    { apply NoDup_map_limit_offset. apply NoDup_map_filter. exact Hnd. }
    clear - Hids. induction pulled as [|r l IH]; simpl; [constructor|].
    inversion Hids as [|? ? Hin Hnd']; subst. constructor; [|auto].
    intros Hc. apply Hin. apply in_map_iff in Hc. destruct Hc as [x [Hx Hl]].
    inversion Hx. apply in_map_iff. exists x. split; [congruence | exact Hl].
  - intros k Hin. rewrite Hk in Hin. apply in_map_iff in Hin.
    destruct Hin as [r [<- Hr]]. apply Hincl in Hr. unfold unembedded in Hr.
    apply filter_In in Hr. destruct Hr as [_ Hr]. apply negb_true_iff in Hr.
    apply has_embedding_false. exact Hr.
  - intros r Hr. apply Hincl in Hr. unfold unembedded in Hr.
    apply filter_In in Hr. tauto.
Qed.

Lemma process_stream_step
    (stream : EmbeddingPipeline -> Store vector -> nat -> option (list EmbeddingJob))
    (fuel : nat) (p : EmbeddingPipeline) (db : Store vector) (offset count : nat) :
  process_stream vector embed stream (S fuel) p db offset count =
  match stream p db offset with
  | None => Ok (db, count)
  | Some batch =>
      results <- generate_embeddings_batch vector embed batch ;;
      '(db', n) <- bulk_upsert_embeddings vector db results ;;
      process_stream vector embed stream fuel p db' (offset + batch_size p) (count + n)
  end.
Proof. reflexivity. Qed.

Lemma process_stream_rows (p : EmbeddingPipeline) :
  forall (fuel : nat) (db : Store vector) (offset count : nat),
    NoDup (map id_of (rows_of db)) ->
    NoDup (map key_of (embeddings db)) ->
    List.length (rows_of db) - offset < fuel ->
    exists new count',
      process_stream vector embed (stream_rows vector kind id_of job_of rows_of)
                     fuel p db offset count
        = Ok (mkStore (messages db) (memory_cards db) (embeddings db ++ new)%list
                      (clock db + List.length new), count')
      /\ NoDup (map key_of (embeddings db ++ new)%list)
      /\ Forall (fun e => exists r, In r (rows_of db)
                                     /\ made_from vector embed (job_of p r) e) new.
Proof.
  induction fuel as [|fuel IH]; intros db offset count Hids Hkeys Hfuel; [lia|].
  rewrite process_stream_step.
  destruct (pulled_keys p db offset Hids) as [Hnd [Hfresh Hincl]].
  set (pulled := limit_offset (batch_size p) offset
                   (unembedded kind id_of (self_model p) (embeddings db) (rows_of db))) in *.
  assert (Es : stream_rows vector kind id_of job_of rows_of p db offset
               = match pulled with
                 | [] => None
                 | _ :: _ => Some (map (job_of p) pulled)
                 end).
  { unfold stream_rows. fold pulled. destruct pulled; reflexivity. }
  rewrite Es. clear Es.
  destruct pulled as [|r0 pulled'] eqn:Epulled.
  - exists [], count. rewrite app_nil_r, Nat.add_0_r. split; [destruct db; reflexivity|].
    split; [exact Hkeys | constructor].
  - rewrite <- Epulled in *.
    assert (Hne : pulled <> []) by (rewrite Epulled; discriminate).
    destruct (limit_offset_nonempty _ _ _ Hne) as [Hbs Hoff].
    destruct (generate_embeddings_batch_total (map (job_of p) pulled)) as [vs [Eg F]].
    rewrite Eg. cbn [bind].
    destruct (embedding_data_of_jobs (map (job_of p) pulled) vs (clock db) F) as [K [L P]].
    set (results := map (make_result vector) (combine (map (job_of p) pulled) vs)) in *.
    set (rows := embedding_data vector (clock db) results) in *.
    assert (Lr : List.length results = List.length rows).
    { unfold rows. clear. generalize (clock db). induction results; intros n; simpl; auto. }
    rewrite (bulk_upsert_fresh db results).
    + cbn [bind]. fold rows.
      set (db' := mkStore (messages db) (memory_cards db) (embeddings db ++ rows)%list
                          (clock db + List.length results)).
      assert (Hk' : NoDup (map key_of (embeddings db'))).
      { unfold db'. cbn [embeddings]. rewrite map_app. apply NoDup_app; auto.
        - rewrite K. exact Hnd.
        - intros k Hk Hk2. rewrite K in Hk2. exact (Hfresh k Hk2 Hk). }
      destruct (IH db' (offset + batch_size p) (count + List.length results))
        as [new [count' [E [N Fa]]]].
      * unfold db'. rewrite rows_of_frame. exact Hids.
      * exact Hk'.
      * unfold db'. rewrite rows_of_frame.
        assert (List.length (unembedded kind id_of (self_model p) (embeddings db) (rows_of db))
                <= List.length (rows_of db)) by apply filter_length_le.
        lia.
      * exists (rows ++ new)%list, count'. rewrite E. unfold db'.
        cbn [messages memory_cards embeddings clock].
        rewrite <- app_assoc, length_app, Lr, Nat.add_assoc.
        split; [reflexivity|]. split.
        -- unfold db' in N. cbn [embeddings] in N. rewrite <- app_assoc in N. exact N.
        -- apply Forall_app. split.
           ++ eapply Forall_impl; [|exact P]. intros e [job [Hin Hm]].
              apply in_map_iff in Hin. destruct Hin as [r [<- Hr]].
              exists r. split; [apply Hincl; exact Hr | exact Hm].
           ++ eapply Forall_impl; [|exact Fa]. intros e [r [Hr Hm]].
              exists r. split; [|exact Hm]. unfold db' in Hr.
              rewrite rows_of_frame in Hr. exact Hr.
    + fold rows. rewrite K. exact Hnd.
    + fold rows. rewrite K. exact Hfresh.
Qed.

Lemma has_embedding_app (k i m : string) (t1 t2 : list (Embedding vector)) :
  has_embedding k i m (t1 ++ t2)%list = has_embedding k i m t1 || has_embedding k i m t2.
Proof. unfold has_embedding. apply existsb_app. Qed.

Lemma has_embedding_true (k i m : string) (table : list (Embedding vector)) :
  In (k, i, m) (map key_of table) -> has_embedding k i m table = true.
Proof.
  intros H. destruct (has_embedding k i m table) eqn:E; [reflexivity|].
  apply has_embedding_false in E. contradiction.
Qed.

(** When the rows still to embed fit in one batch, the loop embeds them all:
    the first pull takes every one of them and the second finds none. *)
Lemma process_stream_single_batch (p : EmbeddingPipeline) (fuel : nat)
    (db : Store vector) (count : nat) :
  NoDup (map id_of (rows_of db)) ->
  NoDup (map key_of (embeddings db)) ->
  List.length (unembedded kind id_of (self_model p) (embeddings db) (rows_of db))
    <= batch_size p ->
  exists db' count',
    process_stream vector embed (stream_rows vector kind id_of job_of rows_of)
                   (S (S fuel)) p db 0 count
      = Ok (db', count')
    /\ rows_of db' = rows_of db
    /\ unembedded kind id_of (self_model p) (embeddings db') (rows_of db') = [].
Proof.
  intros Hids Hkeys Hfit.
  rewrite process_stream_step.
  destruct (pulled_keys p db 0 Hids) as [Hnd [Hfresh Hincl]].
  set (U := unembedded kind id_of (self_model p) (embeddings db) (rows_of db)) in *.
  assert (Hall : limit_offset (batch_size p) 0 U = U).
  { unfold limit_offset. cbn [skipn]. apply firstn_all2. exact Hfit. }
  rewrite Hall in *.
  assert (Es : stream_rows vector kind id_of job_of rows_of p db 0
               = match U with
                 | [] => None
                 | _ :: _ => Some (map (job_of p) U)
                 end).
  { unfold stream_rows. fold U. rewrite Hall. destruct U; reflexivity. }
  rewrite Es. clear Es.
  destruct U as [|r0 U'] eqn:EU.
  - exists db, count. split; [reflexivity|]. split; [reflexivity | exact EU].
  - rewrite <- EU in *.
    destruct (generate_embeddings_batch_total (map (job_of p) U)) as [vs [Eg F]].
    rewrite Eg. cbn [bind].
    destruct (embedding_data_of_jobs (map (job_of p) U) vs (clock db) F) as [K [L P]].
    set (results := map (make_result vector) (combine (map (job_of p) U) vs)) in *.
    set (rows := embedding_data vector (clock db) results) in *.
    rewrite (bulk_upsert_fresh db results);
      [|fold rows; rewrite K; exact Hnd | fold rows; rewrite K; exact Hfresh].
    cbn [bind]. fold rows.
    set (db' := mkStore (messages db) (memory_cards db) (embeddings db ++ rows)%list
                        (clock db + List.length results)).
    assert (Hdone : unembedded kind id_of (self_model p) (embeddings db') (rows_of db') = []).
    { unfold db'. rewrite rows_of_frame. cbn [embeddings]. unfold unembedded.
      assert (Hfilter : forall l : list T,
                incl l (rows_of db) ->
                filter (fun r => negb (has_embedding kind (id_of r) (self_model p)
                                          (embeddings db ++ rows)%list)) l = []).
      { induction l as [|r l IHl]; intros Hl; [reflexivity|]. cbn [filter].
        rewrite has_embedding_app.
        destruct (has_embedding kind (id_of r) (self_model p) (embeddings db)) eqn:E.
        - cbn [orb negb]. apply IHl. intros x Hx. apply Hl. right. exact Hx.
        - rewrite has_embedding_true.
          + cbn [orb negb]. apply IHl. intros x Hx. apply Hl. right. exact Hx.
          + rewrite K, map_map. apply in_map_iff. exists r. split; [apply job_key_of|].
            fold U. unfold U, unembedded. apply filter_In. split.
            * apply Hl. left. reflexivity.
            * rewrite E. reflexivity. }
      apply Hfilter. apply incl_refl. }
    rewrite process_stream_step.
    assert (Es : stream_rows vector kind id_of job_of rows_of p db' (0 + batch_size p) = None).
    { unfold stream_rows. rewrite Hdone. unfold limit_offset.
      rewrite skipn_nil, firstn_nil. reflexivity. }
    rewrite Es. eexists. eexists. split; [reflexivity|]. split; [|exact Hdone].
    unfold db'. apply rows_of_frame.
Qed.

End Stream.

Lemma records_for_absent (table : list (Embedding vector)) (k : key) :
  ~ In k (map key_of table) -> records_for vector k table = [].
Proof.
  unfold records_for. induction table as [|z t IH]; intros Hk; [reflexivity|].
  cbn [filter]. destruct (key_eqb k (key_of z)) eqn:E.
  - apply key_eqb_eq in E. exfalso. apply Hk. left. auto.
  - apply IH. intros H. apply Hk. right. exact H.
Qed.

Lemma records_for_unique (table : list (Embedding vector)) (e : Embedding vector) :
  NoDup (map key_of table) -> In e table ->
  records_for vector (key_of e) table = [e].
Proof.
  induction table as [|x t IH]; intros Hnd Hin; [destruct Hin|].
  cbn [map] in Hnd. inversion Hnd as [|? ? Hx Hnd']; subst.
  unfold records_for. cbn [filter]. fold (records_for vector (key_of e) t).
  destruct Hin as [-> | Hin].
  - rewrite key_eqb_refl. rewrite records_for_absent; auto.
  - destruct (key_eqb (key_of e) (key_of x)) eqn:E.
    + apply key_eqb_eq in E. exfalso. apply Hx. rewrite <- E. apply in_map. exact Hin.
    + apply IH; assumption.
Qed.

(** One run of the pipeline: the content tables are untouched, the embedding
    table grows by appended records, conflict keys stay unique. *)
Lemma process_embedding_pipeline_run (p : EmbeddingPipeline) (db : Store vector) :
  NoDup (map message_id (messages db)) ->
  NoDup (map card_id (memory_cards db)) ->
  NoDup (map key_of (embeddings db)) ->
  exists new stats,
    process_embedding_pipeline vector embed p db
      = Ok (mkStore (messages db) (memory_cards db) (embeddings db ++ new)%list
                    (clock db + List.length new), stats)
    /\ NoDup (map key_of (embeddings db ++ new)%list)
    /\ Forall (fun e => exists job, In job (jobs_of vector p db)
                                     /\ made_from vector embed job e) new.
Proof.
  intros Hm Hc Hk. unfold process_embedding_pipeline.
  change (stream_unembedded_messages vector)
    with (stream_rows vector "message" message_id message_job (@messages vector)).
  change (stream_unembedded_memory_cards vector)
    with (stream_rows vector "memory_card" card_id card_job (@memory_cards vector)).
  destruct (process_stream_rows Message "message" message_id message_job (@messages vector)
              (fun _ _ => eq_refl) (fun _ _ _ => eq_refl) p
              (S (List.length (messages db))) db 0 0 Hm Hk)
    as [new1 [n1 [E1 [K1 F1]]]]; [lia|].
  rewrite E1. cbn [bind messages memory_cards].
  set (db1 := mkStore (messages db) (memory_cards db) (embeddings db ++ new1)%list
                      (clock db + List.length new1)) in *.
  destruct (process_stream_rows MemoryCard "memory_card" card_id card_job (@memory_cards vector)
              (fun _ _ => eq_refl) (fun _ _ _ => eq_refl) p
              (S (List.length (memory_cards db))) db1 0 0 Hc K1)
    as [new2 [n2 [E2 [K2 F2]]]]; [unfold db1; cbn [memory_cards]; lia|].
  rewrite E2. cbn [bind]. unfold db1 in *. cbn [messages memory_cards embeddings clock] in *.
  exists (new1 ++ new2)%list, (mkStats n1 n2 0).
  rewrite <- app_assoc in K2. rewrite <- app_assoc, length_app, Nat.add_assoc.
  split; [reflexivity|]. split; [exact K2|].
  apply Forall_app. split; (eapply Forall_impl; [|eassumption]);
    intros e [r [Hr Hmade]]; eexists; (split; [|exact Hmade]);
    unfold jobs_of; apply in_or_app; [left | right]; apply in_map; exact Hr.
Qed.

(** The message phase of [process_embedding_pipeline] leaves no message
    unembedded when the unembedded messages fit in one batch. *)
Lemma message_phase_complete_within_one_batch (p : EmbeddingPipeline) (db : Store vector) :
  NoDup (map message_id (messages db)) ->
  NoDup (map key_of (embeddings db)) ->
  List.length (unembedded "message" message_id (self_model p) (embeddings db) (messages db))
    <= batch_size p ->
  exists db1 n,
    process_stream vector embed (stream_unembedded_messages vector)
                   (S (List.length (messages db))) p db 0 0
      = Ok (db1, n)
    /\ messages db1 = messages db
    /\ unembedded "message" message_id (self_model p) (embeddings db1) (messages db1) = [].
Proof.
  intros Hids Hkeys Hfit.
  change (stream_unembedded_messages vector)
    with (stream_rows vector "message" message_id message_job (@messages vector)).
  destruct (messages db) as [|m ms] eqn:Em.
  - exists db, 0. rewrite process_stream_step. unfold stream_rows. rewrite Em.
    unfold limit_offset. cbn [unembedded filter skipn]. rewrite firstn_nil.
    split; [reflexivity|]. split; reflexivity.
  - rewrite <- Em in *. replace (List.length (messages db)) with (S (List.length ms))
      by (rewrite Em; reflexivity).
    apply (process_stream_single_batch Message "message" message_id message_job
             (@messages vector) (fun _ _ => eq_refl) (fun _ _ _ => eq_refl)
             p (List.length ms) db 0 Hids Hkeys Hfit).
Qed.

(** *** The conflict branch: upserting over existing keys *)

Lemma key_of_on_conflict_update (excluded e : Embedding vector) :
  key_of (on_conflict_update vector excluded e) = key_of e.
Proof.
  unfold on_conflict_update. destruct (key_eqb (key_of excluded) (key_of e)); reflexivity.
Qed.

Lemma upsert_row_keys (row : Embedding vector) (table : list (Embedding vector)) :
  map key_of (upsert_row vector row table)
  = if existsb (fun e => key_eqb (key_of row) (key_of e)) table
    then map key_of table
    else (map key_of table ++ [key_of row])%list.
Proof.
  unfold upsert_row.
  destruct (existsb (fun e => key_eqb (key_of row) (key_of e)) table).
  - rewrite map_map. apply map_ext. intros e. apply key_of_on_conflict_update.
  - rewrite map_app. reflexivity.
Qed.

Lemma upsert_row_NoDup (row : Embedding vector) (table : list (Embedding vector)) :
  NoDup (map key_of table) -> NoDup (map key_of (upsert_row vector row table)).
Proof.
  intros H. rewrite upsert_row_keys.
  destruct (existsb (fun e => key_eqb (key_of row) (key_of e)) table) eqn:E; [exact H|].
  apply existsb_key_false in E. apply NoDup_app; [exact H | repeat constructor; auto |].
  intros k Hk [<- | []]. contradiction.
Qed.

Lemma upsert_row_In (row : Embedding vector) (table : list (Embedding vector))
    (e' : Embedding vector) :
  In e' (upsert_row vector row table) ->
  (In e' table /\ key_of e' <> key_of row)
  \/ (key_of e' = key_of row /\ vector_ e' = vector_ row
      /\ created_at e' = created_at row).
Proof.
  unfold upsert_row.
  destruct (existsb (fun e => key_eqb (key_of row) (key_of e)) table) eqn:E.
  - intros H. apply in_map_iff in H. destruct H as [e [<- He]].
    unfold on_conflict_update. destruct (key_eqb (key_of row) (key_of e)) eqn:K.
    + right. apply key_eqb_eq in K. repeat split. symmetry. exact K.
    + left. split; [exact He|]. intros Hk. rewrite Hk, key_eqb_refl in K. discriminate.
  - intros H. apply in_app_or in H. destruct H as [H | [<- | []]].
    + left. split; [exact H|]. apply existsb_key_false in E.
      intros Hk. apply E. rewrite <- Hk. apply in_map. exact H.
    + right. repeat split.
Qed.

Lemma upsert_row_has_key (row : Embedding vector) (table : list (Embedding vector))
    (k : key) :
  k = key_of row \/ In k (map key_of table) ->
  In k (map key_of (upsert_row vector row table)).
Proof.
  rewrite upsert_row_keys.
  destruct (existsb (fun e => key_eqb (key_of row) (key_of e)) table) eqn:E.
  - intros [-> | H]; [|exact H].
    apply existsb_exists in E. destruct E as [e [He K]].
    apply key_eqb_eq in K. rewrite K. apply in_map. exact He.
  - intros [-> | H]; apply in_or_app; [right; left; reflexivity | left; exact H].
Qed.

(** One statement with pairwise distinct proposed keys succeeds; every record
    of the new table is an untouched old record or carries the vector of the
    proposed row with its key; every proposed key is present. *)
Lemma upsert_rows_spec (rows : list (Embedding vector)) :
  forall (seen : list key) (table : list (Embedding vector)),
    NoDup (map key_of rows) ->
    (forall k, In k (map key_of rows) -> ~ In k seen) ->
    NoDup (map key_of table) ->
    exists table',
      upsert_rows vector seen table rows = Some table'
      /\ NoDup (map key_of table')
      /\ (forall e', In e' table' ->
            (In e' table /\ ~ In (key_of e') (map key_of rows))
            \/ exists r, In r rows /\ key_of e' = key_of r /\ vector_ e' = vector_ r
                         /\ created_at e' = created_at r)
      /\ (forall k, In k (map key_of rows) \/ In k (map key_of table) ->
            In k (map key_of table')).
Proof.
  induction rows as [|r rows IH]; intros seen table Hnd Hseen Htab; cbn [upsert_rows].
  - exists table. split; [reflexivity|]. split; [exact Htab|]. split.
    + intros e' He. left. split; [exact He | intros []].
    + intros k [[] | H]. exact H.
  - cbn [map] in Hnd. inversion Hnd as [|? ? Hr Hnd']; subst.
    assert (E1 : existsb (key_eqb (key_of r)) seen = false).
    { apply existsb_seen_false. apply Hseen. left. reflexivity. }
    rewrite E1.
    destruct (IH (key_of r :: seen) (upsert_row vector r table) Hnd')
      as [table' [E [N [P K]]]].
    + intros k Hk [H | H]; [subst k; contradiction|].
      apply (Hseen k); [right; exact Hk | exact H].
    + apply upsert_row_NoDup. exact Htab.
    + exists table'. split; [exact E|]. split; [exact N|]. split.
      * intros e' He. destruct (P e' He) as [[H1 H2] | [r' [Hr' Hk]]].
        -- apply upsert_row_In in H1. destruct H1 as [[H1 Hne] | [Hk [Hv Hc]]].
           ++ left. split; [exact H1|]. cbn [map]. intros [H | H]; [|contradiction].
              apply Hne. symmetry. exact H.
           ++ right. exists r. split; [left; reflexivity|]. auto.
        -- right. exists r'. split; [right; exact Hr' | exact Hk].
      * intros k Hk. apply K. cbn [map] in Hk.
        destruct Hk as [[<- | Hk] | Hk].
        -- right. apply upsert_row_has_key. left. reflexivity.
        -- left. exact Hk.
        -- right. apply upsert_row_has_key. right. exact Hk.
Qed.

Lemma embedding_data_spec (results : list (EmbeddingResult vector)) :
  forall now : nat,
    map key_of (embedding_data vector now results) = map (result_key vector) results
    /\ forall e, In e (embedding_data vector now results) ->
         exists r, In r results /\ key_of e = result_key vector r
                   /\ vector_ e = res_vector vector r.
Proof.
  induction results as [|r results IH]; intros now; cbn [embedding_data map].
  - split; [reflexivity | intros e []].
  - destruct (IH (S now)) as [K P]. split; [f_equal; exact K|].
    intros e [<- | He].
    + exists r. split; [left; reflexivity|]. split; reflexivity.
    + destruct (P e He) as [r' [Hr' H]]. exists r'. split; [right; exact Hr' | exact H].
Qed.

(** One call of [bulk_upsert_embeddings] on results with pairwise distinct
    keys: it returns, keys stay unique, and each result's key holds exactly
    one record, with the result's vector. *)
Lemma bulk_upsert_spec (db : Store vector) (results : list (EmbeddingResult vector)) :
  NoDup (map key_of (embeddings db)) ->
  NoDup (map (result_key vector) results) ->
  exists db',
    bulk_upsert_embeddings vector db results = Ok (db', List.length results)
    /\ NoDup (map key_of (embeddings db'))
    /\ forall r, In r results ->
         exists e, records_for vector (result_key vector r) (embeddings db') = [e]
                   /\ vector_ e = res_vector vector r.
Proof.
  intros Htab Hres. unfold bulk_upsert_embeddings.
  destruct results as [|r0 results0] eqn:Eres.
  - exists db. split; [reflexivity|]. split; [exact Htab | intros r []].
  - rewrite <- Eres in *. clear Eres r0 results0.
    destruct (embedding_data_spec results (clock db)) as [K P].
    destruct (upsert_rows_spec (embedding_data vector (clock db) results) []
                (embeddings db)) as [table' [E [N [Q H]]]].
    + rewrite K. exact Hres.
    + intros k _ [].
    + exact Htab.
    + rewrite E. eexists. split; [reflexivity|]. cbn [embeddings].
      split; [exact N|]. intros r Hr.
      assert (Hk : In (result_key vector r) (map key_of table')).
      { apply H. left. rewrite K. apply in_map. exact Hr. }
      apply in_map_iff in Hk. destruct Hk as [e [Hke He]].
      exists e. split.
      * rewrite <- Hke. apply records_for_unique; assumption.
      * destruct (Q e He) as [[_ Hno] | [row [Hrow [Hkr [Hv _]]]]].
        -- exfalso. apply Hno. rewrite Hke, K. apply in_map. exact Hr.
        -- destruct (P row Hrow) as [r' [Hr' [Hk' Hv']]].
           assert (r' = r).
           { assert (Hkk : result_key vector r' = result_key vector r) by congruence.
             clear - Hres Hr Hr' Hkk. induction results as [|x l IHl]; [destruct Hr|].
             cbn [map] in Hres. inversion Hres as [|? ? Hx Hl]; subst.
             destruct Hr as [-> | Hr], Hr' as [-> | Hr']; auto.
             - exfalso. apply Hx. rewrite <- Hkk. apply in_map. exact Hr'.
             - exfalso. apply Hx. rewrite Hkk. apply in_map. exact Hr. }
           subst r'. congruence.
Qed.

(** Upserting the same results a second time meets only conflicts: the call
    returns, and each key still holds exactly one record with the same
    vector. *)
Lemma bulk_upsert_twice (db : Store vector) (results : list (EmbeddingResult vector)) :
  NoDup (map key_of (embeddings db)) ->
  NoDup (map (result_key vector) results) ->
  exists db1 db2,
    bulk_upsert_embeddings vector db results = Ok (db1, List.length results)
    /\ bulk_upsert_embeddings vector db1 results = Ok (db2, List.length results)
    /\ NoDup (map key_of (embeddings db2))
    /\ forall r, In r results ->
         exists e1 e2,
           records_for vector (result_key vector r) (embeddings db1) = [e1]
           /\ records_for vector (result_key vector r) (embeddings db2) = [e2]
           /\ vector_ e1 = res_vector vector r
           /\ vector_ e2 = res_vector vector r.
Proof.
  intros Htab Hres.
  destruct (bulk_upsert_spec db results Htab Hres) as [db1 [E1 [N1 P1]]].
  destruct (bulk_upsert_spec db1 results N1 Hres) as [db2 [E2 [N2 P2]]].
  exists db1, db2. split; [exact E1|]. split; [exact E2|]. split; [exact N2|].
  intros r Hr. destruct (P1 r Hr) as [e1 [R1 V1]]. destruct (P2 r Hr) as [e2 [R2 V2]].
  exists e1, e2. auto.
Qed.

End Pipeline.

(** Two runs over an unchanged content store, with a client that answers
    every call: both runs return without a duplicate-key error; content is
    untouched; every conflict key [(target_kind, target_id, model)] that has
    a record after the first run has exactly that one record after the first
    run and exactly the same record, hence the same vector, after the second;
    after the second run no key has two records, and every record is either
    one the store started with or holds the vector the client returns for the
    text of its item.  Nothing is said of the keys that have no record. *)
Lemma pipeline_twice_keeps_keys_unique
    (vector : Type) (embed : string -> option vector)
    (p : EmbeddingPipeline) (db : Store vector) :
  (forall text, embed text <> None) ->
  NoDup (map message_id (messages db)) ->
  NoDup (map card_id (memory_cards db)) ->
  NoDup (map key_of (embeddings db)) ->
  exists db1 stats1 db2 stats2,
    process_embedding_pipeline vector embed p db = Ok (db1, stats1)
    /\ process_embedding_pipeline vector embed p db1 = Ok (db2, stats2)
    /\ messages db2 = messages db
    /\ memory_cards db2 = memory_cards db
    /\ (forall e, In e (embeddings db1) ->
          records_for vector (key_of e) (embeddings db1) = [e]
          /\ records_for vector (key_of e) (embeddings db2) = [e])
    /\ (forall e, In e (embeddings db2) ->
          records_for vector (key_of e) (embeddings db2) = [e])
    /\ (forall e, In e (embeddings db2) ->
          In e (embeddings db)
          \/ exists job, In job (jobs_of vector p db) /\ made_from vector embed job e).
Proof.
  intros Htotal Hm Hc Hk.
  destruct (process_embedding_pipeline_run vector embed Htotal p db Hm Hc Hk)
    as [new1 [stats1 [E1 [K1 F1]]]].
  set (db1 := mkStore (messages db) (memory_cards db) (embeddings db ++ new1)%list
                      (clock db + List.length new1)) in *.
  destruct (process_embedding_pipeline_run vector embed Htotal p db1 Hm Hc K1)
    as [new2 [stats2 [E2 [K2 F2]]]].
  set (db2 := mkStore (messages db1) (memory_cards db1) (embeddings db1 ++ new2)%list
                      (clock db1 + List.length new2)) in *.
  exists db1, stats1, db2, stats2.
  split; [exact E1|]. split; [exact E2|]. split; [reflexivity|]. split; [reflexivity|].
  assert (Hsub : forall e, In e (embeddings db1) -> In e (embeddings db2)).
  { intros e He. unfold db2. cbn [embeddings]. apply in_or_app. left. exact He. }
  split; [|split].
  - intros e He. split; apply records_for_unique; auto.
  - intros e He. apply records_for_unique; auto.
  - intros e He. unfold db2, db1 in He. cbn [embeddings] in He.
    rewrite Forall_forall in F1, F2.
    apply in_app_or in He. destruct He as [He | He].
    + apply in_app_or in He. destruct He as [He | He]; [left; exact He|].
      right. apply F1. exact He.
    + right. apply F2. exact He.
Qed.

(** C2.  Running the pipeline twice is not idempotent.  On seven unembedded
    messages and batches of two, with a deterministic client that answers
    every call, both runs return without a duplicate-key error; the first
    run writes the records of [m1], [m2], [m5] and [m6]; the second run
    changes the store, adding the records of [m3] and [m4] and rewriting
    none; and after the two runs the triple of [m7] has no record at all,
    while each of the other six has exactly one. *)
Theorem pipeline_rerun_not_idempotent :
  exists db1 stats1 db2 stats2,
    process_embedding_pipeline nat length_client batches_of_two seven_messages
    = Ok (db1, stats1)
    /\ process_embedding_pipeline nat length_client batches_of_two db1 = Ok (db2, stats2)
    /\ map (@target_id nat) (embeddings db1) = ["m1"; "m2"; "m5"; "m6"]
    /\ map (@target_id nat) (embeddings db2) = ["m1"; "m2"; "m5"; "m6"; "m3"; "m4"]
    /\ stats_messages stats1 = 4 /\ stats_messages stats2 = 2
    /\ embeddings db2 <> embeddings db1
    /\ firstn 4 (embeddings db2) = embeddings db1
    /\ records_for nat ("message", "m7", self_model batches_of_two) (embeddings db2) = []
    /\ Forall (fun m => List.length
                          (records_for nat ("message", m, self_model batches_of_two)
                                       (embeddings db2)) = 1)
              ["m1"; "m2"; "m3"; "m4"; "m5"; "m6"].
Proof.
  eexists. eexists. eexists. eexists.
  split; [vm_compute; reflexivity|]. split; [vm_compute; reflexivity|].
  split; [reflexivity|]. split; [reflexivity|].
  split; [reflexivity|]. split; [reflexivity|].
  split; [discriminate|]. split; [reflexivity|]. split; [reflexivity|].
  repeat constructor.
Qed.

(** C1.  On three unembedded messages and batches of two, one run of the
    pipeline returns normally and leaves the third message without an
    embedding record: the second pull skips two rows of an anti-join that has
    shrunk to one row. *)
Theorem pipeline_leaves_item_unembedded :
  exists db' stats,
    process_embedding_pipeline nat length_client batches_of_two three_messages
      = Ok (db', stats)
    /\ stats_messages stats = 2
    /\ unembedded "message" message_id (self_model batches_of_two)
                  (embeddings db') (messages db')
       = [mkMessage "m3" "gamma"].
Proof.
  eexists. eexists. split; [vm_compute; reflexivity|]. split; reflexivity.
Qed.

End EmbeddingsFacts.

(* ===================================================================== *)
(** * Further properties of the embedding pipeline *)
(* ===================================================================== *)

Module EmbeddingsExtra.
Import Embeddings EmbeddingsSpec EmbeddingsFacts EmbeddingManager EmbeddingsExtraSpec.

Section Client.

Variable vector : Type.
Variable embed : string -> option vector.

Lemma embed_texts_spec (texts : list string) :
  match embed_texts vector embed texts with
  | Ok vectors => Forall2 (fun text v => embed text = Some v) texts vectors
  | Err e => e = EmbeddingClientError /\ exists text, In text texts /\ embed text = None
  end.
Proof.
  induction texts as [|t ts IH]; cbn [embed_texts]; [constructor|].
  destruct (embed t) as [v|] eqn:Et.
  - destruct (embed_texts vector embed ts) as [vs|e]; cbn [bind].
    + constructor; assumption.
    + destruct IH as [-> [x [Hx Hn]]]. split; [reflexivity|].
      exists x. split; [right; exact Hx | exact Hn].
  - split; [reflexivity|]. exists t. split; [left; reflexivity | exact Et].
Qed.

Lemma generate_embeddings_batch_inv (jobs : list EmbeddingJob)
    (results : list (EmbeddingResult vector)) :
  generate_embeddings_batch vector embed jobs = Ok results ->
  exists vectors,
    results = map (make_result vector) (combine jobs vectors)
    /\ Forall2 (fun text v => embed text = Some v) (map job_content jobs) vectors.
Proof.
  unfold generate_embeddings_batch. destruct jobs as [|j jobs].
  - intros H. inversion H. exists []. split; [reflexivity | constructor].
  - pose proof (embed_texts_spec (map job_content (j :: jobs))) as S.
    destruct (embed_texts vector embed (map job_content (j :: jobs))) as [vs|e];
      cbn [bind]; [|discriminate].
    intros H. inversion H. exists vs. split; [reflexivity | exact S].
Qed.

Lemma results_of_jobs (jobs : list EmbeddingJob) :
  forall vectors : list vector,
    Forall2 (fun text v => embed text = Some v) (map job_content jobs) vectors ->
    Forall2 (result_of_job vector embed) jobs
            (map (make_result vector) (combine jobs vectors)).
Proof.
  induction jobs as [|j jobs IH]; intros vectors F; cbn [map] in F.
  - inversion F. constructor.
  - inversion F as [|? v ? vs Hv F']; subst. cbn [combine map]. constructor.
    + unfold result_of_job, make_result. cbn. repeat split. exact Hv.
    + apply IH. exact F'.
Qed.

(** X1.  [generate_embeddings_batch] is all or nothing: when it returns, the
    results are in the order of the jobs, one per job, each carrying its
    job's kind, id, model and dimension and the vector the client returned
    for the job's content; when it raises, the client failed on one of the
    jobs, and no partial result is handed back. *)
Theorem generate_embeddings_batch_all_or_nothing (jobs : list EmbeddingJob) :
  match generate_embeddings_batch vector embed jobs with
  | Ok results => Forall2 (result_of_job vector embed) jobs results
  | Err e =>
      e = EmbeddingClientError
      /\ exists job, In job jobs /\ embed (job_content job) = None
  end.
Proof.
  destruct (generate_embeddings_batch vector embed jobs) as [results|e] eqn:E.
  - destruct (generate_embeddings_batch_inv jobs results E) as [vs [-> F]].
    apply results_of_jobs. exact F.
  - unfold generate_embeddings_batch in E. destruct jobs as [|j jobs]; [discriminate|].
    pose proof (embed_texts_spec (map job_content (j :: jobs))) as S.
    destruct (embed_texts vector embed (map job_content (j :: jobs))) as [vs|e'];
      cbn [bind] in E; [discriminate|].
    inversion E. subst e'. destruct S as [-> [text [Hin Hn]]]. split; [reflexivity|].
    apply in_map_iff in Hin. destruct Hin as [job [<- Hjob]]. exists job. auto.
Qed.

(** X2.  One resumption of either generator yields between one and
    [batch_size] jobs, each for a row of the table that has no embedding of
    the pipeline's model at that moment, and does so only at an offset
    below the number of such rows; it ends the stream only when the batch
    size is zero or the offset has passed the last pending row. *)
Theorem stream_batch_bounds (p : EmbeddingPipeline) (db : Store vector) (offset : nat) :
  match stream_unembedded_messages vector p db offset with
  | Some jobs =>
      1 <= List.length jobs <= batch_size p
      /\ offset < List.length (pending_messages vector p db)
      /\ Forall (fun job => exists m, In m (pending_messages vector p db)
                                      /\ job = message_job p m) jobs
  | None =>
      batch_size p = 0 \/ List.length (pending_messages vector p db) <= offset
  end
  /\ match stream_unembedded_memory_cards vector p db offset with
     | Some jobs =>
         1 <= List.length jobs <= batch_size p
         /\ offset < List.length (pending_cards vector p db)
         /\ Forall (fun job => exists c, In c (pending_cards vector p db)
                                         /\ job = card_job p c) jobs
     | None =>
         batch_size p = 0 \/ List.length (pending_cards vector p db) <= offset
     end.
Proof.
  assert (G : forall (T : Type) (job_of : T -> EmbeddingJob) (pending : list T),
            match (match limit_offset (batch_size p) offset pending with
                   | [] => None
                   | _ :: _ => Some (map job_of (limit_offset (batch_size p) offset pending))
                   end) with
            | Some jobs =>
                1 <= List.length jobs <= batch_size p
                /\ offset < List.length pending
                /\ Forall (fun job => exists r, In r pending /\ job = job_of r) jobs
            | None => batch_size p = 0 \/ List.length pending <= offset
            end).
  { intros T job_of pending.
    destruct (limit_offset (batch_size p) offset pending) as [|r l] eqn:E.
    - unfold limit_offset in E.
      destruct (batch_size p) as [|n]; [left; reflexivity|]. right.
      destruct (skipn offset pending) as [|x xs] eqn:Es; [|discriminate].
      assert (L : List.length (skipn offset pending) = 0) by (rewrite Es; reflexivity).
      rewrite length_skipn in L. lia.
    - rewrite <- E. rewrite length_map. split; [|split].
      + split; [rewrite E; cbn; lia|]. unfold limit_offset. apply firstn_le_length.
      + destruct (le_lt_dec (List.length pending) offset) as [Hle | Hlt]; [|exact Hlt].
        unfold limit_offset in E. rewrite (skipn_all2 pending Hle), firstn_nil in E.
        discriminate E.
      + apply Forall_forall. intros job Hjob. apply in_map_iff in Hjob.
        destruct Hjob as [x [<- Hx]]. exists x. split; [|reflexivity].
        apply (limit_offset_incl _ _ _ _ Hx). }
  split.
  - apply (G Message (message_job p) (pending_messages vector p db)).
  - apply (G MemoryCard (card_job p) (pending_cards vector p db)).
Qed.

(** X3.  On a store with nothing pending, a run of the pipeline calls
    neither the client nor the database writer: it returns the store it was
    given, with all three counters at zero. *)
Theorem pipeline_noop_when_nothing_pending (p : EmbeddingPipeline) (db : Store vector) :
  pending_messages vector p db = [] ->
  pending_cards vector p db = [] ->
  process_embedding_pipeline vector embed p db = Ok (db, mkStats 0 0 0).
Proof.
  unfold pending_messages, pending_cards. intros Hm Hc.
  unfold process_embedding_pipeline. rewrite process_stream_step.
  unfold stream_unembedded_messages. rewrite Hm.
  unfold limit_offset. rewrite skipn_nil, firstn_nil. cbn [bind].
  rewrite process_stream_step. unfold stream_unembedded_memory_cards. rewrite Hc.
  unfold limit_offset. rewrite skipn_nil, firstn_nil. reflexivity.
Qed.

Section Stream.

Variable T : Type.
Variable kind : string.
Variable id_of : T -> string.
Variable job_of : EmbeddingPipeline -> T -> EmbeddingJob.
Variable rows_of : Store vector -> list T.

Hypothesis job_key_of :
  forall p r, job_key (job_of p r) = (kind, id_of r, self_model p).
Hypothesis rows_of_frame :
  forall db table c,
    rows_of (mkStore (messages db) (memory_cards db) table c) = rows_of db.

(** Whatever the client does: a loop that returns has appended one record
    per counted item, each of the loop's kind and the pipeline's model. *)
Lemma process_stream_accounting (p : EmbeddingPipeline) :
  forall (fuel : nat) (db db' : Store vector) (offset count count' : nat),
    NoDup (map id_of (rows_of db)) ->
    NoDup (map key_of (embeddings db)) ->
    process_stream vector embed (stream_rows vector kind id_of job_of rows_of)
                   fuel p db offset count = Ok (db', count') ->
    exists new,
      db' = mkStore (messages db) (memory_cards db) (embeddings db ++ new)%list
                    (clock db + List.length new)
      /\ count' = count + List.length new
      /\ NoDup (map key_of (embeddings db ++ new)%list)
      /\ Forall (fun e => target_kind e = kind /\ model e = self_model p) new.
Proof.
  induction fuel as [|fuel IH]; intros db db' offset count count' Hids Hkeys Hrun;
    [discriminate|].
  rewrite process_stream_step in Hrun.
  destruct (pulled_keys vector T kind id_of job_of rows_of job_key_of p db offset Hids)
    as [Hnd [Hfresh Hincl]].
  set (pulled := limit_offset (batch_size p) offset
                   (unembedded kind id_of (self_model p) (embeddings db) (rows_of db))) in *.
  assert (Es : stream_rows vector kind id_of job_of rows_of p db offset
               = match pulled with
                 | [] => None
                 | _ :: _ => Some (map (job_of p) pulled)
                 end).
  { unfold stream_rows. fold pulled. destruct pulled; reflexivity. }
  rewrite Es in Hrun. clear Es.
  destruct pulled as [|r0 pulled'] eqn:Epulled.
  - inversion Hrun. subst. exists []. rewrite app_nil_r, !Nat.add_0_r.
    split; [destruct db'; reflexivity|]. split; [reflexivity|].
    split; [exact Hkeys | constructor].
  - rewrite <- Epulled in *. clear Epulled r0 pulled'.
    destruct (generate_embeddings_batch vector embed (map (job_of p) pulled))
      as [results|e] eqn:Eg; cbn [bind] in Hrun; [|discriminate].
    destruct (generate_embeddings_batch_inv _ _ Eg) as [vs [-> F]].
    destruct (embedding_data_of_jobs vector embed (map (job_of p) pulled) vs (clock db) F)
      as [K [L _]].
    set (results := map (make_result vector) (combine (map (job_of p) pulled) vs)) in *.
    set (rows := embedding_data vector (clock db) results) in *.
    assert (Lr : List.length results = List.length rows).
    { unfold rows. clear. generalize (clock db). induction results; intros n; simpl; auto. }
    rewrite (bulk_upsert_fresh vector db results) in Hrun;
      [|fold rows; rewrite K; exact Hnd | fold rows; rewrite K; exact Hfresh].
    cbn [bind] in Hrun. fold rows in Hrun.
    set (db1 := mkStore (messages db) (memory_cards db) (embeddings db ++ rows)%list
                        (clock db + List.length results)) in *.
    assert (Hk1 : NoDup (map key_of (embeddings db1))).
    { unfold db1. cbn [embeddings]. rewrite map_app. apply NoDup_app; auto.
      - rewrite K. exact Hnd.
      - intros k Hk Hk2. rewrite K in Hk2. exact (Hfresh k Hk2 Hk). }
    destruct (IH db1 db' (offset + batch_size p) (count + List.length results) count')
      as [new [Edb [Ecount [N Fa]]]].
    + unfold db1. rewrite rows_of_frame. exact Hids.
    + exact Hk1.
    + exact Hrun.
    + exists (rows ++ new)%list. unfold db1 in *. cbn [messages memory_cards embeddings clock] in *.
      rewrite <- app_assoc in Edb, N. rewrite length_app, <- Lr.
      split; [rewrite Edb; f_equal; lia|]. split; [lia|]. split; [exact N|].
      apply Forall_app. split; [|exact Fa].
      apply Forall_forall. intros e He.
      assert (Hke : In (key_of e) (map job_key (map (job_of p) pulled))).
      { rewrite <- K. apply in_map. exact He. }
      rewrite map_map in Hke. apply in_map_iff in Hke. destruct Hke as [r [Hr _]].
      rewrite job_key_of in Hr. unfold key_of in Hr. inversion Hr. auto.
Qed.

End Stream.

Lemma process_embedding_pipeline_accounting (p : EmbeddingPipeline)
    (db db' : Store vector) (stats : Stats) :
  NoDup (map message_id (messages db)) ->
  NoDup (map card_id (memory_cards db)) ->
  NoDup (map key_of (embeddings db)) ->
  process_embedding_pipeline vector embed p db = Ok (db', stats) ->
  exists new_messages new_cards,
    messages db' = messages db
    /\ memory_cards db' = memory_cards db
    /\ embeddings db' = (embeddings db ++ new_messages ++ new_cards)%list
    /\ stats_messages stats = List.length new_messages
    /\ stats_memory_cards stats = List.length new_cards
    /\ stats_artifacts stats = 0
    /\ Forall (fun e => target_kind e = "message" /\ model e = self_model p) new_messages
    /\ Forall (fun e => target_kind e = "memory_card" /\ model e = self_model p) new_cards.
Proof.
  intros Hm Hc Hk Hrun. unfold process_embedding_pipeline in Hrun.
  change (stream_unembedded_messages vector)
    with (stream_rows vector "message" message_id message_job (@messages vector)) in Hrun.
  change (stream_unembedded_memory_cards vector)
    with (stream_rows vector "memory_card" card_id card_job (@memory_cards vector)) in Hrun.
  destruct (process_stream vector embed
              (stream_rows vector "message" message_id message_job (@messages vector))
              (S (List.length (messages db))) p db 0 0) as [[db1 n1]|e] eqn:E1;
    cbn [bind] in Hrun; [|discriminate].
  destruct (process_stream_accounting Message "message" message_id message_job
              (@messages vector) (fun _ _ => eq_refl) (fun _ _ _ => eq_refl)
              p _ _ _ _ _ _ Hm Hk E1) as [new1 [-> [-> [K1 F1]]]].
  cbn [messages memory_cards] in Hrun.
  set (db1 := mkStore (messages db) (memory_cards db) (embeddings db ++ new1)%list
                      (clock db + List.length new1)) in *.
  destruct (process_stream vector embed
              (stream_rows vector "memory_card" card_id card_job (@memory_cards vector))
              (S (List.length (memory_cards db))) p db1 0 0) as [[db2 n2]|e] eqn:E2;
    cbn [bind] in Hrun; [|discriminate].
  assert (Hc1 : NoDup (map card_id (memory_cards db1))) by exact Hc.
  destruct (process_stream_accounting MemoryCard "memory_card" card_id card_job
              (@memory_cards vector) (fun _ _ => eq_refl) (fun _ _ _ => eq_refl)
              p (S (List.length (memory_cards db))) db1 db2 0 0 n2 Hc1 K1 E2)
    as [new2 [-> [-> [K2 F2]]]].
  unfold db1 in *. clear db1.
  inversion Hrun. subst. cbn.
  exists new1, new2. rewrite <- app_assoc. repeat split; auto.
Qed.

(** X4.  A run of the pipeline that returns has left the content tables and
    every existing embedding record as they were and has appended new
    records after them; the [messages] counter is the number of appended
    message records, the [memory_cards] counter the number of appended card
    records, the [artifacts] counter is zero, and every appended record is of
    the pipeline's model. *)
Theorem pipeline_stats_account_for_new_records (p : EmbeddingPipeline)
    (db db' : Store vector) (stats : Stats) :
  NoDup (map message_id (messages db)) ->
  NoDup (map card_id (memory_cards db)) ->
  NoDup (map key_of (embeddings db)) ->
  process_embedding_pipeline vector embed p db = Ok (db', stats) ->
  exists new_messages new_cards,
    messages db' = messages db
    /\ memory_cards db' = memory_cards db
    /\ embeddings db' = (embeddings db ++ new_messages ++ new_cards)%list
    /\ stats_messages stats = List.length new_messages
    /\ stats_memory_cards stats = List.length new_cards
    /\ stats_artifacts stats = 0
    /\ Forall (fun e => target_kind e = "message" /\ model e = self_model p) new_messages
    /\ Forall (fun e => target_kind e = "memory_card" /\ model e = self_model p) new_cards.
Proof. apply process_embedding_pipeline_accounting. Qed.

(** *** The upsert, record by record *)

Lemma bulk_upsert_inv (db db' : Store vector) (results : list (EmbeddingResult vector))
    (n : nat) :
  bulk_upsert_embeddings vector db results = Ok (db', n) ->
  messages db' = messages db
  /\ memory_cards db' = memory_cards db
  /\ upsert_rows vector [] (embeddings db) (embedding_data vector (clock db) results)
     = Some (embeddings db').
Proof.
  unfold bulk_upsert_embeddings. destruct results as [|r results].
  - intros H. inversion H. subst. repeat split.
  - destruct (upsert_rows vector [] (embeddings db)
                (embedding_data vector (clock db) (r :: results))) as [table|];
      [|discriminate].
    intros H. inversion H. subst. repeat split.
Qed.

Lemma upsert_row_keeps (row e : Embedding vector) (table : list (Embedding vector)) :
  In e table ->
  exists e', In e' (upsert_row vector row table)
             /\ key_of e' = key_of e /\ dim e' = dim e
             /\ (key_of e <> key_of row -> e' = e).
Proof.
  intros He. unfold upsert_row.
  destruct (existsb (fun x => key_eqb (key_of row) (key_of x)) table).
  - exists (on_conflict_update vector row e). split; [apply in_map; exact He|].
    unfold on_conflict_update. destruct (key_eqb (key_of row) (key_of e)) eqn:K.
    + repeat split. intros Hne. apply key_eqb_eq in K. congruence.
    + repeat split.
  - exists e. split; [apply in_or_app; left; exact He|]. repeat split.
Qed.

Lemma upsert_rows_keeps (rows : list (Embedding vector)) :
  forall (seen : list key) (table table' : list (Embedding vector)) (e : Embedding vector),
    upsert_rows vector seen table rows = Some table' ->
    In e table ->
    exists e', In e' table'
               /\ key_of e' = key_of e /\ dim e' = dim e
               /\ (~ In (key_of e) (map key_of rows) -> e' = e).
Proof.
  induction rows as [|r rows IH]; intros seen table table' e Hup He; cbn [upsert_rows] in Hup.
  - inversion Hup. subst. exists e. repeat split. exact He.
  - destruct (existsb (key_eqb (key_of r)) seen); [discriminate|].
    destruct (upsert_row_keeps r e table He) as [e1 [H1 [K1 [D1 S1]]]].
    destruct (IH _ _ _ e1 Hup H1) as [e' [H' [K' [D' S']]]].
    exists e'. split; [exact H'|]. split; [congruence|]. split; [congruence|].
    cbn [map]. intros Hno.
    assert (e1 = e) by (apply S1; intros Hk; apply Hno; left; auto).
    subst e1. apply S'. intros Hk. apply Hno. right. exact Hk.
Qed.

(** X5.  [bulk_upsert_embeddings] on results with pairwise distinct keys,
    over a table with unique keys: it returns the number of results; the
    content tables are untouched and keys stay unique; each result's key
    holds exactly one record, with the result's vector; records under other
    keys are left exactly as they were; and a record that is overwritten
    keeps its key and its [dim] (the conflict clause sets only [vector] and
    [created_at]). *)
Theorem bulk_upsert_contract (db : Store vector) (results : list (EmbeddingResult vector)) :
  NoDup (map key_of (embeddings db)) ->
  NoDup (map (result_key vector) results) ->
  exists db',
    bulk_upsert_embeddings vector db results = Ok (db', List.length results)
    /\ messages db' = messages db
    /\ memory_cards db' = memory_cards db
    /\ NoDup (map key_of (embeddings db'))
    /\ (forall r, In r results ->
          exists e, records_for vector (result_key vector r) (embeddings db') = [e]
                    /\ vector_ e = res_vector vector r)
    /\ (forall e, In e (embeddings db) ->
          ~ In (key_of e) (map (result_key vector) results) ->
          In e (embeddings db'))
    /\ (forall e, In e (embeddings db) ->
          exists e', In e' (embeddings db')
                     /\ key_of e' = key_of e /\ dim e' = dim e).
Proof.
  intros Htab Hres.
  destruct (bulk_upsert_spec vector db results Htab Hres) as [db' [E [N P]]].
  destruct (bulk_upsert_inv db db' results _ E) as [Hm [Hc Hup]].
  destruct (embedding_data_spec vector results (clock db)) as [K _].
  exists db'. split; [exact E|]. split; [exact Hm|]. split; [exact Hc|].
  split; [exact N|]. split; [exact P|]. split.
  - intros e He Hno.
    destruct (upsert_rows_keeps _ _ _ _ e Hup He) as [e' [H' [_ [_ S]]]].
    rewrite K in S. rewrite <- (S Hno). exact H'.
  - intros e He.
    destruct (upsert_rows_keeps _ _ _ _ e Hup He) as [e' [H' [K' [D' _]]]].
    exists e'. auto.
Qed.

(** *** One batch at a time (EmbeddingManager.process_batch) *)

Lemma filter_all_false {A : Type} (f : A -> bool) (l : list A) :
  (forall x, In x l -> f x = false) -> filter f l = [].
Proof.
  induction l as [|a l IH]; intros H; [reflexivity|]. cbn [filter].
  rewrite (H a (or_introl eq_refl)). apply IH. intros x Hx. apply H. right. exact Hx.
Qed.

Lemma filter_all_true {A : Type} (f : A -> bool) (l : list A) :
  (forall x, In x l -> f x = true) -> filter f l = l.
Proof.
  induction l as [|a l IH]; intros H; [reflexivity|]. cbn [filter].
  rewrite (H a (or_introl eq_refl)). f_equal. apply IH. intros x Hx. apply H. right. exact Hx.
Qed.

Lemma filter_andb {A : Type} (f g : A -> bool) (l : list A) :
  filter (fun x => f x && g x) l = filter g (filter f l).
Proof.
  induction l as [|a l IH]; [reflexivity|]. cbn [filter].
  destruct (f a); cbn [andb filter]; [destruct (g a)|]; rewrite IH; reflexivity.
Qed.

Lemma NoDup_app_disjoint {A : Type} (l1 l2 : list A) (a : A) :
  NoDup (l1 ++ l2) -> In a l1 -> In a l2 -> False.
Proof.
  induction l1 as [|x l1 IH]; intros Hnd H1 H2; [destruct H1|].
  cbn [app] in Hnd. inversion Hnd as [|? ? Hx Hnd']; subst.
  destruct H1 as [-> | H1].
  - apply Hx. apply in_or_app. right. exact H2.
  - exact (IH Hnd' H1 H2).
Qed.

Section Total.

Hypothesis embed_total : forall text, embed text <> None.

Section Batch.

Variable T : Type.
Variable kind : string.
Variable id_of : T -> string.
Variable job_of : EmbeddingPipeline -> T -> EmbeddingJob.
Variable rows_of : Store vector -> list T.

Hypothesis job_key_of :
  forall p r, job_key (job_of p r) = (kind, id_of r, self_model p).
Hypothesis rows_of_frame :
  forall db table c,
    rows_of (mkStore (messages db) (memory_cards db) table c) = rows_of db.

Lemma first_batch_progress (p : EmbeddingPipeline) (target_kind_ : string)
    (db : Store vector) :
  NoDup (map id_of (rows_of db)) ->
  NoDup (map key_of (embeddings db)) ->
  let pending := unembedded kind id_of (self_model p) (embeddings db) (rows_of db) in
  exists report db',
    first_batch vector embed (stream_rows vector kind id_of job_of rows_of)
                p target_kind_ db = Ok (report, db')
    /\ success report = true
    /\ processed report = Some (Nat.min (batch_size p) (List.length pending))
    /\ messages db' = messages db /\ memory_cards db' = memory_cards db
    /\ unembedded kind id_of (self_model p) (embeddings db') (rows_of db')
       = skipn (batch_size p) pending.
Proof.
  intros Hids Hkeys pending. unfold first_batch.
  destruct (pulled_keys vector T kind id_of job_of rows_of job_key_of p db 0 Hids)
    as [Hnd [Hfresh Hincl]].
  fold pending in Hnd, Hfresh, Hincl.
  assert (Hpull : limit_offset (batch_size p) 0 pending = firstn (batch_size p) pending)
    by reflexivity.
  rewrite Hpull in *.
  set (pulled := firstn (batch_size p) pending) in *.
  assert (Es : stream_rows vector kind id_of job_of rows_of p db 0
               = match pulled with
                 | [] => None
                 | _ :: _ => Some (map (job_of p) pulled)
                 end).
  { unfold stream_rows. fold pending. rewrite Hpull. fold pulled.
    destruct pulled; reflexivity. }
  rewrite Es. clear Es.
  assert (Lp : List.length pulled = Nat.min (batch_size p) (List.length pending)).
  { unfold pulled. apply length_firstn. }
  destruct pulled as [|r0 pulled'] eqn:Epulled.
  - eexists. exists db. split; [reflexivity|]. cbn [success processed].
    split; [reflexivity|]. split; [rewrite <- Lp; reflexivity|].
    split; [reflexivity|]. split; [reflexivity|].
    fold pending. cbn [List.length] in Lp.
    destruct (batch_size p) as [|n]; [reflexivity|].
    destruct pending as [|x xs]; [reflexivity | discriminate].
  - rewrite <- Epulled in *. clear Epulled r0 pulled'.
    destruct (generate_embeddings_batch_total vector embed embed_total
                (map (job_of p) pulled)) as [vs [Eg F]].
    rewrite Eg. cbn [bind].
    destruct (embedding_data_of_jobs vector embed (map (job_of p) pulled) vs (clock db) F)
      as [K [L _]].
    set (results := map (make_result vector) (combine (map (job_of p) pulled) vs)) in *.
    set (rows := embedding_data vector (clock db) results) in *.
    assert (Lr : List.length results = List.length rows).
    { unfold rows. clear. generalize (clock db). induction results; intros n; simpl; auto. }
    rewrite (bulk_upsert_fresh vector db results);
      [|fold rows; rewrite K; exact Hnd | fold rows; rewrite K; exact Hfresh].
    cbn [bind]. fold rows. eexists. eexists. split; [reflexivity|].
    cbn [success processed messages memory_cards embeddings].
    split; [reflexivity|].
    split; [rewrite Lr, L, length_map, Lp; reflexivity|].
    split; [reflexivity|]. split; [reflexivity|].
    rewrite rows_of_frame. unfold unembedded.
    rewrite (filter_ext
               (fun r => negb (has_embedding kind (id_of r) (self_model p)
                                 (embeddings db ++ rows)%list))
               (fun r => negb (has_embedding kind (id_of r) (self_model p) (embeddings db))
                         && negb (has_embedding kind (id_of r) (self_model p) rows)))
      by (intros r; rewrite has_embedding_app, negb_orb; reflexivity).
    rewrite filter_andb. fold (unembedded kind id_of (self_model p) (embeddings db) (rows_of db)).
    fold pending.
    assert (Hpn : NoDup (map id_of pending)).
    { unfold pending, unembedded. apply NoDup_map_filter. exact Hids. }
    assert (Hkeys' : map key_of rows = map (fun r => (kind, id_of r, self_model p)) pulled).
    { rewrite K, map_map. apply map_ext. intros r. apply job_key_of. }
    rewrite <- (firstn_skipn (batch_size p) pending) at 1. fold pulled.
    rewrite filter_app, filter_all_false, filter_all_true; [reflexivity| |].
    + intros x Hx. apply negb_true_iff. apply has_embedding_false.
      rewrite Hkeys'. intros Hin. apply in_map_iff in Hin. destruct Hin as [y [Hy Hyp]].
      inversion Hy as [Hid].
      rewrite <- (firstn_skipn (batch_size p) pending), map_app in Hpn. fold pulled in Hpn.
      apply (NoDup_app_disjoint _ _ (id_of x) Hpn).
      * rewrite <- Hid. apply in_map. exact Hyp.
      * apply in_map. exact Hx.
    + intros x Hx. apply negb_false_iff. apply has_embedding_true.
      rewrite Hkeys'. apply (in_map (fun r => (kind, id_of r, self_model p))). exact Hx.
Qed.

End Batch.

(** X6.  [process_batch] with a client that answers: for either target kind
    it reports success, processes exactly [min(batch_size, pending)] items
    (the batch size being the argument, or the pipeline's when the argument
    is missing or zero), leaves the content tables untouched, and the items
    still pending afterwards are the pending items beyond that first batch;
    each call starts at offset zero. *)
Theorem process_batch_progress (p : EmbeddingPipeline) (batch_size_ : option nat)
    (db : Store vector) :
  NoDup (map message_id (messages db)) ->
  NoDup (map card_id (memory_cards db)) ->
  NoDup (map key_of (embeddings db)) ->
  let n := effective_batch_size batch_size_ p in
  (exists report db',
     process_batch vector embed p "message" batch_size_ db = (report, db')
     /\ success report = true
     /\ processed report = Some (Nat.min n (List.length (pending_messages vector p db)))
     /\ messages db' = messages db /\ memory_cards db' = memory_cards db
     /\ pending_messages vector p db' = skipn n (pending_messages vector p db))
  /\ (exists report db',
        process_batch vector embed p "memory_card" batch_size_ db = (report, db')
        /\ success report = true
        /\ processed report = Some (Nat.min n (List.length (pending_cards vector p db)))
        /\ messages db' = messages db /\ memory_cards db' = memory_cards db
        /\ pending_cards vector p db' = skipn n (pending_cards vector p db)).
Proof.
  intros Hm Hc Hk n. unfold process_batch. fold n.
  set (p' := with_batch_size p n).
  split.
  - cbn [String.eqb Ascii.eqb Bool.eqb].
    change (stream_unembedded_messages vector)
      with (stream_rows vector "message" message_id message_job (@messages vector)).
    destruct (first_batch_progress Message "message" message_id message_job
                (@messages vector) (fun _ _ => eq_refl) (fun _ _ _ => eq_refl)
                p' "message" db Hm Hk) as [report [db' [E H]]].
    rewrite E. exists report, db'. split; [reflexivity|]. exact H.
  - cbn [String.eqb Ascii.eqb Bool.eqb].
    change (stream_unembedded_memory_cards vector)
      with (stream_rows vector "memory_card" card_id card_job (@memory_cards vector)).
    destruct (first_batch_progress MemoryCard "memory_card" card_id card_job
                (@memory_cards vector) (fun _ _ => eq_refl) (fun _ _ _ => eq_refl)
                p' "memory_card" db Hc Hk) as [report [db' [E H]]].
    rewrite E. exists report, db'. split; [reflexivity|]. exact H.
Qed.

End Total.

End Client.

(** [pipeline_noop_when_nothing_pending] on [embedded_store]. *)
Lemma pipeline_noop_when_nothing_pending_witness :
  process_embedding_pipeline nat picky_client batches_of_two embedded_store
  = Ok (embedded_store, mkStats 0 0 0).
Proof.
  apply (pipeline_noop_when_nothing_pending nat picky_client batches_of_two embedded_store);
    reflexivity.
Defined.

(** [pipeline_stats_account_for_new_records] on one run over
    [three_messages]. *)
Lemma pipeline_stats_account_for_new_records_witness :
  exists new_messages new_cards,
    messages (fst after_one_run) = messages three_messages
    /\ memory_cards (fst after_one_run) = memory_cards three_messages
    /\ embeddings (fst after_one_run)
       = (embeddings three_messages ++ new_messages ++ new_cards)%list
    /\ stats_messages (snd after_one_run) = List.length new_messages
    /\ stats_memory_cards (snd after_one_run) = List.length new_cards
    /\ stats_artifacts (snd after_one_run) = 0
    /\ Forall (fun e => target_kind e = "message"
                        /\ model e = self_model batches_of_two) new_messages
    /\ Forall (fun e => target_kind e = "memory_card"
                        /\ model e = self_model batches_of_two) new_cards.
Proof.
  apply (pipeline_stats_account_for_new_records nat length_client batches_of_two
           three_messages (fst after_one_run) (snd after_one_run)).
  - simpl. repeat constructor; simpl; intuition discriminate.
  - simpl. repeat constructor; simpl; intuition discriminate.
  - simpl. constructor.
  - vm_compute. reflexivity.
Defined.

(** [bulk_upsert_contract] on a table that already holds the first key. *)
Lemma bulk_upsert_contract_witness :
  exists db',
    bulk_upsert_embeddings nat embedded_store two_results = Ok (db', 2)
    /\ messages db' = messages embedded_store
    /\ memory_cards db' = memory_cards embedded_store
    /\ NoDup (map key_of (embeddings db'))
    /\ (forall r, In r two_results ->
          exists e, records_for nat (result_key nat r) (embeddings db') = [e]
                    /\ vector_ e = res_vector nat r)
    /\ (forall e, In e (embeddings embedded_store) ->
          ~ In (key_of e) (map (result_key nat) two_results) ->
          In e (embeddings db'))
    /\ (forall e, In e (embeddings embedded_store) ->
          exists e', In e' (embeddings db')
                     /\ key_of e' = key_of e /\ dim e' = dim e).
Proof.
  apply (bulk_upsert_contract nat embedded_store two_results).
  - simpl. repeat constructor; simpl; intuition discriminate.
  - simpl. repeat constructor; simpl; intuition discriminate.
Defined.

(** The overwritten record of that run: the new vector, the old [dim]. *)
Example bulk_upsert_overwrites_vector_keeps_dim :
  exists db',
    bulk_upsert_embeddings nat embedded_store two_results = Ok (db', 2)
    /\ embeddings db'
       = [mkEmbedding "message" "m1" "text-embedding-ada-002" 768 9 1;
          mkEmbedding "message" "m2" "text-embedding-ada-002" 1536 7 2].
Proof. eexists. split; reflexivity. Qed.

(** [process_batch_progress] on [three_messages] with the pipeline's batch
    size. *)
Lemma process_batch_progress_witness :
  let n := effective_batch_size None batches_of_two in
  (exists report db',
     process_batch nat length_client batches_of_two "message" None three_messages
     = (report, db')
     /\ success report = true
     /\ processed report
        = Some (Nat.min n (List.length (pending_messages nat batches_of_two three_messages)))
     /\ messages db' = messages three_messages
     /\ memory_cards db' = memory_cards three_messages
     /\ pending_messages nat batches_of_two db'
        = skipn n (pending_messages nat batches_of_two three_messages))
  /\ (exists report db',
        process_batch nat length_client batches_of_two "memory_card" None three_messages
        = (report, db')
        /\ success report = true
        /\ processed report
           = Some (Nat.min n (List.length (pending_cards nat batches_of_two three_messages)))
        /\ messages db' = messages three_messages
        /\ memory_cards db' = memory_cards three_messages
        /\ pending_cards nat batches_of_two db'
           = skipn n (pending_cards nat batches_of_two three_messages)).
Proof.
  apply (process_batch_progress nat length_client).
  - intros text. discriminate.
  - simpl. repeat constructor; simpl; intuition discriminate.
  - simpl. repeat constructor; simpl; intuition discriminate.
  - simpl. constructor.
Defined.

(** ** embed_content_batch, get_embedding_stats and run_full_pipeline *)

Section Statistics.

Variable vector : Type.
Variable embed : string -> option vector.
Variable round2 : Q -> Q.

Lemma temp_jobs_contents (p : EmbeddingPipeline) (target_kind_ : string)
    (content_list : list string) :
  forall i, map job_content (temp_jobs p target_kind_ i content_list) = content_list.
Proof.
  induction content_list as [|c cs IH]; intros i; cbn [temp_jobs map]; [reflexivity|].
  cbn [job_content]. rewrite IH. reflexivity.
Qed.

Lemma vectors_of_results (jobs : list EmbeddingJob) :
  forall vectors : list vector,
    List.length vectors = List.length jobs ->
    map (res_vector vector) (map (make_result vector) (combine jobs vectors)) = vectors.
Proof.
  induction jobs as [|j jobs IH]; intros [|v vs] H; cbn in H; try discriminate;
    [reflexivity|].
  cbn [combine map]. cbn [make_result res_vector fst snd]. rewrite IH; [reflexivity | lia].
Qed.

(** X21.  [embed_content_batch] returns one vector per content string, in
    the order of the strings, each the client's embedding of its string,
    whatever the target kind; it raises when the client fails on one of the
    strings, and then returns no vector at all. *)
Theorem embed_content_batch_vectors (p : EmbeddingPipeline) (content_list : list string)
    (target_kind_ : string) :
  match embed_content_batch vector embed p content_list target_kind_ with
  | Ok vectors => Forall2 (fun content v => embed content = Some v) content_list vectors
  | Err e =>
      e = EmbeddingClientError
      /\ exists content, In content content_list /\ embed content = None
  end.
Proof.
  unfold embed_content_batch.
  pose proof (generate_embeddings_batch_inv vector embed
                (temp_jobs p target_kind_ 0 content_list)) as Inv.
  destruct (generate_embeddings_batch vector embed (temp_jobs p target_kind_ 0 content_list))
    as [results|e] eqn:E; cbn [bind].
  - destruct (Inv results eq_refl) as [vs [-> F]].
    rewrite temp_jobs_contents in F. rewrite vectors_of_results; [exact F|].
    apply Forall2_length in F. rewrite <- F.
    rewrite <- (temp_jobs_contents p target_kind_ content_list 0) at 1.
    rewrite length_map. reflexivity.
  - unfold generate_embeddings_batch in E.
    destruct (temp_jobs p target_kind_ 0 content_list) as [|j jobs] eqn:Ej; [discriminate|].
    pose proof (embed_texts_spec vector embed (map job_content (j :: jobs))) as S.
    destruct (embed_texts vector embed (map job_content (j :: jobs))) as [vs|e'];
      cbn [bind] in E; [discriminate|].
    injection E as <-. destruct S as [-> [text [Hin Hn]]]. split; [reflexivity|].
    rewrite <- Ej, temp_jobs_contents in Hin. exists text. auto.
Qed.

Lemma count_kind_app (kind : string) (a b : list (Embedding vector)) :
  count_kind vector kind (a ++ b) = count_kind vector kind a + count_kind vector kind b.
Proof. unfold count_kind. rewrite filter_app, length_app. reflexivity. Qed.

Lemma count_kind_all (kind : string) (l : list (Embedding vector)) :
  Forall (fun e => target_kind e = kind) l -> count_kind vector kind l = List.length l.
Proof.
  intros H. unfold count_kind. rewrite filter_all_true; [reflexivity|].
  intros x Hx. apply String.eqb_eq. exact (proj1 (Forall_forall _ _) H x Hx).
Qed.

Lemma count_kind_none (kind kind' : string) (l : list (Embedding vector)) :
  Forall (fun e => target_kind e = kind') l -> kind' <> kind ->
  count_kind vector kind l = 0.
Proof.
  intros H Hne. unfold count_kind. rewrite filter_all_false; [reflexivity|].
  intros x Hx. apply String.eqb_neq. rewrite (proj1 (Forall_forall _ _) H x Hx). exact Hne.
Qed.

(** X22.  The report of [run_full_pipeline] is consistent: between the
    initial and the final statistics the totals do not move, the embedded
    counts grow by exactly the [processed] counters and the pending counts
    shrink by them. *)
Theorem run_full_pipeline_accounting (p : EmbeddingPipeline) (db db' : Store vector)
    (report : PipelineReport) :
  NoDup (map message_id (messages db)) ->
  NoDup (map card_id (memory_cards db)) ->
  NoDup (map key_of (embeddings db)) ->
  run_full_pipeline vector embed round2 p db = Ok (report, db') ->
  let before := initial_stats report in
  let after := final_stats report in
  let done := run_processed report in
  run_success report = true
  /\ total (messages_block after) = total (messages_block before)
  /\ total (memory_cards_block after) = total (memory_cards_block before)
  /\ embedded (messages_block after)
     = embedded (messages_block before) + stats_messages done
  /\ embedded (memory_cards_block after)
     = embedded (memory_cards_block before) + stats_memory_cards done
  /\ pending (messages_block after)
     = (pending (messages_block before) - Z.of_nat (stats_messages done))%Z
  /\ pending (memory_cards_block after)
     = (pending (memory_cards_block before) - Z.of_nat (stats_memory_cards done))%Z
  /\ total_embeddings after
     = total_embeddings before + stats_messages done + stats_memory_cards done.
Proof.
  intros Hm Hc Hk Hrun. unfold run_full_pipeline in Hrun.
  destruct (process_embedding_pipeline vector embed p db) as [[db1 stats]|e] eqn:E;
    cbn [bind] in Hrun; [|discriminate].
  injection Hrun as <- <-.
  destruct (process_embedding_pipeline_accounting vector embed p db db1 stats Hm Hc Hk E)
    as [nm [nc [Em [Ec [Ee [Sm [Sc [_ [Fm Fc]]]]]]]]].
  cbn zeta. cbn [initial_stats final_stats run_processed run_success].
  unfold get_embedding_stats, kind_stats.
  cbn [messages_block memory_cards_block total embedded pending total_embeddings].
  rewrite Em, Ec, Ee, !count_kind_app.
  assert (Fm' : Forall (fun e : Embedding vector => target_kind e = "message") nm).
  { apply (Forall_impl _ (P := fun e => target_kind e = "message"
                                        /\ model e = self_model p)); [tauto | exact Fm]. }
  assert (Fc' : Forall (fun e : Embedding vector => target_kind e = "memory_card") nc).
  { apply (Forall_impl _ (P := fun e => target_kind e = "memory_card"
                                        /\ model e = self_model p)); [tauto | exact Fc]. }
  rewrite (count_kind_all "message" nm Fm'), (count_kind_all "memory_card" nc Fc').
  rewrite (count_kind_none "message" "memory_card" nc Fc') by discriminate.
  rewrite (count_kind_none "memory_card" "message" nm Fm') by discriminate.
  rewrite Sm, Sc. repeat split; lia.
Qed.

Lemma partition_length {A : Type} (f : A -> bool) (l : list A) :
  List.length l
  = List.length (filter f l) + List.length (filter (fun x => negb (f x)) l).
Proof.
  induction l as [|a l IH]; cbn [filter List.length]; [reflexivity|].
  destruct (f a); cbn [negb List.length]; lia.
Qed.

Lemma embedded_count {T : Type} (kind mdl : string) (id_of : T -> string)
    (rows : list T) (table : list (Embedding vector)) :
  NoDup (map id_of rows) ->
  NoDup (map key_of table) ->
  (forall e, In e table -> target_kind e = kind ->
             model e = mdl /\ In (target_id e) (map id_of rows)) ->
  count_kind vector kind table
  = List.length (filter (fun r => has_embedding kind (id_of r) mdl table) rows).
Proof.
  intros Hrows Hkeys Hown. unfold count_kind.
  set (l1 := map target_id (filter (fun e : Embedding vector => target_kind e =? kind) table)).
  set (l2 := map id_of (filter (fun r => has_embedding kind (id_of r) mdl table) rows)).
  assert (N1 : NoDup l1).
  { unfold l1. clear l1 l2.
    assert (G : forall part,
              incl part table -> NoDup (map key_of part) ->
              NoDup (map target_id
                       (filter (fun e : Embedding vector => target_kind e =? kind) part))).
    { induction part as [|a part IH]; intros Hincl Hnd; cbn [filter map]; [constructor|].
      cbn [map] in Hnd. apply NoDup_cons_iff in Hnd. destruct Hnd as [Ha Hnd].
      assert (IH' := IH (fun x Hx => Hincl x (or_intror Hx)) Hnd).
      destruct (target_kind a =? kind) eqn:Ka; [|exact IH'].
      cbn [map]. apply NoDup_cons; [|exact IH'].
      intros Hin. apply in_map_iff in Hin. destruct Hin as [e [He Hin]].
      apply filter_In in Hin. destruct Hin as [Hin Ke].
      apply String.eqb_eq in Ka, Ke.
      destruct (Hown a (Hincl a (or_introl eq_refl)) Ka) as [Ma _].
      destruct (Hown e (Hincl e (or_intror Hin)) Ke) as [Me _].
      apply Ha. apply in_map_iff. exists e. split; [|exact Hin].
      unfold key_of. congruence. }
    apply G; [apply incl_refl | exact Hkeys]. }
  assert (N2 : NoDup l2) by (apply NoDup_map_filter; exact Hrows).
  assert (I12 : incl l1 l2).
  { intros x Hx. unfold l1 in Hx. apply in_map_iff in Hx. destruct Hx as [e [<- He]].
    apply filter_In in He. destruct He as [He Ke]. apply String.eqb_eq in Ke.
    destruct (Hown e He Ke) as [Me Hid]. apply in_map_iff in Hid.
    destruct Hid as [r [Hr Hin]]. unfold l2. apply in_map_iff. exists r.
    split; [exact Hr|]. apply filter_In. split; [exact Hin|].
    unfold has_embedding. apply existsb_exists. exists e. split; [exact He|].
    unfold embedding_matches. rewrite Ke, Hr, Me, !String.eqb_refl. reflexivity. }
  assert (I21 : incl l2 l1).
  { intros x Hx. unfold l2 in Hx. apply in_map_iff in Hx. destruct Hx as [r [<- Hr]].
    apply filter_In in Hr. destruct Hr as [_ Hr]. unfold has_embedding in Hr.
    apply existsb_exists in Hr. destruct Hr as [e [He Hmatch]].
    unfold embedding_matches in Hmatch. apply andb_true_iff in Hmatch.
    destruct Hmatch as [Hmatch _]. apply andb_true_iff in Hmatch.
    destruct Hmatch as [Ke Ie]. apply String.eqb_eq in Ie.
    unfold l1. apply in_map_iff. exists e. split; [exact Ie|].
    apply filter_In. split; assumption. }
  pose proof (NoDup_incl_length N1 I12) as L1.
  pose proof (NoDup_incl_length N2 I21) as L2.
  unfold l1, l2 in L1, L2. rewrite !length_map in L1, L2. lia.
Qed.

(** X23.  When every embedding record is of the pipeline's model and points
    to an existing row, the [pending] figures of [get_embedding_stats] are
    the numbers of messages and memory cards the pipeline would stream:
    those without an embedding of its model. *)
Theorem stats_pending_is_backlog (p : EmbeddingPipeline) (db : Store vector) :
  NoDup (map message_id (messages db)) ->
  NoDup (map card_id (memory_cards db)) ->
  NoDup (map key_of (embeddings db)) ->
  (forall e, In e (embeddings db) -> model e = self_model p) ->
  (forall e, In e (embeddings db) -> target_kind e = "message" ->
             In (target_id e) (map message_id (messages db))) ->
  (forall e, In e (embeddings db) -> target_kind e = "memory_card" ->
             In (target_id e) (map card_id (memory_cards db))) ->
  let stats := get_embedding_stats vector round2 db in
  pending (messages_block stats)
  = Z.of_nat (List.length (pending_messages vector p db))
  /\ pending (memory_cards_block stats)
     = Z.of_nat (List.length (pending_cards vector p db)).
Proof.
  intros Hm Hc Hk Hmodel Hmsg Hcard. cbn zeta.
  unfold get_embedding_stats, kind_stats, pending_messages, pending_cards, unembedded.
  cbn [messages_block memory_cards_block pending].
  rewrite (embedded_count "message" (self_model p) message_id (messages db) (embeddings db)
             Hm Hk (fun e He Ke => conj (Hmodel e He) (Hmsg e He Ke))).
  rewrite (embedded_count "memory_card" (self_model p) card_id (memory_cards db)
             (embeddings db) Hc Hk (fun e He Ke => conj (Hmodel e He) (Hcard e He Ke))).
  rewrite (partition_length
             (fun r => has_embedding "message" (message_id r) (self_model p) (embeddings db))
             (messages db)) at 1.
  rewrite (partition_length
             (fun r => has_embedding "memory_card" (card_id r) (self_model p)
                                     (embeddings db))
             (memory_cards db)) at 1.
  split; lia.
Qed.

Lemma count_model_sum (mdl : string) (groups : list (string * nat)) :
  list_sum (map snd (count_model mdl groups)) = S (list_sum (map snd groups)).
Proof.
  induction groups as [|[m n] groups IH]; cbn [count_model]; [reflexivity|].
  destruct (m =? mdl); cbn [map snd]; unfold list_sum in *; cbn [fold_right];
    [reflexivity | rewrite IH; lia].
Qed.

Lemma model_stats_sum (table : list (Embedding vector)) :
  forall groups,
    list_sum (map snd (fold_left (fun groups e => count_model (model e) groups)
                                 table groups))
    = list_sum (map snd groups) + List.length table.
Proof.
  induction table as [|e table IH]; intros groups; cbn [fold_left List.length]; [lia|].
  rewrite IH, count_model_sum. lia.
Qed.

Lemma count_kinds_le (table : list (Embedding vector)) :
  count_kind vector "message" table + count_kind vector "memory_card" table
  <= List.length table
  /\ (count_kind vector "message" table + count_kind vector "memory_card" table
      = List.length table
      <-> Forall (fun e => target_kind e = "message" \/ target_kind e = "memory_card") table).
Proof.
  unfold count_kind.
  induction table as [|e table [IH1 IH2]]; cbn [filter List.length].
  - split; [lia|]. split; [constructor | reflexivity].
  - destruct (target_kind e =? "message") eqn:K1;
      destruct (target_kind e =? "memory_card") eqn:K2; cbn [List.length].
    + apply String.eqb_eq in K1, K2. rewrite K1 in K2. discriminate.
    + apply String.eqb_eq in K1. split; [lia|]. split.
      * intros H. constructor; [left; exact K1 | apply IH2; lia].
      * intros H. inversion H; subst. apply IH2 in H3. lia.
    + apply String.eqb_eq in K2. split; [lia|]. split.
      * intros H. constructor; [right; exact K2 | apply IH2; lia].
      * intros H. inversion H; subst. apply IH2 in H3. lia.
    + apply String.eqb_neq in K1, K2. split; [lia|]. split.
      * intros H. lia.
      * intros H. inversion H; subst. tauto.
Qed.

(** X24.  In the statistics the per-model counts add up to the number of
    embedding records, while [total_embeddings] counts the message and
    memory-card records only: it never exceeds that number and equals it
    exactly when the table holds no record of another kind. *)
Theorem stats_totals (db : Store vector) :
  let stats := get_embedding_stats vector round2 db in
  list_sum (map snd (models stats)) = List.length (embeddings db)
  /\ total_embeddings stats <= List.length (embeddings db)
  /\ (total_embeddings stats = List.length (embeddings db)
      <-> Forall (fun e => target_kind e = "message" \/ target_kind e = "memory_card")
                 (embeddings db)).
Proof.
  cbn zeta. unfold get_embedding_stats. cbn [models total_embeddings].
  split; [unfold model_stats; rewrite model_stats_sum; reflexivity|].
  apply count_kinds_le.
Qed.

End Statistics.

(** [run_full_pipeline_accounting] on one run over [three_messages]. *)
Lemma run_full_pipeline_accounting_witness :
  exists report db',
    run_full_pipeline nat length_client no_rounding batches_of_two three_messages
    = Ok (report, db')
    /\ run_processed report = mkStats 2 1 0
    /\ run_success report = true
    /\ total (messages_block (final_stats report))
       = total (messages_block (initial_stats report))
    /\ total (memory_cards_block (final_stats report))
       = total (memory_cards_block (initial_stats report))
    /\ embedded (messages_block (final_stats report))
       = embedded (messages_block (initial_stats report))
         + stats_messages (run_processed report)
    /\ embedded (memory_cards_block (final_stats report))
       = embedded (memory_cards_block (initial_stats report))
         + stats_memory_cards (run_processed report)
    /\ pending (messages_block (final_stats report))
       = (pending (messages_block (initial_stats report))
          - Z.of_nat (stats_messages (run_processed report)))%Z
    /\ pending (memory_cards_block (final_stats report))
       = (pending (memory_cards_block (initial_stats report))
          - Z.of_nat (stats_memory_cards (run_processed report)))%Z
    /\ total_embeddings (final_stats report)
       = total_embeddings (initial_stats report)
         + stats_messages (run_processed report)
         + stats_memory_cards (run_processed report).
Proof.
  destruct (run_full_pipeline nat length_client no_rounding batches_of_two three_messages)
    as [[report db']|e] eqn:E; [|vm_compute in E; discriminate E].
  exists report, db'. split; [reflexivity|].
  split; [vm_compute in E; injection E as <- _; reflexivity|].
  apply (run_full_pipeline_accounting nat length_client no_rounding batches_of_two
           three_messages db' report).
  - simpl. repeat constructor; simpl; intuition discriminate.
  - simpl. repeat constructor; simpl; intuition discriminate.
  - simpl. constructor.
  - exact E.
Defined.

(** [stats_pending_is_backlog] on [embedded_store]: nothing is pending. *)
Lemma stats_pending_is_backlog_witness :
  let stats := get_embedding_stats nat no_rounding embedded_store in
  pending (messages_block stats)
  = Z.of_nat (List.length (pending_messages nat batches_of_two embedded_store))
  /\ pending (memory_cards_block stats)
     = Z.of_nat (List.length (pending_cards nat batches_of_two embedded_store)).
Proof.
  apply (stats_pending_is_backlog nat no_rounding batches_of_two embedded_store).
  - simpl. repeat constructor; simpl; intuition discriminate.
  - simpl. constructor.
  - simpl. repeat constructor; simpl; intuition discriminate.
  - intros e [<- | []]. reflexivity.
  - intros e [<- | []] _. left. reflexivity.
  - intros e [<- | []] H. discriminate H.
Defined.

(** Without the single-model hypothesis the figure can be negative: a
    message embedded under two models is counted twice. *)
Example stats_pending_negative_under_two_models :
  let block := messages_block (get_embedding_stats nat no_rounding two_models_store) in
  total block = 1 /\ embedded block = 2 /\ pending block = (-1)%Z
  /\ (completion_percent block == 200)%Q.
Proof. cbn zeta. repeat split. Qed.

End EmbeddingsExtra.

(* ===================================================================== *)
(** * Properties of the string helpers and of the validators *)
(* ===================================================================== *)

Module ValidationExtra.
Import Py ErrorHandling ValidationSpec.

(** ** The matcher finds every match *)

Lemma matches_Void (s : string) : ~ matches Void s.
Proof. intros H. inversion H. Qed.

Lemma append_empty (s1 s2 : string) :
  (s1 ++ s2)%string = EmptyString -> s1 = EmptyString /\ s2 = EmptyString.
Proof. destruct s1; simpl; intros H; [auto | discriminate]. Qed.

Lemma append_nil_r (s : string) : (s ++ EmptyString)%string = s.
Proof. induction s as [|c s IH]; simpl; [reflexivity | rewrite IH; reflexivity]. Qed.

Lemma append_assoc (s1 s2 s3 : string) :
  ((s1 ++ s2) ++ s3)%string = (s1 ++ (s2 ++ s3))%string.
Proof. induction s1 as [|c s1 IH]; simpl; [reflexivity | rewrite IH; reflexivity]. Qed.

Lemma matches_nullable (r : regex) (s : string) :
  matches r s -> s = EmptyString -> nullable r = true.
Proof.
  induction 1 as [| | r1 r2 s1 s2 H1 IH1 H2 IH2 | r1 r2 s H IH | r1 r2 s H IH | |];
    intros E; cbn [nullable]; try reflexivity; try discriminate.
  - apply append_empty in E. destruct E as [E1 E2]. rewrite IH1, IH2; auto.
  - rewrite IH; auto.
  - rewrite IH; auto. apply orb_true_r.
Qed.

Lemma matches_cat_smart (r1 r2 : regex) (s : string) :
  matches (Cat r1 r2) s -> matches (cat r1 r2) s.
Proof.
  intros H. inversion H as [| | ? ? s1 s2 H1 H2 | | | |]; subst.
  destruct r1; try (exfalso; exact (matches_Void _ H1));
    destruct r2; try (exfalso; exact (matches_Void _ H2)); cbn [cat];
    try exact H; inversion H1; subst; exact H2.
Qed.

Lemma matches_alt_smart (r1 r2 : regex) (s : string) :
  matches (Alt r1 r2) s -> matches (alt r1 r2) s.
Proof.
  intros H.
  destruct r1, r2; cbn [alt]; try exact H;
    inversion H; subst; try assumption;
    match goal with
    | [ Hv : matches Void _ |- _ ] => exfalso; exact (matches_Void _ Hv)
    end.
Qed.

Lemma matches_deriv (r : regex) (s0 : string) :
  matches r s0 ->
  forall (c : ascii) (s : string), s0 = String c s -> matches (deriv c r) s.
Proof.
  induction 1 as [| p c0 Hp | r1 r2 s1 s2 H1 IH1 H2 IH2 | r1 r2 s' H IH | r1 r2 s' H IH
                  | r | r s1 s2 H1 IH1 H2 IH2];
    intros c s E; cbn [deriv].
  - discriminate.
  - inversion E. subst. rewrite Hp. constructor.
  - destruct s1 as [|c1 s1'].
    + simpl in E. rewrite (matches_nullable r1 EmptyString H1 eq_refl).
      apply matches_alt_smart. apply matches_alt_r. apply (IH2 c s E).
    + simpl in E. inversion E. subst.
      assert (Hc : matches (cat (deriv c r1) r2) (s1' ++ s2)).
      { apply matches_cat_smart. constructor; [apply (IH1 c s1' eq_refl) | exact H2]. }
      destruct (nullable r1); [|exact Hc].
      apply matches_alt_smart. apply matches_alt_l. exact Hc.
  - apply matches_alt_smart. apply matches_alt_l. apply (IH c s E).
  - apply matches_alt_smart. apply matches_alt_r. apply (IH c s E).
  - discriminate.
  - destruct s1 as [|c1 s1'].
    + simpl in E. apply (IH2 c s E).
    + simpl in E. inversion E. subst. apply matches_cat_smart.
      constructor; [apply (IH1 c s1' eq_refl) | exact H2].
Qed.

Lemma fullmatch_complete (s : string) :
  forall r : regex, matches r s -> fullmatch r s = true.
Proof.
  induction s as [|c s IH]; intros r H; cbn [fullmatch].
  - apply (matches_nullable r EmptyString H eq_refl).
  - apply IH. apply (matches_deriv r (String c s) H c s eq_refl).
Qed.

Lemma matches_star_anychar (s : string) : matches (Star anychar) s.
Proof.
  induction s as [|c s IH]; [constructor|].
  change (String c s) with (String c EmptyString ++ s)%string.
  constructor; [constructor; reflexivity | exact IH].
Qed.

(** A match of [r] anywhere in the subject is found by [re.search]. *)
Lemma re_search_complete (r : regex) (a m b : string) :
  matches r m -> re_search r (a ++ m ++ b) = true.
Proof.
  intros H. unfold re_search. apply fullmatch_complete.
  constructor; [apply matches_star_anychar|].
  constructor; [exact H | apply matches_star_anychar].
Qed.

Lemma matches_lit (w : string) : matches (lit w) w.
Proof.
  induction w as [|c w IH]; cbn [lit]; [constructor|].
  change (String c w) with (String c EmptyString ++ w)%string.
  constructor; [constructor; apply Ascii.eqb_refl | exact IH].
Qed.

Lemma matches_alts (rs : list regex) (r : regex) (s : string) :
  In r rs -> matches r s -> matches (alts rs) s.
Proof.
  induction rs as [|r0 rs IH]; intros Hin H; [destruct Hin|].
  destruct rs as [|r1 rs'].
  - destruct Hin as [-> | []]. exact H.
  - change (alts (r0 :: r1 :: rs')) with (Alt r0 (alts (r1 :: rs'))).
    destruct Hin as [-> | Hin]; [apply matches_alt_l; exact H|].
    apply matches_alt_r. apply IH; assumption.
Qed.

(** ** What sanitize_string refuses *)

Lemma sanitize_string_rejects (value field_name : string) (pattern : regex) :
  In pattern (SQL_INJECTION_PATTERNS ++ XSS_PATTERNS ++ PATH_TRAVERSAL_PATTERNS)%list ->
  re_search_ignorecase pattern value = true ->
  sanitize_string value field_name = raise_ValidationError field_name.
Proof.
  intros Hin Hs. unfold sanitize_string.
  set (f := fun pattern0 => re_search_ignorecase pattern0 value).
  destruct (existsb f SQL_INJECTION_PATTERNS) eqn:E1; [reflexivity|].
  destruct (existsb f XSS_PATTERNS) eqn:E2; [reflexivity|].
  destruct (existsb f PATH_TRAVERSAL_PATTERNS) eqn:E3; [reflexivity|].
  exfalso.
  assert (E : existsb f (SQL_INJECTION_PATTERNS ++ XSS_PATTERNS ++ PATH_TRAVERSAL_PATTERNS)%list
              = true).
  { apply existsb_exists. exists pattern. split; [exact Hin | exact Hs]. }
  rewrite !existsb_app, E1, E2, E3 in E. discriminate.
Qed.

(** Every check of [validate_string] raises the same error, so a value that
    [sanitize_string] refuses is refused whatever the other arguments. *)
Lemma validate_string_rejects (value field_name : string) (min_length : nat)
    (max_length : option nat) (allow_empty : bool) (pattern : option regex) :
  sanitize_string value field_name = raise_ValidationError field_name ->
  validate_string value field_name min_length max_length allow_empty pattern true
  = raise_ValidationError field_name.
Proof.
  intros H. unfold validate_string.
  destruct (negb allow_empty && is_empty (strip value)); [reflexivity|].
  destruct (String.length value <? min_length)%nat; [reflexivity|].
  destruct (or_default max_length MAX_STRING_LENGTH <? String.length value)%nat;
    [reflexivity|].
  destruct (match pattern with Some r => negb (re_match r value) | None => false end);
    [reflexivity | exact H].
Qed.

Ltac pick_member := (left; reflexivity) + (right; pick_member).

Lemma blocked_pattern (w : string) :
  In w (blocked_words ++ blocked_marks)%list ->
  exists pattern,
    In pattern (SQL_INJECTION_PATTERNS ++ XSS_PATTERNS ++ PATH_TRAVERSAL_PATTERNS)%list
    /\ matches pattern w.
Proof.
  intros H. cbn [blocked_words blocked_marks app In] in H.
  repeat (destruct H as [<- | H]); try contradiction;
    solve
      [ eexists;
        (split; [cbn [SQL_INJECTION_PATTERNS XSS_PATTERNS PATH_TRAVERSAL_PATTERNS app In];
                 pick_member|]);
        solve
          [ apply matches_lit
          | eapply (matches_alts _ (lit _)); [cbn [In]; pick_member | apply matches_lit]
          | eapply (matches_alts _ (Alt (lit _) (lit _)));
              [cbn [In]; pick_member | apply matches_alt_l; apply matches_lit] ] ].
Qed.

Lemma sanitize_string_blocked (value a w b : string) :
  In w (blocked_words ++ blocked_marks)%list ->
  lower value = (a ++ w ++ b)%string ->
  forall field_name, sanitize_string value field_name = raise_ValidationError field_name.
Proof.
  intros Hw Hv field_name. destruct (blocked_pattern w Hw) as [pattern [Hin Hm]].
  apply (sanitize_string_rejects value field_name pattern Hin).
  unfold re_search_ignorecase. rewrite Hv. apply re_search_complete. exact Hm.
Qed.

(** X7.  [sanitize_string] refuses every value that contains, in any letter
    case and at any position (also inside a longer word), one of the sixteen
    blocked words or one of the nine blocked marks; so does
    [validate_search_query]. *)
Theorem blocked_substring_rejected (value field_name a w b : string) :
  In w (blocked_words ++ blocked_marks)%list ->
  lower value = (a ++ w ++ b)%string ->
  sanitize_string value field_name = raise_ValidationError field_name
  /\ validate_search_query value = raise_ValidationError "search_query".
Proof.
  intros Hw Hv. split; [apply (sanitize_string_blocked value a w b Hw Hv)|].
  unfold validate_search_query.
  rewrite (validate_string_rejects _ _ _ _ _ _
             (sanitize_string_blocked value a w b Hw Hv "search_query")).
  reflexivity.
Qed.

(** [blocked_substring_rejected] on a query that holds [select] inside
    [Selection]. *)
Lemma blocked_substring_rejected_witness :
  sanitize_string "Selection sort" "search_query" = raise_ValidationError "search_query"
  /\ validate_search_query "Selection sort" = raise_ValidationError "search_query".
Proof.
  apply (blocked_substring_rejected "Selection sort" "search_query"
           EmptyString "select" "ion sort").
  - cbn. auto 20.
  - reflexivity.
Defined.

Lemma matches_star_chars (p : ascii -> bool) (s : string) :
  all_chars p s = true -> matches (Star (Chr p)) s.
Proof.
  induction s as [|c s IH]; cbn [all_chars]; intros H; [constructor|].
  apply andb_true_iff in H. destruct H as [Hc Hs].
  change (String c s) with (String c EmptyString ++ s)%string.
  constructor; [constructor; exact Hc | exact (IH Hs)].
Qed.

Lemma matches_plus_chars (p : ascii -> bool) (s : string) :
  s <> EmptyString -> all_chars p s = true -> matches (plus (Chr p)) s.
Proof.
  destruct s as [|c s]; [intros H; contradiction H; reflexivity|].
  intros _ H. cbn [all_chars] in H. apply andb_true_iff in H. destruct H as [Hc Hs].
  unfold plus. change (String c s) with (String c EmptyString ++ s)%string.
  constructor; [constructor; exact Hc | apply matches_star_chars; exact Hs].
Qed.

(** X8.  The event-handler pattern is not anchored at a word boundary: a
    value in which the letters [on] are followed by one or more word
    characters, optional whitespace and an equals sign is refused, wherever
    the letters stand. *)
Theorem handler_shape_rejected (value field_name a name gap b : string) :
  name <> EmptyString ->
  all_chars word_char name = true ->
  all_chars isspace gap = true ->
  lower value = (a ++ ("on" ++ name ++ gap ++ "=") ++ b)%string ->
  sanitize_string value field_name = raise_ValidationError field_name
  /\ validate_search_query value = raise_ValidationError "search_query".
Proof.
  intros Hn Hname Hgap Hv.
  assert (S : forall f, sanitize_string value f = raise_ValidationError f).
  { intros f.
    apply (sanitize_string_rejects value f
             (Cat (lit "on") (Cat (plus (Chr word_char)) (Cat (Star (Chr isspace)) (lit "="))))).
    - cbn [SQL_INJECTION_PATTERNS XSS_PATTERNS PATH_TRAVERSAL_PATTERNS app In]. pick_member.
    - unfold re_search_ignorecase. rewrite Hv. apply re_search_complete.
      constructor; [apply matches_lit|].
      constructor; [apply matches_plus_chars; assumption|].
      constructor; [apply matches_star_chars; assumption | apply matches_lit]. }
  split; [apply S|]. unfold validate_search_query.
  rewrite (validate_string_rejects _ _ _ _ _ _ (S "search_query")). reflexivity.
Qed.

(** [handler_shape_rejected] on a query about a conversion factor. *)
Lemma handler_shape_rejected_witness :
  sanitize_string "Conversion = 2.54" "search_query" = raise_ValidationError "search_query"
  /\ validate_search_query "Conversion = 2.54" = raise_ValidationError "search_query".
Proof.
  apply (handler_shape_rejected "Conversion = 2.54" "search_query"
           "c" "version" " " " 2.54").
  - discriminate.
  - reflexivity.
  - reflexivity.
  - reflexivity.
Defined.

(** ** Characters of a sanitised value *)

Lemma mem_char_app (c : ascii) (a b : string) :
  mem_char c (a ++ b) = mem_char c a || mem_char c b.
Proof.
  induction a as [|d a IH]; cbn [append mem_char]; [reflexivity|].
  rewrite IH. apply orb_assoc.
Qed.

Lemma mem_char_split (c : ascii) (s : string) :
  mem_char c s = true -> exists a b, s = (a ++ String c EmptyString ++ b)%string.
Proof.
  induction s as [|d s IH]; cbn [mem_char]; [discriminate|].
  destruct (Ascii.eqb c d) eqn:E.
  - apply Ascii.eqb_eq in E. subst d. intros _. exists EmptyString, s. reflexivity.
  - cbn [orb]. intros H. destruct (IH H) as [x [y ->]].
    exists (String d x), y. reflexivity.
Qed.

Lemma mem_char_replace (e d : ascii) (by_ s : string) :
  mem_char e (replace d by_ s)
  = (mem_char d s && mem_char e by_) || (negb (Ascii.eqb e d) && mem_char e s).
Proof.
  induction s as [|x s IH]; cbn [replace mem_char];
    [destruct (Ascii.eqb e d); reflexivity|].
  destruct (Ascii.eqb d x) eqn:E.
  - apply Ascii.eqb_eq in E. subst x. rewrite mem_char_app, IH.
    destruct (Ascii.eqb e d), (mem_char d s), (mem_char e by_), (mem_char e s); reflexivity.
  - cbn [mem_char]. rewrite IH. destruct (Ascii.eqb e x) eqn:Ex.
    + apply Ascii.eqb_eq in Ex. subst x. rewrite Ascii.eqb_sym, E.
      destruct (mem_char d s), (mem_char e by_), (mem_char e s); reflexivity.
    + destruct (Ascii.eqb e d), (mem_char d s), (mem_char e by_), (mem_char e s); reflexivity.
Qed.

Lemma replace_absent (d : ascii) (by_ s : string) :
  mem_char d s = false -> replace d by_ s = s.
Proof.
  induction s as [|x s IH]; cbn [replace mem_char]; [reflexivity|].
  intros H. apply orb_false_iff in H. destruct H as [E H].
  rewrite E, (IH H). reflexivity.
Qed.

Ltac split_atoms value :=
  repeat match goal with
         | |- context [mem_char ?c value] => destruct (mem_char c value)
         | H : context [mem_char ?c value] |- _ => destruct (mem_char c value)
         end.

Lemma html_escape_clean (value : string) (c : ascii) :
  In c escaped_chars -> mem_char c (html_escape value) = false.
Proof.
  intros [<- | [<- | [<- | [<- | []]]]]; unfold html_escape;
    rewrite !mem_char_replace; cbn -[mem_char];
    repeat match goal with
           | |- context [mem_char ?c ?s] =>
               lazymatch s with
               | value => fail
               | _ => let b := eval vm_compute in (mem_char c s) in
                      change (mem_char c s) with b
               end
           end;
    split_atoms value; reflexivity.
Qed.

Lemma html_escape_semicolon (value : string) :
  mem_char "<" value || mem_char ">" value || mem_char dquote_char value = true ->
  mem_char ";" (html_escape value) = true.
Proof.
  unfold html_escape. rewrite !mem_char_replace. cbn -[mem_char].
  repeat match goal with
         | |- context [mem_char ?c ?s] =>
             lazymatch s with
             | value => fail
             | _ => let b := eval vm_compute in (mem_char c s) in
                    change (mem_char c s) with b
             end
         end.
  split_atoms value; cbn; intros H; try reflexivity; discriminate H.
Qed.

Lemma html_escape_plain (value : string) :
  (forall c, In c escaped_chars -> mem_char c value = false) ->
  html_escape value = value.
Proof.
  intros H. unfold html_escape.
  rewrite (replace_absent "<"), (replace_absent ">"), (replace_absent dquote_char),
    (replace_absent squote_char); try reflexivity; apply H; cbn; auto.
Qed.

(** ** Whitespace: strip and split *)

Lemma isspace_eqb (c d : ascii) :
  isspace c = false -> isspace d = true -> Ascii.eqb c d = false.
Proof.
  intros Hc Hd. destruct (Ascii.eqb c d) eqn:E; [|reflexivity].
  apply Ascii.eqb_eq in E. subst d. congruence.
Qed.

Lemma is_empty_rstrip (s : string) : is_empty (rstrip s) = negb (has_nonspace s).
Proof.
  induction s as [|c s IH]; cbn [rstrip has_nonspace]; [reflexivity|].
  rewrite IH. destruct (isspace c), (has_nonspace s); reflexivity.
Qed.

Lemma has_nonspace_lstrip (s : string) : has_nonspace (lstrip s) = has_nonspace s.
Proof.
  induction s as [|c s IH]; cbn [lstrip]; [reflexivity|].
  destruct (isspace c) eqn:E; [|reflexivity].
  cbn [has_nonspace]. rewrite E. exact IH.
Qed.

Lemma has_nonspace_rstrip (s : string) : has_nonspace (rstrip s) = has_nonspace s.
Proof.
  induction s as [|c s IH]; cbn [rstrip]; [reflexivity|].
  rewrite is_empty_rstrip.
  destruct (isspace c) eqn:E; destruct (has_nonspace s) eqn:Es; cbn [andb negb];
    cbn [has_nonspace]; rewrite ?E, ?IH, ?Es; reflexivity.
Qed.

Lemma is_empty_strip (s : string) : is_empty (strip s) = negb (has_nonspace s).
Proof. unfold strip. rewrite is_empty_rstrip, has_nonspace_lstrip. reflexivity. Qed.

Lemma has_nonspace_strip (s : string) : has_nonspace (strip s) = has_nonspace s.
Proof. unfold strip. rewrite has_nonspace_rstrip, has_nonspace_lstrip. reflexivity. Qed.

Lemma mem_char_lstrip (c : ascii) (s : string) :
  isspace c = false -> mem_char c (lstrip s) = mem_char c s.
Proof.
  intros Hc. induction s as [|d s IH]; cbn [lstrip]; [reflexivity|].
  destruct (isspace d) eqn:Ed; [|reflexivity].
  cbn [mem_char]. rewrite (isspace_eqb c d Hc Ed). exact IH.
Qed.

Lemma mem_char_rstrip (c : ascii) (s : string) :
  isspace c = false -> mem_char c (rstrip s) = mem_char c s.
Proof.
  intros Hc. induction s as [|d s IH]; cbn [rstrip]; [reflexivity|].
  destruct (isspace d && is_empty (rstrip s)) eqn:E.
  - apply andb_true_iff in E. destruct E as [Ed Er]. cbn [mem_char].
    rewrite (isspace_eqb c d Hc Ed), <- IH.
    destruct (rstrip s); [reflexivity | discriminate].
  - cbn [mem_char]. rewrite IH. reflexivity.
Qed.

Lemma mem_char_strip (c : ascii) (s : string) :
  isspace c = false -> mem_char c (strip s) = mem_char c s.
Proof.
  intros Hc. unfold strip. rewrite (mem_char_rstrip c _ Hc). apply mem_char_lstrip. exact Hc.
Qed.

Lemma lstrip_fixed (s : string) :
  match s with EmptyString => True | String c _ => isspace c = false end ->
  lstrip s = s.
Proof. destruct s as [|c s]; cbn [lstrip]; [reflexivity|]. intros ->. reflexivity. Qed.

Lemma lstrip_head (s : string) :
  match lstrip s with EmptyString => True | String c _ => isspace c = false end.
Proof.
  induction s as [|c s IH]; cbn [lstrip]; [exact I|].
  destruct (isspace c) eqn:E; [exact IH | exact E].
Qed.

Lemma rstrip_head (s : string) :
  match s with EmptyString => True | String c _ => isspace c = false end ->
  match rstrip s with EmptyString => True | String c _ => isspace c = false end.
Proof.
  destruct s as [|c s]; cbn [rstrip]; [trivial|]. intros E. rewrite E. exact E.
Qed.

Lemma rstrip_idempotent (s : string) : rstrip (rstrip s) = rstrip s.
Proof.
  induction s as [|c s IH]; cbn [rstrip]; [reflexivity|].
  destruct (isspace c && is_empty (rstrip s)) eqn:E; [reflexivity|].
  cbn [rstrip]. rewrite IH, E. reflexivity.
Qed.

Lemma strip_idempotent (s : string) : strip (strip s) = strip s.
Proof.
  unfold strip. rewrite (lstrip_fixed (rstrip (lstrip s))).
  - apply rstrip_idempotent.
  - apply rstrip_head. apply lstrip_head.
Qed.

Lemma has_nonspace_app (a b : string) :
  has_nonspace (a ++ b) = has_nonspace a || has_nonspace b.
Proof.
  induction a as [|c a IH]; cbn [append has_nonspace]; [reflexivity|].
  rewrite IH. apply orb_assoc.
Qed.

Lemma has_nonspace_replace (c : ascii) (by_ s : string) :
  isspace c = false -> has_nonspace by_ = true ->
  has_nonspace (replace c by_ s) = has_nonspace s.
Proof.
  intros Hc Hby. induction s as [|d s IH]; cbn [replace]; [reflexivity|].
  destruct (Ascii.eqb c d) eqn:E.
  - apply Ascii.eqb_eq in E. subst d. rewrite has_nonspace_app, Hby.
    cbn [has_nonspace]. rewrite Hc. reflexivity.
  - cbn [has_nonspace]. rewrite IH. reflexivity.
Qed.

Lemma has_nonspace_html_escape (value : string) :
  has_nonspace (html_escape value) = has_nonspace value.
Proof.
  unfold html_escape. rewrite !has_nonspace_replace; reflexivity.
Qed.

Lemma isspace_lower_char (c : ascii) : isspace (lower_char c) = isspace c.
Proof. destruct c as [[] [] [] [] [] [] [] []]; reflexivity. Qed.

Lemma is_empty_app_char (cur : string) (c : ascii) :
  is_empty (cur ++ String c EmptyString) = false.
Proof. destruct cur; reflexivity. Qed.

Lemma split_from_length_lower (s : string) :
  forall cur cur' : string,
    is_empty cur = is_empty cur' ->
    List.length (split_from cur (lower s)) = List.length (split_from cur' s).
Proof.
  induction s as [|c s IH]; intros cur cur' H; cbn [lower split_from].
  - rewrite H. destruct (is_empty cur'); reflexivity.
  - rewrite isspace_lower_char. destruct (isspace c).
    + rewrite H. destruct (is_empty cur'); cbn [List.length];
        rewrite (IH EmptyString EmptyString eq_refl); reflexivity.
    + apply IH. rewrite !is_empty_app_char. reflexivity.
Qed.

Lemma split_from_nonempty (s : string) :
  forall cur : string,
    is_empty cur = false \/ has_nonspace s = true -> split_from cur s <> [].
Proof.
  induction s as [|c s IH]; intros cur H; cbn [split_from].
  - destruct H as [H | H]; [rewrite H; discriminate | discriminate H].
  - cbn [has_nonspace] in H. destruct (isspace c).
    + destruct (is_empty cur) eqn:E; [|discriminate].
      apply IH. right. destruct H as [H | H]; [discriminate H | exact H].
    + apply IH. left. apply is_empty_app_char.
Qed.

Lemma split_from_terms (s : string) :
  forall cur : string, Forall (fun term => term <> EmptyString) (split_from cur s).
Proof.
  induction s as [|c s IH]; intros cur; cbn [split_from].
  - destruct cur; cbn [is_empty]; constructor; [discriminate | constructor].
  - destruct (isspace c); [|apply IH].
    destruct cur; cbn [is_empty]; [apply IH|].
    constructor; [discriminate | apply IH].
Qed.

Lemma validate_string_inv (value field_name : string) (min_length : nat)
    (max_length : option nat) (allow_empty : bool) (pattern : option regex) (v : string) :
  validate_string value field_name min_length max_length allow_empty pattern true = Ok v ->
  (negb allow_empty && is_empty (strip value)) = false
  /\ (min_length <= String.length value <= or_default max_length MAX_STRING_LENGTH)%nat
  /\ sanitize_string value field_name = Ok v.
Proof.
  unfold validate_string.
  destruct (negb allow_empty && is_empty (strip value)); [discriminate|].
  destruct (String.length value <? min_length)%nat eqn:E1; [discriminate|].
  destruct (or_default max_length MAX_STRING_LENGTH <? String.length value)%nat eqn:E2;
    [discriminate|].
  destruct (match pattern with Some r => negb (re_match r value) | None => false end);
    [discriminate|].
  intros H. apply Nat.ltb_ge in E1, E2. repeat split; assumption.
Qed.

Lemma sanitize_string_inv (value field_name v : string) :
  sanitize_string value field_name = Ok v ->
  v = strip (html_escape value)
  /\ forall pattern,
       In pattern (SQL_INJECTION_PATTERNS ++ XSS_PATTERNS ++ PATH_TRAVERSAL_PATTERNS)%list ->
       re_search_ignorecase pattern value = false.
Proof.
  intros H. split.
  - unfold sanitize_string in H.
    repeat match type of H with
           | (if ?b then _ else _) = _ => destruct b; [discriminate|]
           end.
    injection H as <-. reflexivity.
  - intros pattern Hin.
    destruct (re_search_ignorecase pattern value) eqn:E; [|reflexivity].
    rewrite (sanitize_string_rejects value field_name pattern Hin E) in H. discriminate.
Qed.

(** X9.  What [validate_string] hands back when it sanitises: the input,
    with its four special characters replaced by entities, stripped.  The
    result holds none of the four characters and no surrounding whitespace;
    it is not empty unless empty values are allowed; the length bounds were
    checked on the input. *)
Theorem validate_string_sanitized (value field_name : string) (min_length : nat)
    (max_length : option nat) (allow_empty : bool) (pattern : option regex) (v : string) :
  validate_string value field_name min_length max_length allow_empty pattern true = Ok v ->
  v = strip (html_escape value)
  /\ (min_length <= String.length value <= or_default max_length MAX_STRING_LENGTH)%nat
  /\ (forall c, In c escaped_chars -> mem_char c v = false)
  /\ strip v = v
  /\ (allow_empty = false -> v <> EmptyString).
Proof.
  intros H. apply validate_string_inv in H. destruct H as [He [Hlen Hs]].
  apply sanitize_string_inv in Hs. destruct Hs as [-> _].
  split; [reflexivity|]. split; [exact Hlen|]. split; [|split].
  - intros c Hc. rewrite mem_char_strip.
    + apply html_escape_clean. exact Hc.
    + destruct Hc as [<- | [<- | [<- | [<- | []]]]]; reflexivity.
  - apply strip_idempotent.
  - intros -> E. cbn [negb andb] in He. rewrite is_empty_strip in He.
    assert (F : is_empty (strip (html_escape value)) = true) by (rewrite E; reflexivity).
    rewrite is_empty_strip, has_nonspace_html_escape in F.
    rewrite F in He. discriminate.
Qed.

(** [validate_string_sanitized] on an assistant name with a quoted word and
    surrounding blanks. *)
Lemma validate_string_sanitized_witness :
  let value := String " " (String dquote_char ("GPT" ++ String dquote_char " 4 ")) in
  let v := "&quot;GPT&quot; 4" in
  v = strip (html_escape value)
  /\ (1 <= String.length value <= or_default (Some 100) MAX_STRING_LENGTH)%nat
  /\ (forall c, In c escaped_chars -> mem_char c v = false)
  /\ strip v = v
  /\ (false = false -> v <> EmptyString).
Proof.
  cbn zeta.
  apply (validate_string_sanitized
           (String " " (String dquote_char ("GPT" ++ String dquote_char " 4 ")))
           "assistant_name" 1 (Some 100) false None).
  vm_compute. reflexivity.
Defined.

(** X10.  A query that [validate_search_query] accepts has between 1 and 500
    characters, and the term list the endpoints derive from the validated
    query (lowered, split on whitespace) has between 1 and 50 terms, none of
    them empty: the division by the number of terms never divides by zero. *)
Theorem validated_query_terms (query v : string) :
  validate_search_query query = Ok v ->
  (1 <= String.length query <= 500)%nat
  /\ v = strip (html_escape query)
  /\ (1 <= List.length (split (lower v)) <= 50)%nat
  /\ Forall (fun term => term <> EmptyString) (split (lower v)).
Proof.
  unfold validate_search_query.
  destruct (validate_string query "search_query" 1 (Some MAX_QUERY_LENGTH) false None true)
    as [v0|] eqn:E; cbn [bind]; [|discriminate].
  destruct (50 <? List.length (split v0))%nat eqn:E50; [discriminate|].
  intros H. injection H as <-. apply Nat.ltb_ge in E50.
  apply validate_string_inv in E. destruct E as [He [Hlen Hs]].
  apply sanitize_string_inv in Hs. destruct Hs as [Hv _].
  split; [exact Hlen|]. split; [exact Hv|].
  assert (L : List.length (split (lower v0)) = List.length (split v0)).
  { apply split_from_length_lower. reflexivity. }
  split; [|apply split_from_terms].
  rewrite L. split; [|exact E50].
  assert (N : split v0 <> []).
  { apply split_from_nonempty. right. rewrite Hv, has_nonspace_strip, has_nonspace_html_escape.
    cbn [negb andb] in He. rewrite is_empty_strip in He.
    destruct (has_nonspace query); [reflexivity | discriminate He]. }
  destruct (split v0); [contradiction N; reflexivity | cbn; lia].
Qed.

(** [validated_query_terms] on a two-word query. *)
Lemma validated_query_terms_witness :
  (1 <= String.length "  Rust Lifetimes " <= 500)%nat
  /\ "Rust Lifetimes" = strip (html_escape "  Rust Lifetimes ")
  /\ (1 <= List.length (split (lower "Rust Lifetimes")) <= 50)%nat
  /\ Forall (fun term => term <> EmptyString) (split (lower "Rust Lifetimes")).
Proof.
  apply (validated_query_terms "  Rust Lifetimes " "Rust Lifetimes").
  vm_compute. reflexivity.
Defined.

(** The term list of a validated query is not empty. *)
Lemma validated_terms_nonempty (query v : string) :
  validate_search_query query = Ok v -> split (lower v) <> [].
Proof.
  unfold validate_search_query.
  destruct (validate_string query "search_query" 1 (Some MAX_QUERY_LENGTH) false None true)
    as [v0|] eqn:E; cbn [bind]; [|discriminate].
  destruct (50 <? List.length (split v0))%nat; [discriminate|].
  intros H. injection H as <-.
  apply validate_string_inv in E. destruct E as [He [_ Hs]].
  apply sanitize_string_inv in Hs. destruct Hs as [Hv _].
  assert (N : split v0 <> []).
  { apply split_from_nonempty. right. rewrite Hv, has_nonspace_strip, has_nonspace_html_escape.
    cbn [negb andb] in He. rewrite is_empty_strip in He.
    destruct (has_nonspace query); [reflexivity | discriminate He]. }
  intros Hnil. apply N.
  pose proof (split_from_length_lower v0 EmptyString EmptyString eq_refl) as L.
  fold (split (lower v0)) in L. fold (split v0) in L. rewrite Hnil in L.
  destruct (split v0); [reflexivity | discriminate L].
Qed.

(** ** The matcher finds only matches *)

Lemma nullable_matches (r : regex) : nullable r = true -> matches r EmptyString.
Proof.
  induction r as [| | p | r1 IH1 r2 IH2 | r1 IH1 r2 IH2 | r IH]; cbn [nullable]; intros H;
    try discriminate.
  - constructor.
  - apply andb_true_iff in H. destruct H as [H1 H2].
    change EmptyString with (EmptyString ++ EmptyString)%string.
    constructor; auto.
  - destruct (nullable r1); [apply matches_alt_l | apply matches_alt_r]; auto.
  - constructor.
Qed.

Lemma cat_smart_inv (r1 r2 : regex) (s : string) :
  matches (cat r1 r2) s -> matches (Cat r1 r2) s.
Proof.
  destruct r1, r2; cbn [cat]; intros H; try exact H;
    try (exfalso; exact (matches_Void _ H));
    exact (matches_cat Eps _ EmptyString s matches_eps H).
Qed.

Lemma alt_smart_inv (r1 r2 : regex) (s : string) :
  matches (alt r1 r2) s -> matches (Alt r1 r2) s.
Proof.
  destruct r1, r2; cbn [alt]; intros H; try exact H;
    try (exfalso; exact (matches_Void _ H));
    solve [apply matches_alt_r; exact H | apply matches_alt_l; exact H].
Qed.

Lemma matches_cat_inv (r1 r2 : regex) (s : string) :
  matches (Cat r1 r2) s ->
  exists s1 s2, s = (s1 ++ s2)%string /\ matches r1 s1 /\ matches r2 s2.
Proof.
  intros H. inversion H as [| | ? ? s1 s2 H1 H2 | | | |]; subst.
  exists s1, s2. auto.
Qed.

Lemma deriv_matches (r : regex) :
  forall (c : ascii) (s : string), matches (deriv c r) s -> matches r (String c s).
Proof.
  induction r as [| | p | r1 IH1 r2 IH2 | r1 IH1 r2 IH2 | r IH]; intros c s H;
    cbn [deriv] in H.
  - exfalso. exact (matches_Void _ H).
  - exfalso. exact (matches_Void _ H).
  - destruct (p c) eqn:E; [|exfalso; exact (matches_Void _ H)].
    inversion H; subst. constructor. exact E.
  - assert (L : matches (cat (deriv c r1) r2) s -> matches (Cat r1 r2) (String c s)).
    { intros H'. apply cat_smart_inv, matches_cat_inv in H'.
      destruct H' as [s1 [s2 [-> [H1 H2]]]].
      change (String c (s1 ++ s2)) with (String c s1 ++ s2)%string.
      constructor; [apply IH1; exact H1 | exact H2]. }
    destruct (nullable r1) eqn:N; [|apply L; exact H].
    apply alt_smart_inv in H. inversion H; subst; [apply L; assumption|].
    change (String c s) with (EmptyString ++ String c s)%string.
    constructor; [apply nullable_matches; exact N | apply IH2; assumption].
  - apply alt_smart_inv in H.
    inversion H; subst; [apply matches_alt_l; apply IH1 | apply matches_alt_r; apply IH2];
      assumption.
  - apply cat_smart_inv, matches_cat_inv in H. destruct H as [s1 [s2 [-> [H1 H2]]]].
    change (String c (s1 ++ s2)) with (String c s1 ++ s2)%string.
    apply matches_star_cons; [apply IH; exact H1 | exact H2].
Qed.

Lemma fullmatch_sound (s : string) :
  forall r : regex, fullmatch r s = true -> matches r s.
Proof.
  induction s as [|c s IH]; intros r H; cbn [fullmatch] in H.
  - apply nullable_matches. exact H.
  - apply deriv_matches. apply IH. exact H.
Qed.

Lemma re_search_sound (r : regex) (s : string) :
  re_search r s = true ->
  exists a m b, s = (a ++ m ++ b)%string /\ matches r m.
Proof.
  unfold re_search. intros H. apply fullmatch_sound, matches_cat_inv in H.
  destruct H as [a [x [-> [_ H]]]]. apply matches_cat_inv in H.
  destruct H as [m [b [-> [H _]]]]. exists a, m, b. auto.
Qed.

(** A match found in a slice of a string is found in the string. *)
Lemma re_search_slice (r : regex) (x s y : string) :
  re_search r s = true -> re_search r (x ++ s ++ y) = true.
Proof.
  intros H. apply re_search_sound in H. destruct H as [a [m [b [-> Hm]]]].
  replace (x ++ (a ++ m ++ b) ++ y)%string with ((x ++ a) ++ m ++ (b ++ y))%string.
  - apply re_search_complete. exact Hm.
  - rewrite !append_assoc. reflexivity.
Qed.

(** ** Validating a validated query again *)

Lemma lower_app (a b : string) : lower (a ++ b) = (lower a ++ lower b)%string.
Proof.
  induction a as [|c a IH]; cbn [append lower]; [reflexivity | rewrite IH; reflexivity].
Qed.

Lemma mem_char_lower (c : ascii) (s : string) :
  lower_char c = c -> mem_char c s = true -> mem_char c (lower s) = true.
Proof.
  intros Hc. induction s as [|d s IH]; cbn [lower mem_char]; [trivial|].
  destruct (Ascii.eqb c d) eqn:E.
  - apply Ascii.eqb_eq in E. subst d. rewrite Hc, Ascii.eqb_refl. reflexivity.
  - cbn [orb]. intros H. rewrite (IH H). apply orb_true_r.
Qed.

Lemma lstrip_suffix (s : string) : exists x, s = (x ++ lstrip s)%string.
Proof.
  induction s as [|c s [x IH]]; cbn [lstrip]; [exists EmptyString; reflexivity|].
  destruct (isspace c).
  - exists (String c x). cbn [append]. rewrite <- IH. reflexivity.
  - exists EmptyString. reflexivity.
Qed.

Lemma rstrip_prefix (s : string) : exists y, s = (rstrip s ++ y)%string.
Proof.
  induction s as [|c s [y IH]]; cbn [rstrip]; [exists EmptyString; reflexivity|].
  destruct (isspace c && is_empty (rstrip s)).
  - exists (String c s). reflexivity.
  - exists y. cbn [append]. rewrite <- IH. reflexivity.
Qed.

Lemma strip_slice (s : string) : exists x y, s = (x ++ strip s ++ y)%string.
Proof.
  unfold strip. destruct (lstrip_suffix s) as [x Hx].
  destruct (rstrip_prefix (lstrip s)) as [y Hy].
  exists x, y. rewrite <- Hy. exact Hx.
Qed.

Lemma length_app (a b : string) :
  String.length (a ++ b) = (String.length a + String.length b)%nat.
Proof.
  induction a as [|c a IH]; cbn [append String.length]; [reflexivity | rewrite IH; reflexivity].
Qed.

Lemma length_strip (s : string) : (String.length (strip s) <= String.length s)%nat.
Proof.
  destruct (strip_slice s) as [x [y H]].
  rewrite H at 2. rewrite !length_app. lia.
Qed.

Lemma sanitize_string_accepts (value field_name : string) :
  (forall pattern,
     In pattern (SQL_INJECTION_PATTERNS ++ XSS_PATTERNS ++ PATH_TRAVERSAL_PATTERNS)%list ->
     re_search_ignorecase pattern value = false) ->
  sanitize_string value field_name = Ok (strip (html_escape value)).
Proof.
  intros H. unfold sanitize_string.
  assert (F : forall l,
            incl l (SQL_INJECTION_PATTERNS ++ XSS_PATTERNS ++ PATH_TRAVERSAL_PATTERNS)%list ->
            existsb (fun pattern => re_search_ignorecase pattern value) l = false).
  { intros l Hl.
    destruct (existsb (fun pattern => re_search_ignorecase pattern value) l) eqn:E;
      [|reflexivity].
    apply existsb_exists in E. destruct E as [x [Hin Hx]].
    rewrite (H x (Hl x Hin)) in Hx. discriminate. }
  rewrite (F SQL_INJECTION_PATTERNS), (F XSS_PATTERNS), (F PATH_TRAVERSAL_PATTERNS).
  - reflexivity.
  - intros x Hx. apply in_or_app. right. apply in_or_app. right. exact Hx.
  - intros x Hx. apply in_or_app. right. apply in_or_app. left. exact Hx.
  - intros x Hx. apply in_or_app. left. exact Hx.
Qed.

(** A value that holds one of the three characters that become entities is
    refused when its sanitised form is validated again: the entity ends in a
    semicolon. *)
Lemma revalidation_fails (query v : string) :
  validate_search_query query = Ok v ->
  mem_char "<" query || mem_char ">" query || mem_char dquote_char query = true ->
  validate_search_query v = raise_ValidationError "search_query".
Proof.
  intros Hv Hc. unfold validate_search_query in Hv.
  destruct (validate_string query "search_query" 1 (Some MAX_QUERY_LENGTH) false None true)
    as [v0|] eqn:E; cbn [bind] in Hv; [|discriminate].
  destruct (50 <? List.length (split v0))%nat; [discriminate|]. injection Hv as <-.
  apply validate_string_inv in E. destruct E as [_ [_ Hs]].
  apply sanitize_string_inv in Hs. destruct Hs as [Hv _].
  assert (M : mem_char ";" (lower v0) = true).
  { apply mem_char_lower; [reflexivity|]. rewrite Hv, mem_char_strip; [|reflexivity].
    apply html_escape_semicolon. exact Hc. }
  apply mem_char_split in M. destruct M as [a [b M]].
  unfold validate_search_query.
  rewrite (validate_string_rejects _ _ _ _ _ _
             (sanitize_string_blocked v0 a ";" b ltac:(cbn; auto 20) M "search_query")).
  reflexivity.
Qed.

Lemma revalidation_succeeds (query v : string) :
  validate_search_query query = Ok v ->
  mem_char "<" query || mem_char ">" query || mem_char dquote_char query = false ->
  validate_search_query v = Ok v.
Proof.
  intros Hv Hc. unfold validate_search_query in Hv.
  destruct (validate_string query "search_query" 1 (Some MAX_QUERY_LENGTH) false None true)
    as [v0|] eqn:E; cbn [bind] in Hv; [|discriminate].
  destruct (50 <? List.length (split v0))%nat eqn:E50; [discriminate|]. injection Hv as <-.
  apply validate_string_inv in E. destruct E as [He [Hlen Hs]].
  pose proof (sanitize_string_inv _ _ _ Hs) as [Hv Hp].
  apply orb_false_iff in Hc. destruct Hc as [Hc Hd]. apply orb_false_iff in Hc.
  destruct Hc as [Hl Hg].
  assert (Hq : mem_char squote_char query = false).
  { destruct (mem_char squote_char query) eqn:M; [|reflexivity].
    apply (mem_char_lower squote_char) in M; [|reflexivity].
    apply mem_char_split in M. destruct M as [a [b M]].
    rewrite (sanitize_string_blocked query a squote b ltac:(cbn; auto 20) M "search_query")
      in Hs. discriminate. }
  assert (Hplain : forall c, In c escaped_chars -> mem_char c query = false).
  { intros c [<- | [<- | [<- | [<- | []]]]]; assumption. }
  rewrite (html_escape_plain query Hplain) in Hv.
  assert (Hplain' : forall c, In c escaped_chars -> mem_char c v0 = false).
  { intros c Hin. rewrite Hv, mem_char_strip; [apply Hplain; exact Hin|].
    destruct Hin as [<- | [<- | [<- | [<- | []]]]]; reflexivity. }
  cbn [negb andb] in He.
  assert (Hne : is_empty v0 = false) by (rewrite Hv; exact He).
  unfold validate_search_query, validate_string. cbn [negb andb].
  replace (strip v0) with v0 by (rewrite Hv, strip_idempotent; reflexivity).
  rewrite Hne.
  assert (L1 : (String.length v0 <? 1)%nat = false).
  { apply Nat.ltb_ge. destruct v0; [discriminate Hne | cbn; lia]. }
  assert (L2 : (or_default (Some MAX_QUERY_LENGTH) MAX_STRING_LENGTH <? String.length v0)%nat
               = false).
  { apply Nat.ltb_ge. pose proof (length_strip query) as L. rewrite <- Hv in L. lia. }
  rewrite L1, L2.
  rewrite sanitize_string_accepts.
  - rewrite (html_escape_plain v0 Hplain').
    replace (strip v0) with v0 by (rewrite Hv, strip_idempotent; reflexivity).
    cbn [bind]. rewrite E50. reflexivity.
  - intros pattern Hin.
    destruct (re_search_ignorecase pattern v0) eqn:R; [|reflexivity].
    rewrite <- (Hp pattern Hin). unfold re_search_ignorecase in *.
    destruct (strip_slice query) as [x [y Hxy]]. rewrite <- Hv in Hxy.
    rewrite Hxy, !lower_app. symmetry. apply re_search_slice. exact R.
Qed.

(** X11.  Validating an accepted query a second time, as the endpoints that
    call one another do: the validated form of a query without [<], [>] and
    the double quote is accepted again and unchanged; the validated form of
    a query with one of them is refused. *)
Theorem revalidation (query v : string) :
  validate_search_query query = Ok v ->
  validate_search_query v
  = if mem_char "<" query || mem_char ">" query || mem_char dquote_char query
    then raise_ValidationError "search_query"
    else Ok v.
Proof.
  intros H.
  destruct (mem_char "<" query || mem_char ">" query || mem_char dquote_char query) eqn:E.
  - apply (revalidation_fails query v H E).
  - apply (revalidation_succeeds query v H E).
Qed.

(** [revalidation] on a comparison: accepted once, refused the second time. *)
Lemma revalidation_witness :
  validate_search_query "x &gt; 1" = raise_ValidationError "search_query".
Proof.
  apply (revalidation "x > 1" "x &gt; 1"). vm_compute. reflexivity.
Defined.

(** ** Every validator raises a [ValidationError] that names a field *)

Lemma validate_string_err (value field_name : string) (min_length : nat)
    (max_length : option nat) (allow_empty : bool) (pattern : option regex)
    (sanitize : bool) (e : exn) :
  validate_string value field_name min_length max_length allow_empty pattern sanitize = Err e ->
  e = Api (ValidationError (Some field_name)).
Proof.
  unfold validate_string, sanitize_string, raise_ValidationError.
  repeat match goal with
         | |- (if ?b then _ else _) = _ -> _ => destruct b
         end;
    intros H; inversion H; reflexivity.
Qed.

Lemma validate_search_query_err (query : string) (e : exn) :
  validate_search_query query = Err e -> e = Api (ValidationError (Some "search_query")).
Proof.
  unfold validate_search_query.
  destruct (validate_string query "search_query" 1 (Some MAX_QUERY_LENGTH) false None true)
    as [v|e0] eqn:E; cbn [bind].
  - destruct (50 <? List.length (split v))%nat; intros H; inversion H. reflexivity.
  - intros H. inversion H. subst e0. apply (validate_string_err _ _ _ _ _ _ _ _ E).
Qed.

Lemma validate_float_err (value : Q) (field_name : string) (min_value max_value : option Q)
    (e : exn) :
  validate_float value field_name min_value max_value = Err e ->
  e = Api (ValidationError (Some field_name)).
Proof.
  unfold validate_float, raise_ValidationError.
  repeat match goal with
         | |- (if ?b then _ else _) = _ -> _ => destruct b
         end;
    intros H; inversion H; reflexivity.
Qed.

Lemma validate_integer_err (value : Z) (field_name : string) (min_value max_value : option Z)
    (e : exn) :
  validate_integer value field_name min_value max_value = Err e ->
  e = Api (ValidationError (Some field_name)).
Proof.
  unfold validate_integer, raise_ValidationError.
  repeat match goal with
         | |- (if ?b then _ else _) = _ -> _ => destruct b
         end;
    intros H; inversion H; reflexivity.
Qed.

(** ** validate_list *)

Lemma validate_items_spec {A B : Type} (item_validator : A -> raising B)
    (field_name : string) (items : list A) :
  forall i : nat,
    match validate_items item_validator field_name i items with
    | Ok vs => Forall2 (fun x v => item_validator x = Ok v) items vs
    | Err e =>
        exists k x e',
          nth_error items k = Some x
          /\ item_validator x = Err e'
          /\ (forall j y, (j < k)%nat -> nth_error items j = Some y ->
                          exists v, item_validator y = Ok v)
          /\ e = match e' with
                 | Api (ValidationError _) =>
                     Api (ValidationError
                            (Some (field_name ++ "[" ++ str_nat (i + k) ++ "]")))
                 | _ => e'
                 end
    end.
Proof.
  induction items as [|item rest IH]; intros i; cbn [validate_items]; [constructor|].
  destruct (item_validator item) as [v|e'] eqn:E.
  - specialize (IH (S i)).
    destruct (validate_items item_validator field_name (S i) rest) as [vs|e]; cbn [bind].
    + constructor; assumption.
    + destruct IH as [k [x [e' [Hk [Hx [Hbefore ->]]]]]].
      exists (S k), x, e'. split; [exact Hk|]. split; [exact Hx|]. split.
      * intros [|j] y Hj Hy; cbn [nth_error] in Hy.
        -- injection Hy as <-. exists v. exact E.
        -- apply (Hbefore j y); [lia | exact Hy].
      * rewrite Nat.add_succ_r. reflexivity.
  - assert (G : forall e,
              e = match e' with
                  | Api (ValidationError _) =>
                      Api (ValidationError
                             (Some (field_name ++ "[" ++ str_nat (i + 0) ++ "]")))
                  | _ => e'
                  end ->
              exists k x e'0,
                nth_error (item :: rest) k = Some x
                /\ item_validator x = Err e'0
                /\ (forall j y, (j < k)%nat -> nth_error (item :: rest) j = Some y ->
                                exists v, item_validator y = Ok v)
                /\ e = match e'0 with
                       | Api (ValidationError _) =>
                           Api (ValidationError
                                  (Some (field_name ++ "[" ++ str_nat (i + k) ++ "]")))
                       | _ => e'0
                       end).
    { intros e He. exists 0%nat, item, e'. split; [reflexivity|]. split; [exact E|].
      split; [intros j y Hj; lia | exact He]. }
    rewrite Nat.add_0_r in G.
    destruct e' as [[f|r|o|s]|n|n]; apply G; reflexivity.
Qed.

(** X12.  [validate_list] checks the length first (a [max_length] of zero
    means the default of 1000) and then validates the items in order.  It
    returns one validated item per input item, in order; otherwise it stops
    at the first item the validator refuses and raises a [ValidationError]
    whose field is the list's name followed by that item's index in
    brackets (an exception of another class passes through unchanged). *)
Theorem validate_list_first_failure {A B : Type} (value : list A) (field_name : string)
    (max_length : option nat) (item_validator : A -> raising B) :
  match validate_list value field_name max_length item_validator with
  | Ok vs =>
      (List.length value <= or_default max_length MAX_LIST_LENGTH)%nat
      /\ Forall2 (fun x v => item_validator x = Ok v) value vs
  | Err e =>
      ((or_default max_length MAX_LIST_LENGTH < List.length value)%nat
       /\ e = Api (ValidationError (Some field_name)))
      \/ ((List.length value <= or_default max_length MAX_LIST_LENGTH)%nat
          /\ exists k x e',
               nth_error value k = Some x
               /\ item_validator x = Err e'
               /\ (forall j y, (j < k)%nat -> nth_error value j = Some y ->
                               exists v, item_validator y = Ok v)
               /\ e = match e' with
                      | Api (ValidationError _) =>
                          Api (ValidationError
                                 (Some (field_name ++ "[" ++ str_nat k ++ "]")))
                      | _ => e'
                      end)
  end.
Proof.
  unfold validate_list.
  destruct (or_default max_length MAX_LIST_LENGTH <? List.length value)%nat eqn:E.
  - apply Nat.ltb_lt in E. left. split; [exact E | reflexivity].
  - apply Nat.ltb_ge in E.
    pose proof (validate_items_spec item_validator field_name value 0) as S.
    destruct (validate_items item_validator field_name 0 value) as [vs|e].
    + split; assumption.
    + right. split; [exact E | exact S].
Qed.

Lemma validate_list_items_err (names : list string) (e : exn) :
  validate_list names "assistant_filter" (Some 20)
    (fun x => validate_string x "assistant_name" 1 (Some 100) true None true) = Err e ->
  exists field, e = Api (ValidationError (Some field)).
Proof.
  unfold validate_list.
  destruct (or_default (Some 20) MAX_LIST_LENGTH <? List.length names)%nat.
  - intros H. inversion H. eexists. reflexivity.
  - pose proof (validate_items_spec
                  (fun x => validate_string x "assistant_name" 1 (Some 100) true None true)
                  "assistant_filter" names 0) as S.
    destruct (validate_items _ "assistant_filter" 0 names) as [vs|e0]; [discriminate|].
    intros H. inversion H. subst e0.
    destruct S as [k [x [e' [_ [Hx [_ ->]]]]]].
    apply validate_string_err in Hx. subst e'. eexists. reflexivity.
Qed.

End ValidationExtra.

(* ===================================================================== *)
(** * Properties of the search endpoints *)
(* ===================================================================== *)

Module SearchFacts.
Import Py ErrorHandling Search SearchSpec ValidationSpec ValidationExtra SearchExtraSpec.

(** ** Validators *)

Lemma validate_integer_ok (value : Z) (field_name : string)
    (min_value max_value : option Z) (v : Z) :
  validate_integer value field_name min_value max_value = Ok v ->
  v = value
  /\ Zlt_opt_min value min_value = false
  /\ Zgt_opt_max value max_value = false.
Proof.
  unfold validate_integer, raise_ValidationError.
  destruct (Zlt_opt_min value min_value); [discriminate|].
  destruct (Zgt_opt_max value max_value); [discriminate|].
  intros H. inversion H. auto.
Qed.




Lemma handle_api_errors_raised {A : Type} (e : exn) (a : A) :
  handle_api_errors (Err e) <> Returned a.
Proof. destruct e as [e|name|name]; discriminate. Qed.

Lemma handle_api_errors_returned {A : Type} (body : raising A) (a : A) :
  handle_api_errors body = Returned a -> body = Ok a.
Proof.
  destruct body as [x|e]; intros H.
  - inversion H. reflexivity.
  - exfalso. exact (handle_api_errors_raised e a H).
Qed.

Lemma try_except_ok {A : Type} (body : raising A) (handler : APIError) (a : A) :
  try_except body handler = Ok a -> body = Ok a.
Proof. destruct body; simpl; intros H; inversion H; reflexivity. Qed.

(** ** The context budget (rag_query, step 2) *)

Section Budget.

Variable db : Database.
Variable search_terms : list string.
Variable include_conversation_context : bool.
Variable max_tokens : Z.

Lemma estimated_tokens_nonneg (text : string) : (0 <= estimated_tokens text)%Z.
Proof. unfold estimated_tokens. apply Z.div_pos; lia. Qed.

Lemma build_contexts_invariant (rows : list (Message * Thread * Assistant)) :
  forall total_tokens : Z,
    (total_tokens <= max_tokens)%Z ->
    let assembled := build_contexts db search_terms include_conversation_context
                                    max_tokens rows total_tokens in
    (snd assembled <= max_tokens)%Z
    /\ snd assembled = (total_tokens + tokens_of (fst assembled))%Z
    /\ exists n, fst assembled
                 = map (make_context db search_terms include_conversation_context)
                       (firstn n rows).
Proof.
  cbn zeta.
  induction rows as [|row rest IH]; intros total Hle; cbn [build_contexts].
  - cbn [fst snd tokens_of fold_right]. repeat split; [lia | lia | exists 0%nat; reflexivity].
  - set (ctx := make_context db search_terms include_conversation_context row).
    destruct (max_tokens <? total + estimated_tokens (ctx_content ctx))%Z eqn:E.
    + cbn [fst snd tokens_of fold_right].
      repeat split; [lia | lia | exists 0%nat; reflexivity].
    + apply Z.ltb_ge in E. specialize (IH (total + estimated_tokens (ctx_content ctx))%Z E).
      destruct (build_contexts db search_terms include_conversation_context max_tokens rest
                  (total + estimated_tokens (ctx_content ctx))%Z) as [cs t] eqn:Er.
      cbn [fst snd] in *. destruct IH as [H1 [H2 [n H3]]].
      repeat split.
      * exact H1.
      * cbn [tokens_of fold_right]. fold (tokens_of cs). lia.
      * exists (S n). cbn [firstn map]. rewrite H3. reflexivity.
Qed.

End Budget.

Lemma rag_query_returned (env : Env) (q : RAGQuery) (session session' : Session)
    (r : RAGResponse) :
  rag_query env q session = (Returned r, session') ->
  exists validated_query assistant_filter,
    validate_search_query (rq_query q) = Ok validated_query
    /\ Z_between 500 8000 (rq_max_context_tokens q) = true
    /\ (contexts r, total_context_tokens r)
       = build_contexts (database session) (split (lower validated_query))
           (rq_include_conversation_context q) (rq_max_context_tokens q)
           (rag_message_query env (database session) (split (lower validated_query))
              assistant_filter (rq_max_results q))
           0%Z.
Proof.
  unfold rag_query. destruct (rag_query_body env q session) as [body s1] eqn:Eb.
  intros H. inversion H as [[Hr Hs]]. subst s1.
  apply handle_api_errors_returned in Hr. subst body.
  unfold rag_query_body, rag_validate in Eb.
  destruct (validate_search_query (rq_query q)) as [vq|] eqn:Eq; cbn [bind] in Eb;
    [|discriminate].
  destruct (validate_integer (rq_max_context_tokens q) "max_context_tokens"
              (Some 500%Z) (Some 8000%Z)) as [mt|] eqn:Emt; cbn [bind] in Eb;
    [|discriminate].
  destruct (validate_integer (rq_max_results q) "max_results" (Some 1%Z) (Some 50%Z))
    as [mr|] eqn:Emr; cbn [bind] in Eb; [|discriminate].
  destruct (validate_float (rq_temperature q) "temperature" (Some 0%Q) (Some 2%Q))
    as [te|] eqn:Ete; cbn [bind] in Eb; [|discriminate].
  destruct (validate_assistant_filter (rq_assistant_filter q)) as [af|] eqn:Eaf;
    cbn [bind] in Eb; [|discriminate].
  apply validate_integer_ok in Emt. destruct Emt as [-> [Hlo Hhi]].
  apply validate_integer_ok in Emr. destruct Emr as [-> _].
  destruct (next_fault session) as [fault s1].
  inversion Eb as [[Et Es]]. clear Eb.
  apply try_except_ok in Et.
  destruct fault; [discriminate|].
  unfold rag_query_try in Et.
  destruct (pydantic_init HybridSearchQuery_valid _) as [hq|]; cbn [bind] in Et;
    [|discriminate].
  destruct (build_contexts _ _ _ _ _ _) as [cs total] eqn:Ebc.
  destruct (summarize env _) as [ans|]; [|discriminate].
  inversion Et; subst. cbn [contexts total_context_tokens].
  exists vq, af. split; [reflexivity|]. split.
  - unfold Z_between. cbn [Zlt_opt_min Zgt_opt_max] in Hlo, Hhi.
    apply Z.ltb_ge in Hlo. apply Z.ltb_ge in Hhi.
    apply andb_true_iff. split; apply Z.leb_le; assumption.
  - symmetry. exact Ebc.
Qed.

(** C3.  The assembly loop of [rag_query] respects any positive budget: the
    total it reports is at most [max_tokens], equals the sum of the
    [len(content) // 4] estimates of the contexts it kept, and the contexts
    kept are the whole blocks of a prefix of the candidate list (a block that
    does not fit ends the loop and is not included, in part or in whole);
    and whenever [rag_query] returns a response, its
    [total_context_tokens] is at most the request's [max_context_tokens]
    and is that sum. *)
Theorem context_budget_respected (env : Env) (db : Database) (search_terms : list string)
    (include_conversation_context : bool) (max_tokens : Z)
    (candidates : list (Message * Thread * Assistant)) :
  (0 < max_tokens)%Z ->
  let assembled := build_contexts db search_terms include_conversation_context
                                  max_tokens candidates 0%Z in
  ((snd assembled <= max_tokens)%Z
   /\ snd assembled = tokens_of (fst assembled)
   /\ exists n, fst assembled
                = map (make_context db search_terms include_conversation_context)
                      (firstn n candidates))
  /\ (forall q session session' r,
        rq_max_context_tokens q = max_tokens ->
        rag_query env q session = (Returned r, session') ->
        (total_context_tokens r <= max_tokens)%Z
        /\ total_context_tokens r = tokens_of (contexts r)).
Proof.
  intros Hpos assembled. split.
  - destruct (build_contexts_invariant db search_terms include_conversation_context
                max_tokens candidates 0%Z) as [H1 [H2 H3]]; [lia|].
    fold assembled in H1, H2, H3. repeat split; [exact H1 | rewrite H2; lia | exact H3].
  - intros q session session' r Hmax Hret.
    destruct (rag_query_returned env q session session' r Hret)
      as [vq [af [_ [_ Eb]]]].
    rewrite Hmax in Eb.
    destruct (build_contexts_invariant (database session) (split (lower vq))
                (rq_include_conversation_context q) max_tokens
                (rag_message_query env (database session) (split (lower vq)) af
                                   (rq_max_results q)) 0%Z) as [H1 [H2 _]]; [lia|].
    rewrite <- Eb in H1, H2. cbn [fst snd] in H1, H2. split; [exact H1 | rewrite H2; lia].
Qed.

(** [context_budget_respected] at a budget of 500 tokens over the rows that
    match [python] in [db0]. *)
Lemma context_budget_respected_witness :
  let candidates := rag_message_query env0 db0 ["python"] None 10 in
  let assembled := build_contexts db0 ["python"] true 500 candidates 0%Z in
  ((snd assembled <= 500)%Z
   /\ snd assembled = tokens_of (fst assembled)
   /\ exists n, fst assembled = map (make_context db0 ["python"] true) (firstn n candidates))
  /\ (forall q session session' r,
        rq_max_context_tokens q = 500%Z ->
        rag_query env0 q session = (Returned r, session') ->
        (total_context_tokens r <= 500)%Z
        /\ total_context_tokens r = tokens_of (contexts r)).
Proof.
  apply (context_budget_respected env0 db0 ["python"] true 500
           (rag_message_query env0 db0 ["python"] None 10)).
  reflexivity.
Defined.

(** [rag_query] does return on a well-formed request. *)
Example rag_query_returns :
  exists r,
    fst (rag_query env0 (mkRAGQuery "python" 500 10 None true (7 # 10)) session0)
    = Returned r
    /\ map source_id (contexts r) = ["m1"; "m2"]
    /\ total_context_tokens r = 56%Z.
Proof. eexists. split; [vm_compute; reflexivity|]. split; reflexivity. Qed.

(** ** Neighbours in a thread (rag_query, step 2) *)

Lemma pick_first_spec (key : Message -> Z) (rows : list Message) :
  forall acc : option Message,
    let best :=
      fold_left (fun best m =>
                   match best with
                   | None => Some m
                   | Some b => if (key b <? key m)%Z then Some m else best
                   end) rows acc in
    match best with
    | None => acc = None /\ rows = []
    | Some r =>
        (acc = Some r \/ In r rows)
        /\ (forall x, In x rows -> (key x <= key r)%Z)
        /\ (forall a, acc = Some a -> (key a <= key r)%Z)
    end.
Proof.
  induction rows as [|m rows IH]; intros acc; cbn [fold_left].
  - destruct acc as [a|]; [|auto].
    split; [left; reflexivity|]. split; [intros x []|].
    intros a' H. inversion H. subst. apply Z.le_refl.
  - set (acc' := match acc with
                 | None => Some m
                 | Some b => if (key b <? key m)%Z then Some m else acc
                 end).
    specialize (IH acc'). cbn zeta in IH.
    destruct (fold_left _ rows acc') as [r|] eqn:E.
    + destruct IH as [Hin [Hmax Hacc]].
      assert (Hm : (key m <= key r)%Z /\ forall a, acc = Some a -> (key a <= key r)%Z).
      { unfold acc' in Hacc. destruct acc as [b|].
        - destruct (Z.ltb_spec (key b) (key m)).
          + specialize (Hacc m eq_refl). split; [lia|].
            intros a Ha. inversion Ha. subst. lia.
          + specialize (Hacc b eq_refl). split; [lia|].
            intros a Ha. inversion Ha. subst. lia.
        - specialize (Hacc m eq_refl). split; [lia | discriminate]. }
      destruct Hm as [Hm Ha]. split; [|split].
      * destruct Hin as [Hin | Hin]; [|right; right; exact Hin].
        unfold acc' in Hin. destruct acc as [b|].
        -- destruct (key b <? key m)%Z.
           ++ inversion Hin. right. left. reflexivity.
           ++ left. exact Hin.
        -- inversion Hin. right. left. reflexivity.
      * intros x [<- | Hx]; [exact Hm | apply Hmax; exact Hx].
      * exact Ha.
    + destruct IH as [Hacc _]. unfold acc' in Hacc. destruct acc as [b|].
      * destruct (key b <? key m)%Z; discriminate.
      * discriminate.
Qed.

Lemma prev_message_of_spec (db : Database) (message : Message) :
  match prev_message_of db message with
  | None =>
      forall m, In m (messages db) ->
                message_thread_id m = message_thread_id message ->
                (timestamp message <= timestamp m)%Z
  | Some r =>
      In r (messages db)
      /\ message_thread_id r = message_thread_id message
      /\ (timestamp r < timestamp message)%Z
      /\ forall m, In m (messages db) ->
                   message_thread_id m = message_thread_id message ->
                   (timestamp m < timestamp message)%Z ->
                   (timestamp m <= timestamp r)%Z
  end.
Proof.
  unfold prev_message_of, pick_first.
  set (keep := fun m => (message_thread_id m =? message_thread_id message)
                        && (timestamp m <? timestamp message)%Z).
  pose proof (pick_first_spec timestamp (filter keep (messages db)) None) as H.
  cbn zeta in H.
  destruct (fold_left _ (filter keep (messages db)) None) as [r|].
  - destruct H as [[Hin | Hin] [Hmax _]]; [discriminate|].
    apply filter_In in Hin. destruct Hin as [Hin Hk]. unfold keep in Hk.
    apply andb_true_iff in Hk. destruct Hk as [Ht Hts].
    apply String.eqb_eq in Ht. apply Z.ltb_lt in Hts.
    repeat split; auto. intros m Hm Hth Hlt. apply Hmax. apply filter_In.
    split; [exact Hm|]. unfold keep. apply andb_true_iff. split.
    + apply String.eqb_eq. exact Hth.
    + apply Z.ltb_lt. exact Hlt.
  - destruct H as [_ Hnil]. intros m Hm Hth.
    destruct (Z.lt_ge_cases (timestamp m) (timestamp message)) as [Hlt | Hge]; [|lia].
    exfalso. assert (Hin : In m (filter keep (messages db))).
    { apply filter_In. split; [exact Hm|]. unfold keep. apply andb_true_iff. split.
      - apply String.eqb_eq. exact Hth.
      - apply Z.ltb_lt. exact Hlt. }
    rewrite Hnil in Hin. destruct Hin.
Qed.

Lemma next_message_of_spec (db : Database) (message : Message) :
  match next_message_of db message with
  | None =>
      forall m, In m (messages db) ->
                message_thread_id m = message_thread_id message ->
                (timestamp m <= timestamp message)%Z
  | Some r =>
      In r (messages db)
      /\ message_thread_id r = message_thread_id message
      /\ (timestamp message < timestamp r)%Z
      /\ forall m, In m (messages db) ->
                   message_thread_id m = message_thread_id message ->
                   (timestamp message < timestamp m)%Z ->
                   (timestamp r <= timestamp m)%Z
  end.
Proof.
  unfold next_message_of, pick_first.
  set (keep := fun m => (message_thread_id m =? message_thread_id message)
                        && (timestamp message <? timestamp m)%Z).
  pose proof (pick_first_spec (fun m => (- timestamp m)%Z) (filter keep (messages db)) None)
    as H.
  cbn zeta in H.
  assert (Hstep : forall rows acc,
            fold_left (fun best m =>
                         match best with
                         | None => Some m
                         | Some b => if (timestamp m <? timestamp b)%Z then Some m else best
                         end) rows acc
            = fold_left (fun best m =>
                           match best with
                           | None => Some m
                           | Some b => if (- timestamp b <? - timestamp m)%Z then Some m else best
                           end) rows acc).
  { induction rows as [|x rows IHr]; intros acc; [reflexivity|]. cbn [fold_left].
    rewrite IHr. f_equal. destruct acc as [b|]; [|reflexivity].
    destruct (Z.ltb_spec (timestamp x) (timestamp b)),
             (Z.ltb_spec (- timestamp b) (- timestamp x)); try reflexivity; lia. }
  rewrite Hstep.
  destruct (fold_left _ (filter keep (messages db)) None) as [r|].
  - destruct H as [[Hin | Hin] [Hmax _]]; [discriminate|].
    apply filter_In in Hin. destruct Hin as [Hin Hk]. unfold keep in Hk.
    apply andb_true_iff in Hk. destruct Hk as [Ht Hts].
    apply String.eqb_eq in Ht. apply Z.ltb_lt in Hts.
    repeat split; auto. intros m Hm Hth Hlt.
    assert (Hk : (- timestamp m <= - timestamp r)%Z); [|lia].
    apply Hmax. apply filter_In.
    split; [exact Hm|]. unfold keep. apply andb_true_iff. split.
    + apply String.eqb_eq. exact Hth.
    + apply Z.ltb_lt. exact Hlt.
  - destruct H as [_ Hnil]. intros m Hm Hth.
    destruct (Z.lt_ge_cases (timestamp message) (timestamp m)) as [Hlt | Hge]; [|lia].
    exfalso. assert (Hin : In m (filter keep (messages db))).
    { apply filter_In. split; [exact Hm|]. unfold keep. apply andb_true_iff. split.
      - apply String.eqb_eq. exact Hth.
      - apply Z.ltb_lt. exact Hlt. }
    rewrite Hnil in Hin. destruct Hin.
Qed.

(** C8.  In a thread that consists of three messages at timestamps
    [t1 < t2 < t3], expanding the middle message finds the first as
    predecessor and the third as successor; expanding the first finds no
    predecessor and expanding the third finds no successor; the window built
    for a message lists exactly the neighbours found, a missing one being
    left out. *)
Theorem neighbor_expansion_chronological (db : Database) (m1 m2 m3 : Message) :
  In m1 (messages db) -> In m2 (messages db) -> In m3 (messages db) ->
  message_thread_id m1 = message_thread_id m2 ->
  message_thread_id m3 = message_thread_id m2 ->
  (timestamp m1 < timestamp m2)%Z -> (timestamp m2 < timestamp m3)%Z ->
  (forall m, In m (messages db) -> message_thread_id m = message_thread_id m2 ->
             m = m1 \/ m = m2 \/ m = m3) ->
  (prev_message_of db m2 = Some m1 /\ next_message_of db m2 = Some m3)
  /\ (prev_message_of db m1 = None /\ next_message_of db m1 = Some m2)
  /\ (prev_message_of db m3 = Some m2 /\ next_message_of db m3 = None)
  /\ context_parts db m2
     = ["[Previous] " ++ role m1 ++ ": " ++ slice_to 200 (content m1) ++ "...";
        "[Current] " ++ role m2 ++ ": " ++ content m2;
        "[Next] " ++ role m3 ++ ": " ++ slice_to 200 (content m3) ++ "..."]
  /\ context_parts db m1
     = ["[Current] " ++ role m1 ++ ": " ++ content m1;
        "[Next] " ++ role m2 ++ ": " ++ slice_to 200 (content m2) ++ "..."]
  /\ context_parts db m3
     = ["[Previous] " ++ role m2 ++ ": " ++ slice_to 200 (content m2) ++ "...";
        "[Current] " ++ role m3 ++ ": " ++ content m3].
Proof.
  intros H1 H2 H3 T1 T3 L12 L23 Honly.
  assert (Hmem : forall m m', In m (messages db) ->
                   message_thread_id m = message_thread_id m' ->
                   message_thread_id m' = message_thread_id m2 ->
                   m = m1 \/ m = m2 \/ m = m3).
  { intros m m' Hm Hth Hth'. apply Honly; [exact Hm | congruence]. }
  assert (P2 : prev_message_of db m2 = Some m1).
  { pose proof (prev_message_of_spec db m2) as S.
    destruct (prev_message_of db m2) as [r|].
    - destruct S as [Hr [Hth [Hlt _]]].
      destruct (Hmem r m2 Hr Hth eq_refl) as [-> | [-> | ->]]; [reflexivity | lia | lia].
    - specialize (S m1 H1 T1). lia. }
  assert (N2 : next_message_of db m2 = Some m3).
  { pose proof (next_message_of_spec db m2) as S.
    destruct (next_message_of db m2) as [r|].
    - destruct S as [Hr [Hth [Hlt _]]].
      destruct (Hmem r m2 Hr Hth eq_refl) as [-> | [-> | ->]]; [lia | lia | reflexivity].
    - specialize (S m3 H3 T3). lia. }
  assert (P1 : prev_message_of db m1 = None).
  { pose proof (prev_message_of_spec db m1) as S.
    destruct (prev_message_of db m1) as [r|]; [|reflexivity].
    destruct S as [Hr [Hth [Hlt _]]].
    destruct (Hmem r m1 Hr Hth T1) as [-> | [-> | ->]]; lia. }
  assert (N1 : next_message_of db m1 = Some m2).
  { pose proof (next_message_of_spec db m1) as S.
    destruct (next_message_of db m1) as [r|].
    - destruct S as [Hr [Hth [Hlt Hmin]]].
      specialize (Hmin m2 H2 (eq_sym T1) L12).
      destruct (Hmem r m1 Hr Hth T1) as [-> | [-> | ->]]; [lia | reflexivity | lia].
    - specialize (S m2 H2 (eq_sym T1)). lia. }
  assert (P3 : prev_message_of db m3 = Some m2).
  { pose proof (prev_message_of_spec db m3) as S.
    destruct (prev_message_of db m3) as [r|].
    - destruct S as [Hr [Hth [Hlt Hmax]]].
      specialize (Hmax m2 H2 (eq_sym T3) L23).
      destruct (Hmem r m3 Hr Hth T3) as [-> | [-> | ->]]; [lia | reflexivity | lia].
    - specialize (S m2 H2 (eq_sym T3)). lia. }
  assert (N3 : next_message_of db m3 = None).
  { pose proof (next_message_of_spec db m3) as S.
    destruct (next_message_of db m3) as [r|]; [|reflexivity].
    destruct S as [Hr [Hth [Hlt _]]].
    destruct (Hmem r m3 Hr Hth T3) as [-> | [-> | ->]]; lia. }
  unfold context_parts. rewrite P1, P2, P3, N1, N2, N3.
  repeat split; reflexivity.
Qed.

(** [neighbor_expansion_chronological] on the thread of [db0]. *)
Lemma neighbor_expansion_chronological_witness :
  let m1 := mkMessage "m1" "t1" "user" "how do I learn python" 1 [] in
  let m2 := mkMessage "m2" "t1" "assistant" python6 2 [] in
  let m3 := mkMessage "m3" "t1" "user" "thanks" 3 [] in
  (prev_message_of db0 m2 = Some m1 /\ next_message_of db0 m2 = Some m3)
  /\ (prev_message_of db0 m1 = None /\ next_message_of db0 m1 = Some m2)
  /\ (prev_message_of db0 m3 = Some m2 /\ next_message_of db0 m3 = None)
  /\ context_parts db0 m2
     = ["[Previous] " ++ role m1 ++ ": " ++ slice_to 200 (content m1) ++ "...";
        "[Current] " ++ role m2 ++ ": " ++ content m2;
        "[Next] " ++ role m3 ++ ": " ++ slice_to 200 (content m3) ++ "..."]
  /\ context_parts db0 m1
     = ["[Current] " ++ role m1 ++ ": " ++ content m1;
        "[Next] " ++ role m2 ++ ": " ++ slice_to 200 (content m2) ++ "..."]
  /\ context_parts db0 m3
     = ["[Previous] " ++ role m2 ++ ": " ++ slice_to 200 (content m2) ++ "...";
        "[Current] " ++ role m3 ++ ": " ++ content m3].
Proof.
  intros m1 m2 m3.
  apply (neighbor_expansion_chronological db0 m1 m2 m3).
  - simpl. auto.
  - simpl. auto.
  - simpl. auto.
  - reflexivity.
  - reflexivity.
  - reflexivity.
  - reflexivity.
  - simpl. intros m [<- | [<- | [<- | []]]] _; auto.
Defined.

(** ** Lexical scores (text_search) *)

Lemma In_Z_limit {A : Type} (n : Z) (l : list A) (x : A) :
  In x (Z_limit n l) -> In x l.
Proof.
  unfold Z_limit. intros H. rewrite <- (firstn_skipn (Z.to_nat n) l).
  apply in_or_app. left. exact H.
Qed.

Lemma In_Z_offset {A : Type} (n : Z) (l : list A) (x : A) :
  In x (Z_offset n l) -> In x l.
Proof.
  unfold Z_offset. intros H. rewrite <- (firstn_skipn (Z.to_nat n) l).
  apply in_or_app. right. exact H.
Qed.

Lemma In_insert_desc (x y : SearchResult) (l : list SearchResult) :
  In x (insert_desc y l) <-> x = y \/ In x l.
Proof.
  induction l as [|z l IH]; cbn [insert_desc].
  - simpl. intuition congruence.
  - destruct (Qltb (score y) (score z)); simpl in *; rewrite ?IH; intuition congruence.
Qed.

Lemma In_sort_desc (x : SearchResult) (l : list SearchResult) :
  In x (sort_desc l) <-> In x l.
Proof.
  unfold sort_desc. induction l as [|y l IH]; cbn [fold_right]; [tauto|].
  rewrite In_insert_desc, IH. simpl. intuition congruence.
Qed.

Lemma term_frequency_nonneg (text : string) (search_terms : list string) :
  (0 <= term_frequency text search_terms)%Q.
Proof.
  unfold term_frequency, Qdiv. apply Qmult_le_0_compat.
  - change 0%Q with (inject_Z 0). rewrite <- Zle_Qle. lia.
  - apply Qinv_le_0_compat. change 0%Q with (inject_Z 0). rewrite <- Zle_Qle. lia.
Qed.

Lemma relevance_bounds (text : string) (search_terms : list string) :
  (0 <= relevance text search_terms)%Q /\ (relevance text search_terms <= 1)%Q.
Proof.
  unfold relevance. split.
  - apply Q.min_glb; [|discriminate].
    unfold Qdiv. apply Qmult_le_0_compat; [apply term_frequency_nonneg | discriminate].
  - apply Q.le_min_r.
Qed.

(** C6 (as amended).  Every message result of [text_search] carries the score
    [min(mean / 10, 1)], where [mean] is the mean number of occurrences of
    the search terms in the lowered content of a matching message; the score
    lies in [[0, 1]]; it is not divided by the largest score of the result
    set.  When no message matches, the response holds no message result. *)
Theorem lexical_scores_capped_mean_frequency (env : Env) (db : Database)
    (search_query : SearchQuery) (validated_query : string) (offset limit : Z)
    (assistant_filter : option (list string)) (resp : SearchResponse) :
  text_search_try env db search_query validated_query offset limit assistant_filter
    = Ok resp ->
  let search_terms := split (lower validated_query) in
  let matching := message_query env db search_terms assistant_filter
                    (sq_date_from search_query) (sq_date_to search_query) in
  (forall r, In r (results resp) -> sr_type r = "message" ->
     (0 <= score r)%Q /\ (score r <= 1)%Q
     /\ exists m t a,
          In (m, t, a) matching /\ sr_id r = id m
          /\ score r = Qmin (term_frequency (lower (content m)) search_terms / 10)%Q 1%Q)
  /\ (matching = [] -> forall r, In r (results resp) -> sr_type r <> "message").
Proof.
  intros Htry search_terms matching. unfold text_search_try in Htry.
  fold search_terms in Htry. fold matching in Htry.
  destruct (negb (sq_include_artifacts search_query) && negb (options_accept_none env));
    [discriminate|].
  set (results0 := flat_map (message_results search_terms
                               (sq_include_artifacts search_query))
                            (Z_limit limit (Z_offset offset matching))) in Htry.
  assert (Hflat : forall r, In r results0 -> sr_type r = "message" ->
                    exists row, In row matching /\ r = message_result search_terms row).
  { intros r Hin Hty. apply in_flat_map in Hin. destruct Hin as [row [Hrow Hr]].
    exists row. split; [apply (In_Z_offset offset), (In_Z_limit limit); exact Hrow|].
    destruct row as [[m t] a]. cbn [message_results] in Hr.
    destruct Hr as [Hr | Hr]; [symmetry; exact Hr|].
    destruct (sq_include_artifacts search_query); [|destruct Hr].
    apply in_map_iff in Hr. destruct Hr as [art [<- _]]. cbn in Hty. discriminate. }
  assert (Hmsg : forall r, In r (results resp) -> sr_type r = "message" ->
                   exists row, In row matching /\ r = message_result search_terms row).
  { intros r Hin Hty. apply Hflat; [|exact Hty].
    destruct (sq_include_memory_cards search_query).
    - destruct (memory_text_conditions search_terms) as [[]|]; cbn [bind] in Htry;
        [|discriminate].
      injection Htry as <-. cbn [results] in Hin.
      apply In_Z_limit in Hin. apply (proj1 (In_sort_desc _ _)) in Hin.
      apply in_app_or in Hin. destruct Hin as [Hin | Hin]; [exact Hin|].
      apply in_map_iff in Hin. destruct Hin as [[c [[m t] a]] [<- _]].
      cbn in Hty. discriminate.
    - cbn [bind] in Htry. injection Htry as <-. cbn [results] in Hin.
      apply In_Z_limit in Hin. apply (proj1 (In_sort_desc _ _)) in Hin. exact Hin. }
  split.
  - intros r Hin Hty. destruct (Hmsg r Hin Hty) as [[[m t] a] [Hrow ->]].
    cbn [message_result score sr_id].
    split; [apply relevance_bounds|]. split; [apply relevance_bounds|].
    exists m, t, a. repeat split. exact Hrow.
  - intros Hnil r Hin Hty. destruct (Hmsg r Hin Hty) as [row [Hrow _]].
    rewrite Hnil in Hrow. destruct Hrow.
Qed.

(** [lexical_scores_capped_mean_frequency] on a search for [python] among the
    messages of [db0]. *)
Lemma lexical_scores_capped_mean_frequency_witness :
  exists resp,
    text_search_try env0 db0 (messages_only "python" 20) "python" 0 20 None = Ok resp
    /\ map sr_id (results resp) = ["m2"; "m1"]
    /\ (forall r, In r (results resp) -> sr_type r = "message" ->
          (0 <= score r)%Q /\ (score r <= 1)%Q
          /\ exists m t a,
               In (m, t, a) (message_query env0 db0 (split (lower "python")) None None None)
               /\ sr_id r = id m
               /\ score r
                  = Qmin (term_frequency (lower (content m)) (split (lower "python")) / 10)%Q
                         1%Q)
    /\ (message_query env0 db0 (split (lower "python")) None None None = [] ->
        forall r, In r (results resp) -> sr_type r <> "message").
Proof.
  eexists. split; [reflexivity|]. split; [reflexivity|].
  apply (lexical_scores_capped_mean_frequency env0 db0 (messages_only "python" 20)
           "python" 0 20 None).
  reflexivity.
Defined.

(** The search for [thanks] among the messages of [db0] (memory cards not
    requested) returns one hit; it is the top hit, it is the best match of
    its result set, and its score is one tenth, not one. *)
Lemma lexical_top_hit_below_one :
  exists resp top,
    text_search env0 (messages_only "thanks" 20) session0 = (Returned resp, session0)
    /\ results resp = [top]
    /\ sr_id top = "m3" /\ sr_type top = "message"
    /\ (score top == 1 # 10)%Q
    /\ ~ (score top == 1)%Q.
Proof.
  eexists. eexists. split; [vm_compute; reflexivity|].
  split; [reflexivity|]. repeat split; discriminate.
Qed.

(** ** Fusion (hybrid_search) *)
















(** ** Errors of the validation blocks *)

Lemma validate_assistant_filter_err (assistant_filter : option (list string)) (e : exn) :
  validate_assistant_filter assistant_filter = Err e ->
  exists field, e = Api (ValidationError (Some field)).
Proof.
  unfold validate_assistant_filter. destruct assistant_filter as [[|n names]|];
    try discriminate.
  pose proof (validate_list_items_err (n :: names)) as L.
  destruct (validate_list (n :: names) "assistant_filter" (Some 20)
              (fun x => validate_string x "assistant_name" 1 (Some 100) true None true))
    as [vs|e0]; cbn [bind]; [discriminate|].
  intros H. inversion H. subst e0. apply L. reflexivity.
Qed.

Lemma hybrid_validate_err (q : HybridSearchQuery) (e : exn) :
  hybrid_validate q = Err e -> exists field, e = Api (ValidationError (Some field)).
Proof.
  unfold hybrid_validate.
  destruct (validate_search_query (hq_query q)) as [v|e0] eqn:E1; cbn [bind].
  2: { intros H. inversion H. subst e0. apply validate_search_query_err in E1.
       eexists. exact E1. }
  destruct (validate_float (hq_text_weight q) "text_weight" (Some 0%Q) (Some 1%Q))
    as [tw|e0] eqn:E2; cbn [bind].
  2: { intros H. inversion H. subst e0. apply validate_float_err in E2.
       eexists. exact E2. }
  destruct (validate_float (hq_vector_weight q) "vector_weight" (Some 0%Q) (Some 1%Q))
    as [vw|e0] eqn:E3; cbn [bind].
  2: { intros H. inversion H. subst e0. apply validate_float_err in E3.
       eexists. exact E3. }
  destruct (weight_sum_off tw vw).
  { intros H. inversion H. eexists. reflexivity. }
  destruct (validate_assistant_filter (hq_assistant_filter q)) as [af|e0] eqn:E4; cbn [bind].
  - discriminate.
  - intros H. inversion H. subst e0. apply (validate_assistant_filter_err _ _ E4).
Qed.

Lemma hybrid_validate_query (q : HybridSearchQuery) (v : string) (tw vw : Q)
    (af : option (list string)) :
  hybrid_validate q = Ok (v, tw, vw, af) -> validate_search_query (hq_query q) = Ok v.
Proof.
  unfold hybrid_validate.
  destruct (validate_search_query (hq_query q)) as [v0|]; cbn [bind]; [|discriminate].
  destruct (validate_float (hq_text_weight q) "text_weight" (Some 0%Q) (Some 1%Q));
    cbn [bind]; [|discriminate].
  destruct (validate_float (hq_vector_weight q) "vector_weight" (Some 0%Q) (Some 1%Q));
    cbn [bind]; [|discriminate].
  destruct (weight_sum_off _ _); [discriminate|].
  destruct (validate_assistant_filter (hq_assistant_filter q)); cbn [bind]; [|discriminate].
  intros H. inversion H. reflexivity.
Qed.

(** [text_search] on a query its validator refuses: a 400 response, and the
    session is not touched. *)
Lemma text_search_refused (env : Env) (q : SearchQuery) (session : Session) :
  validate_search_query (sq_query q) = raise_ValidationError "search_query" ->
  text_search env q session
  = (JSONResponse 400 "VALIDATION_ERROR" (Some "search_query"), session).
Proof.
  intros H. unfold text_search, text_search_body. rewrite H. reflexivity.
Qed.

Lemma vector_search_refused (env : Env) (q : VectorSearchQuery) (session : Session) :
  validate_search_query (vq_query q) = raise_ValidationError "search_query" ->
  vector_search env q session
  = (JSONResponse 400 "VALIDATION_ERROR" (Some "search_query"), session).
Proof.
  intros H. unfold vector_search, vector_search_body. rewrite H. reflexivity.
Qed.

Lemma validate_pagination_spec (offset limit : Z) :
  validate_pagination offset limit
  = if (offset <? 0)%Z then raise_ValidationError "offset"
    else if Z_between 1 100 limit then Ok (offset, limit)
    else raise_ValidationError "limit".
Proof.
  unfold validate_pagination, validate_integer, Z_between, Zlt_opt_min, Zgt_opt_max.
  destruct (offset <? 0)%Z; cbn [bind]; [reflexivity|].
  destruct (limit <? 1)%Z eqn:E1, (100 <? limit)%Z eqn:E2, (1 <=? limit)%Z eqn:E3,
    (limit <=? 100)%Z eqn:E4; cbn [bind andb]; try reflexivity; lia.
Qed.

(** ** Searches that include memory cards *)

(** With at least one search term, the [try] block of [text_search] raises
    when memory cards are requested: the cast of [key_concepts] fails. *)
Lemma text_search_try_cards (env : Env) (db : Database) (q : SearchQuery)
    (validated_query : string) (offset limit : Z) (assistant_filter : option (list string)) :
  sq_include_memory_cards q = true ->
  split (lower validated_query) <> [] ->
  exists e, text_search_try env db q validated_query offset limit assistant_filter = Err e.
Proof.
  intros Hc Hterms. unfold text_search_try. rewrite Hc.
  destruct (negb (sq_include_artifacts q) && negb (options_accept_none env));
    [eexists; reflexivity|].
  unfold memory_text_conditions.
  destruct (split (lower validated_query)) as [|term terms];
    [contradiction Hterms; reflexivity|].
  cbn [bind]. eexists. reflexivity.
Qed.

Lemma text_search_cards_fail (env : Env) (q : SearchQuery) (session : Session) :
  sq_include_memory_cards q = true ->
  fst (text_search env q session) = JSONResponse 500 "DATABASE_ERROR" None
  \/ exists field,
       fst (text_search env q session) = JSONResponse 400 "VALIDATION_ERROR" (Some field).
Proof.
  intros Hc. unfold text_search, text_search_body.
  destruct (validate_search_query (sq_query q)) as [v|e] eqn:E1; cbn [bind].
  2: { apply validate_search_query_err in E1. subst e. right. eexists. reflexivity. }
  rewrite validate_pagination_spec.
  destruct (sq_offset q <? 0)%Z; cbn [bind]; [right; eexists; reflexivity|].
  destruct (Z_between 1 100 (sq_limit q)); cbn [bind]; [|right; eexists; reflexivity].
  destruct (validate_assistant_filter (sq_assistant_filter q)) as [af|e] eqn:E3; cbn [bind].
  2: { apply validate_assistant_filter_err in E3. destruct E3 as [f ->].
       right. eexists. reflexivity. }
  left. destruct (next_fault session) as [fault s1]. cbn [fst].
  destruct fault; [reflexivity|].
  destruct (text_search_try_cards env (database session) q v (sq_offset q) (sq_limit q) af
              Hc (validated_terms_nonempty _ _ E1)) as [e ->].
  reflexivity.
Qed.

Lemma text_search_cards_failed (env : Env) (q : SearchQuery) (session : Session) :
  sq_include_memory_cards q = true -> failed (fst (text_search env q session)).
Proof.
  intros Hc. destruct (text_search_cards_fail env q session Hc) as [-> | [f ->]];
    eexists _, _, _; reflexivity.
Qed.

(** [vector_search] asks [text_search] for memory cards, so the response it
    reads is an error response. *)
Lemma vector_search_fails (env : Env) (q : VectorSearchQuery) (session : Session) :
  fst (vector_search env q session) = JSONResponse 502 "EXTERNAL_SERVICE_ERROR" None
  \/ exists field,
       fst (vector_search env q session) = JSONResponse 400 "VALIDATION_ERROR" (Some field).
Proof.
  unfold vector_search, vector_search_body.
  destruct (validate_search_query (vq_query q)) as [v|e] eqn:E1; cbn [bind].
  2: { apply validate_search_query_err in E1. subst e. right. eexists. reflexivity. }
  destruct (validate_float (vq_similarity_threshold q) "similarity_threshold"
              (Some 0%Q) (Some 1%Q)) as [thr|e] eqn:E2; cbn [bind].
  2: { apply validate_float_err in E2. subst e. right. eexists. reflexivity. }
  destruct (validate_assistant_filter (vq_assistant_filter q)) as [af|e] eqn:E3; cbn [bind].
  2: { apply validate_assistant_filter_err in E3. destruct E3 as [f ->].
       right. eexists. reflexivity. }
  left. unfold pydantic_init.
  destruct (SearchQuery_valid (mkSearchQuery v (vq_limit q) 0 af None None true true));
    [|reflexivity].
  pose proof (text_search_cards_failed env
                (mkSearchQuery v (vq_limit q) 0 af None None true true) session eq_refl) as F.
  destruct (text_search env (mkSearchQuery v (vq_limit q) 0 af None None true true) session)
    as [resp s1]. cbn [fst] in F. destruct F as [st [code [field ->]]]. reflexivity.
Qed.

Lemma hybrid_fuse_failed (text_weight vector_weight : Q) (limit : Z)
    (validated_query : string) (text_response vector_response : response SearchResponse) :
  failed text_response \/ failed vector_response ->
  hybrid_fuse text_weight vector_weight limit validated_query text_response vector_response
  = Err (PyException "AttributeError").
Proof.
  unfold hybrid_fuse, failed.
  intros [[st [code [field ->]]] | [st [code [field ->]]]]; cbn [get_results bind].
  - reflexivity.
  - destruct text_response; reflexivity.
Qed.

(** The [try] block of [hybrid_search] always ends in its [except] clause. *)
Lemma hybrid_try_fails (env : Env) (validated_query : string)
    (text_weight vector_weight : Q) (assistant_filter : option (list string))
    (limit : Z) (session : Session) :
  fst (hybrid_try env validated_query text_weight vector_weight assistant_filter limit session)
  = Err (Api (ExternalServiceError "search_engine")).
Proof.
  unfold hybrid_try, pydantic_init.
  destruct (SearchQuery_valid _); [|reflexivity].
  pose proof (text_search_cards_failed env
                (mkSearchQuery validated_query (limit * 2) 0 assistant_filter
                               None None true true) session eq_refl) as F.
  destruct (text_search env _ session) as [tr s1]. cbn [fst] in F.
  destruct (VectorSearchQuery_valid _); [|reflexivity].
  destruct (vector_search env _ s1) as [vr s2]. cbn [fst].
  rewrite (hybrid_fuse_failed _ _ _ _ _ _ (or_introl F)). reflexivity.
Qed.

Lemma hybrid_search_fails (env : Env) (q : HybridSearchQuery) (session : Session) :
  fst (hybrid_search env q session) = JSONResponse 502 "EXTERNAL_SERVICE_ERROR" None
  \/ exists field,
       fst (hybrid_search env q session) = JSONResponse 400 "VALIDATION_ERROR" (Some field).
Proof.
  unfold hybrid_search, hybrid_search_body.
  destruct (hybrid_validate q) as [[[[v tw] vw] af]|e] eqn:E.
  2: { apply hybrid_validate_err in E. destruct E as [f ->]. right. eexists. reflexivity. }
  left. pose proof (hybrid_try_fails env v tw vw af (hq_limit q) session) as F.
  destruct (hybrid_try env v tw vw af (hq_limit q) session) as [r s1].
  cbn [fst] in *. rewrite F. reflexivity.
Qed.

(** ** Validation of a hybrid request *)






(** The test is made on doubles: the pair (0.5, 0.51) is 0.01 away from 1 as
    a pair of numbers, and is refused all the same. *)
Example weight_gate_in_double_precision :
  (Qabs ((1 # 2) + (51 # 100) - 1) == 1 # 100)%Q
  /\ weight_sum_off (1 # 2) (51 # 100) = true
  /\ Float64.of_Q (51 # 100) = S754_finite false 4593671619917906 (-53)
  /\ Float64.of_Q (1 # 100) = S754_finite false 5764607523034235 (-59)
  /\ Float64.abs (Float64.sub (Float64.add (Float64.of_Q (1 # 2)) (Float64.of_Q (51 # 100)))
                              (Float64.of_Q 1))
     = S754_finite false 5764607523034240 (-59).
Proof. repeat split; vm_compute; reflexivity. Qed.

(** C5 (as amended).  A hybrid request whose [limit] lies outside
    [[1, 100]] is refused when its body model is built (422): the endpoint is
    not called, nothing is clamped and neither search runs.  A request whose
    query is empty or blank is answered with a validation error on
    [search_query] before either search runs. *)
Theorem hybrid_limit_rejected_not_clamped (env : Env) (q : HybridSearchQuery)
    (session : Session) :
  ((hq_limit q < 1 \/ 100 < hq_limit q)%Z ->
   post_hybrid env q session = (Unprocessable422, session))
  /\ (HybridSearchQuery_valid q = true -> strip (hq_query q) = EmptyString ->
      post_hybrid env q session
      = (Handled (JSONResponse 400 "VALIDATION_ERROR" (Some "search_query")), session)).
Proof.
  unfold post_hybrid. split.
  - intros Hlimit.
    assert (E : HybridSearchQuery_valid q = false).
    { unfold HybridSearchQuery_valid, Z_between.
      apply andb_false_iff. right. apply andb_false_iff.
      destruct Hlimit as [H | H]; [left; apply Z.leb_gt | right; apply Z.leb_gt]; exact H. }
    rewrite E. reflexivity.
  - intros Hvalid Hblank. rewrite Hvalid.
    unfold hybrid_search, hybrid_search_body, hybrid_validate, validate_search_query,
      validate_string.
    rewrite Hblank. reflexivity.
Qed.

(** [hybrid_limit_rejected_not_clamped] on a limit of 0 and on a blank query. *)
Lemma hybrid_limit_rejected_not_clamped_witness :
  post_hybrid env0 (hybrid_python (3 # 10) (7 # 10) 0) session0
  = (Unprocessable422, session0)
  /\ post_hybrid env0 (mkHybridSearchQuery "   " (3 # 10) (7 # 10) 10 None) session0
     = (Handled (JSONResponse 400 "VALIDATION_ERROR" (Some "search_query")), session0).
Proof.
  split.
  - apply (proj1 (hybrid_limit_rejected_not_clamped env0
                    (hybrid_python (3 # 10) (7 # 10) 0) session0)).
    left. reflexivity.
  - apply (proj2 (hybrid_limit_rejected_not_clamped env0
                    (mkHybridSearchQuery "   " (3 # 10) (7 # 10) 10 None) session0));
      vm_compute; reflexivity.
Defined.

(** A request with [limit = 0], a well-formed query and the weights 0.3 and
    0.7 is not served with the limit raised to 1: it is refused with 422, as
    is [limit = 101]; with a limit of 10 the same request passes the body
    model. *)
Lemma hybrid_limit_zero_rejected :
  validate_search_query "python" = Ok "python"
  /\ weight_sum_off (3 # 10) (7 # 10) = false
  /\ HybridSearchQuery_valid (hybrid_python (3 # 10) (7 # 10) 10) = true
  /\ post_hybrid env0 (hybrid_python (3 # 10) (7 # 10) 0) session0
     = (Unprocessable422, session0)
  /\ post_hybrid env0 (hybrid_python (3 # 10) (7 # 10) 101) session0
     = (Unprocessable422, session0).
Proof. repeat split; vm_compute; reflexivity. Qed.

(** ** vector_search *)

(** C10.  [vector_search] consults no embedding and no vector index: it
    validates the request and calls [text_search].  It never hands back a
    response, so there is no result list and no [vector_fallback] label: the
    [SearchQuery] it builds asks for memory cards, [text_search] fails on
    the cast of [key_concepts] and answers 500, and reading [results] from
    that error response ends in the [except] clause.  Every request is
    answered 502, or 400 with the name of a field.  On
    [db0] the search for [python] among the messages returns [m2] and [m1]
    with the scores 0.6 and 0.1; [vector_search] for the same query with a
    threshold of 0.5 answers 502 instead of returning [m2]. *)
Theorem vector_search_never_returns (env : Env) (q : VectorSearchQuery) (session : Session) :
  (forall resp, fst (vector_search env q session) <> Returned resp)
  /\ (fst (vector_search env q session) = JSONResponse 502 "EXTERNAL_SERVICE_ERROR" None
      \/ exists field,
           fst (vector_search env q session)
           = JSONResponse 400 "VALIDATION_ERROR" (Some field))
  /\ summary (fst (text_search env0 (messages_only "python" 20) session0))
     = Some [("m2", "message", (3 # 5)%Q); ("m1", "message", (1 # 10)%Q)]
  /\ text_search env0 (mkSearchQuery "python" 20 0 None None None true true) session0
     = (JSONResponse 500 "DATABASE_ERROR" None, session0)
  /\ VectorSearchQuery_valid (mkVectorSearchQuery "python" (1 # 2) 20 None) = true
  /\ vector_search env0 (mkVectorSearchQuery "python" (1 # 2) 20 None) session0
     = (JSONResponse 502 "EXTERNAL_SERVICE_ERROR" None, session0).
Proof.
  pose proof (vector_search_fails env q session) as F.
  split; [|split; [exact F|]].
  - intros resp H. rewrite H in F. destruct F as [F | [f F]]; discriminate F.
  - repeat split; vm_compute; reflexivity.
Qed.

End SearchFacts.

(* ===================================================================== *)
(** * Further properties of the search endpoints *)
(* ===================================================================== *)

Module SearchExtra.
Import Py ErrorHandling Search SearchSpec SearchFacts ValidationSpec ValidationExtra
  SearchExtraSpec.

(** ** Queries with markup *)

(** X13.  [vector_search] never answers a query that holds [<], [>] or a
    double quote: either its own validation refuses the request (400, naming
    a field) or, the request accepted, the inner [text_search] refuses the
    escaped query and the endpoint answers 502.  The database is not
    consulted. *)
Theorem vector_search_never_answers_markup (env : Env) (q : VectorSearchQuery)
    (session : Session) :
  mem_char "<" (vq_query q) || mem_char ">" (vq_query q)
  || mem_char dquote_char (vq_query q) = true ->
  vector_search env q session
  = (JSONResponse 502 "EXTERNAL_SERVICE_ERROR" None, session)
  \/ exists field,
       vector_search env q session
       = (JSONResponse 400 "VALIDATION_ERROR" (Some field), session).
Proof.
  intros Hc. unfold vector_search, vector_search_body.
  destruct (validate_search_query (vq_query q)) as [v|e] eqn:E1; cbn [bind].
  2: { apply validate_search_query_err in E1. subst e. right. eexists. reflexivity. }
  destruct (validate_float (vq_similarity_threshold q) "similarity_threshold"
              (Some 0%Q) (Some 1%Q)) as [thr|e] eqn:E2; cbn [bind].
  2: { apply validate_float_err in E2. subst e. right. eexists. reflexivity. }
  destruct (validate_assistant_filter (vq_assistant_filter q)) as [af|e] eqn:E3; cbn [bind].
  2: { apply validate_assistant_filter_err in E3. destruct E3 as [f ->].
       right. eexists. reflexivity. }
  left. unfold pydantic_init.
  destruct (SearchQuery_valid (mkSearchQuery v (vq_limit q) 0 af None None true true));
    [|reflexivity].
  rewrite text_search_refused; [reflexivity|].
  apply (revalidation_fails (vq_query q) v E1 Hc).
Qed.

(** [vector_search_never_answers_markup] on a query in double quotes. *)
Lemma vector_search_never_answers_markup_witness :
  let q := mkVectorSearchQuery (String dquote_char ("python" ++ String dquote_char ""))
                               (1 # 2) 10 None in
  vector_search env0 q session0
  = (JSONResponse 502 "EXTERNAL_SERVICE_ERROR" None, session0)
  \/ exists field,
       vector_search env0 q session0
       = (JSONResponse 400 "VALIDATION_ERROR" (Some field), session0).
Proof.
  cbn zeta.
  apply (vector_search_never_answers_markup env0
           (mkVectorSearchQuery (String dquote_char ("python" ++ String dquote_char ""))
                                (1 # 2) 10 None) session0).
  reflexivity.
Defined.

(** X14.  [hybrid_search] never answers a query that holds [<], [>] or a
    double quote either: both sub-searches validate the already escaped
    query again and refuse it, so a request that passes the endpoint's own
    validation ends in 502.  The database is not consulted. *)
Theorem hybrid_search_never_answers_markup (env : Env) (q : HybridSearchQuery)
    (session : Session) :
  mem_char "<" (hq_query q) || mem_char ">" (hq_query q)
  || mem_char dquote_char (hq_query q) = true ->
  hybrid_search env q session
  = (JSONResponse 502 "EXTERNAL_SERVICE_ERROR" None, session)
  \/ exists field,
       hybrid_search env q session
       = (JSONResponse 400 "VALIDATION_ERROR" (Some field), session).
Proof.
  intros Hc. unfold hybrid_search, hybrid_search_body.
  destruct (hybrid_validate q) as [[[[v tw] vw] af]|e] eqn:E.
  2: { apply hybrid_validate_err in E. destruct E as [f ->]. right. eexists. reflexivity. }
  left. apply hybrid_validate_query in E.
  pose proof (revalidation_fails (hq_query q) v E Hc) as R.
  unfold hybrid_try, pydantic_init.
  destruct (SearchQuery_valid _); [|reflexivity].
  rewrite text_search_refused by exact R.
  destruct (VectorSearchQuery_valid _); [|reflexivity].
  rewrite vector_search_refused by exact R.
  reflexivity.
Qed.

(** [hybrid_search_never_answers_markup] on a comparison. *)
Lemma hybrid_search_never_answers_markup_witness :
  let q := mkHybridSearchQuery "latency < 10ms" (3 # 10) (7 # 10) 10 None in
  hybrid_search env0 q session0
  = (JSONResponse 502 "EXTERNAL_SERVICE_ERROR" None, session0)
  \/ exists field,
       hybrid_search env0 q session0
       = (JSONResponse 400 "VALIDATION_ERROR" (Some field), session0).
Proof.
  cbn zeta.
  apply (hybrid_search_never_answers_markup env0
           (mkHybridSearchQuery "latency < 10ms" (3 # 10) (7 # 10) 10 None) session0).
  reflexivity.
Defined.

(** ** text_search with memory cards *)

(** X15.  [text_search] never returns a response to a request that asks for
    memory cards, which is the default of the request model: the condition on
    [key_concepts] is built with [cast(text)], where [text] is the SQL text
    construct and not a column type, and building it raises inside the [try]
    block.  Every such request is answered 500 [DATABASE_ERROR], whatever
    the database holds, or 400 with the name of a field. *)
Theorem text_search_with_memory_cards_fails (env : Env) (q : SearchQuery)
    (session : Session) :
  sq_include_memory_cards q = true ->
  (forall resp, fst (text_search env q session) <> Returned resp)
  /\ (fst (text_search env q session) = JSONResponse 500 "DATABASE_ERROR" None
      \/ exists field,
           fst (text_search env q session)
           = JSONResponse 400 "VALIDATION_ERROR" (Some field)).
Proof.
  intros Hc. pose proof (text_search_cards_fail env q session Hc) as F.
  split; [|exact F].
  intros resp H. rewrite H in F. destruct F as [F | [f F]]; discriminate F.
Qed.

(** [text_search_with_memory_cards_fails] on the search for [python] in
    [db0], memory cards requested; the same search without them returns. *)
Lemma text_search_with_memory_cards_fails_witness :
  let q := mkSearchQuery "python" 20 0 None None None true true in
  ((forall resp, fst (text_search env0 q session0) <> Returned resp)
   /\ (fst (text_search env0 q session0) = JSONResponse 500 "DATABASE_ERROR" None
       \/ exists field,
            fst (text_search env0 q session0)
            = JSONResponse 400 "VALIDATION_ERROR" (Some field)))
  /\ fst (text_search env0 q session0) = JSONResponse 500 "DATABASE_ERROR" None
  /\ summary (fst (text_search env0 (messages_only "python" 20) session0))
     = Some [("m2", "message", (3 # 5)%Q); ("m1", "message", (1 # 10)%Q)].
Proof.
  cbn zeta. split; [|split; vm_compute; reflexivity].
  apply (text_search_with_memory_cards_fails env0
           (mkSearchQuery "python" 20 0 None None None true true) session0).
  reflexivity.
Defined.

(** ** The shape of a response *)

Lemma Qltb_false (a b : Q) : Qltb a b = false -> (b <= a)%Q.
Proof.
  unfold Qltb. intros H. apply negb_false_iff in H. apply Qle_bool_iff. exact H.
Qed.

Lemma Qltb_true (a b : Q) : Qltb a b = true -> (a <= b)%Q.
Proof.
  unfold Qltb. intros H. apply negb_true_iff in H.
  apply Qlt_le_weak, Qnot_le_lt. intros L. apply Qle_bool_iff in L. congruence.
Qed.

Lemma insert_desc_descending (x : SearchResult) (l : list SearchResult) :
  descending l -> descending (insert_desc x l).
Proof.
  induction l as [|y l IH]; cbn [insert_desc]; intros H.
  - cbn. split; constructor.
  - destruct H as [Hy Hl]. destruct (Qltb (score x) (score y)) eqn:E; cbn [descending].
    + split; [|apply IH; exact Hl]. apply Forall_forall. intros z Hz.
      apply In_insert_desc in Hz. destruct Hz as [-> | Hz].
      * apply Qltb_true. exact E.
      * exact (proj1 (Forall_forall _ _) Hy z Hz).
    + split; [|split; assumption]. constructor; [apply Qltb_false; exact E|].
      apply (Forall_impl _ (P := fun z => (score z <= score y)%Q)); [|exact Hy].
      intros z Hz. apply (Qle_trans _ (score y)); [exact Hz | apply Qltb_false; exact E].
Qed.

Lemma sort_desc_descending (l : list SearchResult) : descending (sort_desc l).
Proof.
  unfold sort_desc. induction l as [|x l IH]; cbn [fold_right]; [exact I|].
  apply insert_desc_descending. exact IH.
Qed.

Lemma In_firstn {A : Type} (n : nat) (l : list A) (x : A) : In x (firstn n l) -> In x l.
Proof.
  intros H. rewrite <- (firstn_skipn n l). apply in_or_app. left. exact H.
Qed.

Lemma descending_firstn (n : nat) (l : list SearchResult) :
  descending l -> descending (firstn n l).
Proof.
  revert n. induction l as [|x l IH]; intros [|n] H; cbn [firstn descending]; auto.
  destruct H as [Hx Hl]. split; [|apply IH; exact Hl].
  apply Forall_forall. intros z Hz. apply In_firstn in Hz.
  exact (proj1 (Forall_forall _ _) Hx z Hz).
Qed.

Lemma Z_limit_length {A : Type} (n : Z) (l : list A) :
  (0 <= n)%Z -> (Z.of_nat (List.length (Z_limit n l)) <= n)%Z.
Proof.
  intros H. unfold Z_limit. pose proof (firstn_le_length (Z.to_nat n) l) as L. lia.
Qed.

Lemma text_search_inv (env : Env) (q : SearchQuery) (session session' : Session)
    (resp : SearchResponse) :
  text_search env q session = (Returned resp, session') ->
  exists v af,
    validate_search_query (sq_query q) = Ok v
    /\ validate_assistant_filter (sq_assistant_filter q) = Ok af
    /\ (0 <= sq_offset q)%Z
    /\ (1 <= sq_limit q <= 100)%Z
    /\ next_fault session = (false, session')
    /\ text_search_try env (database session) q v (sq_offset q) (sq_limit q) af = Ok resp.
Proof.
  unfold text_search. destruct (text_search_body env q session) as [body s1] eqn:Eb.
  intros H. injection H as Hr Hs. subst s1.
  apply handle_api_errors_returned in Hr. subst body.
  unfold text_search_body in Eb.
  destruct (validate_search_query (sq_query q)) as [v|] eqn:Eq; cbn [bind] in Eb;
    [|discriminate].
  rewrite validate_pagination_spec in Eb.
  destruct (sq_offset q <? 0)%Z eqn:Eo; cbn [bind] in Eb; [discriminate|].
  destruct (Z_between 1 100 (sq_limit q)) eqn:El; cbn [bind] in Eb; [|discriminate].
  destruct (validate_assistant_filter (sq_assistant_filter q)) as [af|] eqn:Ea;
    cbn [bind] in Eb; [|discriminate].
  destruct (next_fault session) as [fault s1].
  injection Eb as Hbody Hs. subst s1. apply try_except_ok in Hbody.
  destruct fault; [discriminate|].
  exists v, af. unfold Z_between in El. apply andb_true_iff in El.
  repeat split; try assumption; lia.
Qed.

Lemma text_search_try_shape (env : Env) (db : Database) (q : SearchQuery) (v : string)
    (offset limit : Z) (af : option (list string)) (resp : SearchResponse) :
  text_search_try env db q v offset limit af = Ok resp ->
  (0 <= limit)%Z ->
  resp_query resp = v
  /\ search_type resp = "text"
  /\ total_count resp = List.length (results resp)
  /\ (Z.of_nat (List.length (results resp)) <= limit)%Z
  /\ descending (results resp).
Proof.
  unfold text_search_try.
  destruct (negb (sq_include_artifacts q) && negb (options_accept_none env));
    [discriminate|].
  match goal with
  | |- bind ?r _ = _ -> _ => destruct r as [results1|]; cbn [bind]; [|discriminate]
  end.
  intros H Hl. injection H as <-. cbn [resp_query search_type total_count results].
  repeat split.
  - apply Z_limit_length. exact Hl.
  - unfold Z_limit. apply descending_firstn, sort_desc_descending.
Qed.

(** X16.  A response of [text_search] lists at most [limit] results, best
    score first; its [total_count] is the length of that list (the number of
    results on the page, not the number of matches); it echoes the validated
    query and is labelled [text].  The request had an offset of at least 0
    and a limit between 1 and 100. *)
Theorem text_search_response_shape (env : Env) (q : SearchQuery)
    (session session' : Session) (resp : SearchResponse) :
  text_search env q session = (Returned resp, session') ->
  validate_search_query (sq_query q) = Ok (resp_query resp)
  /\ search_type resp = "text"
  /\ total_count resp = List.length (results resp)
  /\ (Z.of_nat (List.length (results resp)) <= sq_limit q)%Z
  /\ descending (results resp)
  /\ (0 <= sq_offset q)%Z /\ (1 <= sq_limit q <= 100)%Z.
Proof.
  intros H. apply text_search_inv in H.
  destruct H as [v [af [Hv [_ [Ho [Hl [_ Ht]]]]]]].
  apply text_search_try_shape in Ht; [|lia].
  destruct Ht as [-> [H1 [H2 [H3 H4]]]]. repeat split; try assumption; lia.
Qed.

(** [text_search_response_shape] on the search for [python] among the
    messages of [db0], with a limit of 2. *)
Lemma text_search_response_shape_witness :
  exists resp,
    text_search env0 (messages_only "python" 2) session0 = (Returned resp, session0)
    /\ map sr_id (results resp) = ["m2"; "m1"]
    /\ validate_search_query "python" = Ok (resp_query resp)
    /\ search_type resp = "text"
    /\ total_count resp = List.length (results resp)
    /\ (Z.of_nat (List.length (results resp)) <= 2)%Z
    /\ descending (results resp)
    /\ (0 <= 0)%Z /\ (1 <= 2 <= 100)%Z.
Proof.
  destruct (text_search env0 (messages_only "python" 2) session0) as [r s1] eqn:E.
  pose proof E as E'. vm_compute in E'. injection E' as <- <-.
  eexists. split; [reflexivity|]. split; [reflexivity|].
  apply (text_search_response_shape env0 (messages_only "python" 2) session0 session0).
  exact E.
Defined.

(** X17.  [text_search] returns a response only to a request that does not
    ask for memory cards.  The results of a response are messages and
    artifacts of messages, never memory cards, and every score lies between
    0 and 1. *)
Theorem text_search_answers_without_cards (env : Env) (q : SearchQuery)
    (session session' : Session) (resp : SearchResponse) :
  text_search env q session = (Returned resp, session') ->
  sq_include_memory_cards q = false
  /\ Forall (fun r => (sr_type r = "message" \/ sr_type r = "artifact")
                      /\ (0 <= score r)%Q /\ (score r <= 1)%Q)
            (results resp).
Proof.
  intros H. apply text_search_inv in H.
  destruct H as [v [af [Hv [_ [_ [_ [_ Ht]]]]]]].
  destruct (sq_include_memory_cards q) eqn:Hc.
  - destruct (text_search_try_cards env (database session) q v (sq_offset q) (sq_limit q) af
                Hc (validated_terms_nonempty _ _ Hv)) as [e He].
    rewrite He in Ht. discriminate Ht.
  - split; [reflexivity|]. unfold text_search_try in Ht. rewrite Hc in Ht.
    destruct (negb (sq_include_artifacts q) && negb (options_accept_none env));
      [discriminate|].
    cbn [bind] in Ht. injection Ht as <-. cbn [results].
    apply Forall_forall. intros r Hin.
    apply In_Z_limit in Hin. apply (proj1 (In_sort_desc _ _)) in Hin.
    apply in_flat_map in Hin. destruct Hin as [[[m t] a] [_ Hr]].
    cbn [message_results] in Hr. destruct Hr as [<- | Hr].
    + cbn [message_result sr_type score]. split; [left; reflexivity|].
      apply relevance_bounds.
    + destruct (sq_include_artifacts q); [|destruct Hr].
      apply in_map_iff in Hr. destruct Hr as [art [<- _]].
      cbn [artifact_result sr_type score]. split; [right; reflexivity|].
      apply relevance_bounds.
Qed.

(** [text_search_answers_without_cards] on the search for [python] among the
    messages of [db0]. *)
Lemma text_search_answers_without_cards_witness :
  exists resp,
    text_search env0 (messages_only "python" 20) session0 = (Returned resp, session0)
    /\ map sr_id (results resp) = ["m2"; "m1"]
    /\ sq_include_memory_cards (messages_only "python" 20) = false
    /\ Forall (fun r => (sr_type r = "message" \/ sr_type r = "artifact")
                        /\ (0 <= score r)%Q /\ (score r <= 1)%Q)
              (results resp).
Proof.
  destruct (text_search env0 (messages_only "python" 20) session0) as [r s1] eqn:E.
  pose proof E as E'. vm_compute in E'. injection E' as <- <-.
  eexists. split; [reflexivity|]. split; [reflexivity|].
  apply (text_search_answers_without_cards env0 (messages_only "python" 20)
           session0 session0).
  exact E.
Defined.

(** ** The hybrid endpoint *)

(** X18.  [hybrid_search] never returns a response: both sub-searches it
    awaits ask [text_search] for memory cards and come back as error
    responses, and reading [results] from them ends in the [except] clause.
    Every request is answered 502 [EXTERNAL_SERVICE_ERROR], or 400 with the
    name of a field; the fusion loop is not reached.  On [db0] the request for [python] with the weights
    0.3 and 0.7 and a limit of 10 is answered 502. *)
Theorem hybrid_search_never_returns (env : Env) (q : HybridSearchQuery)
    (session : Session) :
  (forall resp, fst (hybrid_search env q session) <> Returned resp)
  /\ (fst (hybrid_search env q session) = JSONResponse 502 "EXTERNAL_SERVICE_ERROR" None
      \/ exists field,
           fst (hybrid_search env q session)
           = JSONResponse 400 "VALIDATION_ERROR" (Some field))
  /\ HybridSearchQuery_valid (hybrid_python (3 # 10) (7 # 10) 10) = true
  /\ hybrid_search env0 (hybrid_python (3 # 10) (7 # 10) 10) session0
     = (JSONResponse 502 "EXTERNAL_SERVICE_ERROR" None, session0).
Proof.
  pose proof (hybrid_search_fails env q session) as F.
  split; [|split; [exact F|]].
  - intros resp H. rewrite H in F. destruct F as [F | [f F]]; discriminate F.
  - split; vm_compute; reflexivity.
Qed.

(** ** rag_query *)

Lemma build_contexts_contexts (db : Database) (search_terms : list string)
    (include_conversation_context : bool) (max_tokens : Z)
    (rows : list (Message * Thread * Assistant)) :
  forall total_tokens : Z,
    exists n,
      fst (build_contexts db search_terms include_conversation_context max_tokens rows
             total_tokens)
      = map (make_context db search_terms include_conversation_context) (firstn n rows).
Proof.
  induction rows as [|row rest IH]; intros total; cbn [build_contexts].
  - exists 0%nat. reflexivity.
  - destruct (max_tokens <? total + _)%Z.
    + exists 0%nat. reflexivity.
    + match goal with
      | |- context [build_contexts _ _ _ _ rest ?t] => destruct (IH t) as [n Hn]
      end.
      destruct (build_contexts db search_terms include_conversation_context max_tokens rest _)
        as [cs t]. cbn [fst] in *. exists (S n). cbn [firstn map]. rewrite Hn. reflexivity.
Qed.

(** What a returned response was computed from. *)
Lemma rag_query_inv (env : Env) (q : RAGQuery) (session session' : Session)
    (r : RAGResponse) :
  rag_query env q session = (Returned r, session') ->
  exists validated_query assistant_filter n,
    validate_search_query (rq_query q) = Ok validated_query
    /\ (1 <= rq_max_results q <= 50)%Z
    /\ contexts r
       = map (make_context (database session) (split (lower validated_query))
                           (rq_include_conversation_context q))
             (firstn n (rag_message_query env (database session)
                          (split (lower validated_query)) assistant_filter
                          (rq_max_results q)))
    /\ sources_count r = List.length (contexts r)
    /\ rag_resp_query r = validated_query
    /\ summarize env (build_prompt env (rq_query q) (contexts r)) = Some (answer r).
Proof.
  unfold rag_query. destruct (rag_query_body env q session) as [body s1] eqn:Eb.
  intros H. injection H as Hr Hs. subst s1.
  apply handle_api_errors_returned in Hr. subst body.
  unfold rag_query_body, rag_validate in Eb.
  destruct (validate_search_query (rq_query q)) as [vq|] eqn:Eq; cbn [bind] in Eb;
    [|discriminate].
  destruct (validate_integer (rq_max_context_tokens q) "max_context_tokens"
              (Some 500%Z) (Some 8000%Z)) as [mt|] eqn:Emt; cbn [bind] in Eb;
    [|discriminate].
  destruct (validate_integer (rq_max_results q) "max_results" (Some 1%Z) (Some 50%Z))
    as [mr|] eqn:Emr; cbn [bind] in Eb; [|discriminate].
  destruct (validate_float (rq_temperature q) "temperature" (Some 0%Q) (Some 2%Q))
    as [te|] eqn:Ete; cbn [bind] in Eb; [|discriminate].
  destruct (validate_assistant_filter (rq_assistant_filter q)) as [af|] eqn:Eaf;
    cbn [bind] in Eb; [|discriminate].
  apply validate_integer_ok in Emr. destruct Emr as [-> [Hlo Hhi]].
  cbn [Zlt_opt_min Zgt_opt_max] in Hlo, Hhi. apply Z.ltb_ge in Hlo, Hhi.
  destruct (next_fault session) as [fault s1].
  injection Eb as Et Es. apply try_except_ok in Et.
  destruct fault; [discriminate|].
  unfold rag_query_try in Et.
  destruct (pydantic_init HybridSearchQuery_valid _) as [hq|]; cbn [bind] in Et;
    [|discriminate].
  pose proof (build_contexts_contexts (database session) (split (lower vq))
                (rq_include_conversation_context q) mt
                (rag_message_query env (database session) (split (lower vq)) af
                                   (rq_max_results q)) 0%Z) as [n Hn].
  destruct (build_contexts _ _ _ _ _ _) as [cs total].
  cbn [fst] in Hn.
  destruct (summarize env (build_prompt env (rq_query q) cs)) as [ans|] eqn:Es';
    [|discriminate].
  injection Et as <-. cbn [sources_count contexts rag_resp_query answer].
  exists vq, af, n. repeat split; try assumption; lia.
Qed.

(** X19.  A response of [rag_query] cites at most [max_results] contexts
    ([max_results] being between 1 and 50), [sources_count] is their number,
    every context is a message with a relevance between 0 and 1, the echoed
    query is the validated one, and the answer is what the generative client
    returned for the prompt built from the raw query and these contexts. *)
Theorem rag_query_response_shape (env : Env) (q : RAGQuery) (session session' : Session)
    (r : RAGResponse) :
  rag_query env q session = (Returned r, session') ->
  sources_count r = List.length (contexts r)
  /\ (Z.of_nat (List.length (contexts r)) <= rq_max_results q)%Z
  /\ (1 <= rq_max_results q <= 50)%Z
  /\ Forall (fun c => source_type c = "message"
                      /\ (0 <= relevance_score c)%Q /\ (relevance_score c <= 1)%Q)
            (contexts r)
  /\ validate_search_query (rq_query q) = Ok (rag_resp_query r)
  /\ summarize env (build_prompt env (rq_query q) (contexts r)) = Some (answer r).
Proof.
  intros H. destruct (rag_query_inv env q session session' r H)
    as [v [af [n [Hv [Hmax [Hc [Hcount [Hq Hs]]]]]]]].
  split; [exact Hcount|]. split; [|split; [exact Hmax|split; [|split]]].
  - rewrite Hc, length_map. unfold rag_message_query, Z_limit.
    rewrite firstn_firstn.
    match goal with
    | |- (Z.of_nat (List.length (firstn ?k ?l)) <= _)%Z =>
        pose proof (firstn_le_length k l)
    end. lia.
  - rewrite Hc. apply Forall_forall. intros c Hin. apply in_map_iff in Hin.
    destruct Hin as [[[m t] a] [<- _]]. cbn [make_context source_type relevance_score].
    split; [reflexivity | apply relevance_bounds].
  - rewrite Hq. exact Hv.
  - exact Hs.
Qed.

(** [rag_query_response_shape] on a question about [python] over [db0]. *)
Lemma rag_query_response_shape_witness :
  exists r,
    rag_query env0 (mkRAGQuery "python" 500 10 None true (7 # 10)) session0
    = (Returned r, session0)
    /\ map source_id (contexts r) = ["m1"; "m2"]
    /\ sources_count r = List.length (contexts r)
    /\ (Z.of_nat (List.length (contexts r)) <= 10)%Z
    /\ (1 <= 10 <= 50)%Z
    /\ Forall (fun c => source_type c = "message"
                        /\ (0 <= relevance_score c)%Q /\ (relevance_score c <= 1)%Q)
              (contexts r)
    /\ validate_search_query "python" = Ok (rag_resp_query r)
    /\ summarize env0 (build_prompt env0 "python" (contexts r)) = Some (answer r).
Proof.
  destruct (rag_query env0 (mkRAGQuery "python" 500 10 None true (7 # 10)) session0)
    as [r s1] eqn:E.
  pose proof E as E'. vm_compute in E'. injection E' as <- <-.
  eexists. split; [reflexivity|]. split; [reflexivity|].
  apply (rag_query_response_shape env0 (mkRAGQuery "python" 500 10 None true (7 # 10))
           session0 session0).
  exact E.
Defined.

(** ** Status codes *)

Lemma answers_or_fails_validation {A : Type} (field : string) (status : nat)
    (code : string) :
  answers_or_fails (A := A)
    (handle_api_errors (Err (Api (ValidationError (Some field))))) status code.
Proof. left. split; [reflexivity|]. split; [reflexivity|]. exists field. reflexivity. Qed.

Lemma answers_or_fails_try {A : Type} (body : raising A) (handler : APIError)
    (status : nat) (code : string) :
  status_code handler = status -> error_code handler = code -> error_field handler = None ->
  answers_or_fails (handle_api_errors (try_except body handler)) status code.
Proof.
  intros H1 H2 H3. destruct body as [a|e]; cbn [try_except handle_api_errors].
  - exact I.
  - right. auto.
Qed.

(** X20.  The four search endpoints answer a failure in one of two ways
    only: 400 [VALIDATION_ERROR] with the name of the offending field, raised
    before the [try] block, or the single error of their [except] clause,
    which replaces whatever was raised inside the block: 500
    [DATABASE_ERROR] for [text_search], 502 [EXTERNAL_SERVICE_ERROR] for
    [vector_search], [hybrid_search] and [rag_query] (also when it is the
    database that failed).  None of them answers 500 [INTERNAL_ERROR]. *)
Theorem endpoint_status_codes (env : Env) (session : Session) :
  (forall q, answers_or_fails (fst (text_search env q session)) 500 "DATABASE_ERROR")
  /\ (forall q, answers_or_fails (fst (vector_search env q session))
                                 502 "EXTERNAL_SERVICE_ERROR")
  /\ (forall q, answers_or_fails (fst (hybrid_search env q session))
                                 502 "EXTERNAL_SERVICE_ERROR")
  /\ (forall q, answers_or_fails (fst (rag_query env q session))
                                 502 "EXTERNAL_SERVICE_ERROR").
Proof.
  split; [|split; [|split]]; intros q.
  - unfold text_search, text_search_body.
    destruct (validate_search_query (sq_query q)) as [v|e] eqn:E1; cbn [bind].
    2: { apply validate_search_query_err in E1. subst e.
         apply answers_or_fails_validation. }
    rewrite validate_pagination_spec.
    destruct (sq_offset q <? 0)%Z; cbn [bind]; [apply answers_or_fails_validation|].
    destruct (Z_between 1 100 (sq_limit q)); cbn [bind];
      [|apply answers_or_fails_validation].
    destruct (validate_assistant_filter (sq_assistant_filter q)) as [af|e] eqn:E3;
      cbn [bind].
    2: { apply validate_assistant_filter_err in E3. destruct E3 as [f ->].
         apply answers_or_fails_validation. }
    destruct (next_fault session) as [fault s1]. cbn [fst].
    apply answers_or_fails_try; reflexivity.
  - unfold vector_search, vector_search_body.
    destruct (validate_search_query (vq_query q)) as [v|e] eqn:E1; cbn [bind].
    2: { apply validate_search_query_err in E1. subst e.
         apply answers_or_fails_validation. }
    destruct (validate_float (vq_similarity_threshold q) "similarity_threshold"
                (Some 0%Q) (Some 1%Q)) as [thr|e] eqn:E2; cbn [bind].
    2: { apply validate_float_err in E2. subst e. apply answers_or_fails_validation. }
    destruct (validate_assistant_filter (vq_assistant_filter q)) as [af|e] eqn:E3;
      cbn [bind].
    2: { apply validate_assistant_filter_err in E3. destruct E3 as [f ->].
         apply answers_or_fails_validation. }
    destruct (pydantic_init SearchQuery_valid _) as [tq|e]; cbn [fst].
    + destruct (text_search env tq session) as [resp s1]. cbn [fst].
      apply answers_or_fails_try; reflexivity.
    + apply answers_or_fails_try; reflexivity.
  - unfold hybrid_search, hybrid_search_body.
    destruct (hybrid_validate q) as [[[[v tw] vw] af]|e] eqn:E.
    2: { apply hybrid_validate_err in E. destruct E as [f ->].
         apply answers_or_fails_validation. }
    unfold hybrid_try.
    destruct (pydantic_init SearchQuery_valid _) as [tq|e]; cbn [fst];
      [|apply answers_or_fails_try; reflexivity].
    destruct (text_search env tq session) as [tr s1].
    destruct (pydantic_init VectorSearchQuery_valid _) as [vq|e]; cbn [fst];
      [|apply answers_or_fails_try; reflexivity].
    destruct (vector_search env vq s1) as [vr s2]. cbn [fst].
    apply answers_or_fails_try; reflexivity.
  - unfold rag_query, rag_query_body, rag_validate.
    destruct (validate_search_query (rq_query q)) as [v|e] eqn:E1; cbn [bind].
    2: { apply validate_search_query_err in E1. subst e.
         apply answers_or_fails_validation. }
    destruct (validate_integer (rq_max_context_tokens q) "max_context_tokens"
                (Some 500%Z) (Some 8000%Z)) as [mt|e] eqn:E2; cbn [bind].
    2: { apply validate_integer_err in E2. subst e. apply answers_or_fails_validation. }
    destruct (validate_integer (rq_max_results q) "max_results" (Some 1%Z) (Some 50%Z))
      as [mr|e] eqn:E3; cbn [bind].
    2: { apply validate_integer_err in E3. subst e. apply answers_or_fails_validation. }
    destruct (validate_float (rq_temperature q) "temperature" (Some 0%Q) (Some 2%Q))
      as [te|e] eqn:E4; cbn [bind].
    2: { apply validate_float_err in E4. subst e. apply answers_or_fails_validation. }
    destruct (validate_assistant_filter (rq_assistant_filter q)) as [af|e] eqn:E5;
      cbn [bind].
    2: { apply validate_assistant_filter_err in E5. destruct E5 as [f ->].
         apply answers_or_fails_validation. }
    destruct (next_fault session) as [fault s1]. cbn [fst].
    apply answers_or_fails_try; reflexivity.
Qed.

End SearchExtra.

(* ===================================================================== *)
(** * The endpoint that runs the embedding pipeline *)
(* ===================================================================== *)

Module EmbeddingEndpointsExtra.
Import Embeddings EmbeddingsSpec EmbeddingManager EmbeddingsExtraSpec ErrorHandling
  EmbeddingEndpoints.

Section Endpoint.

Variable vector : Type.
Variable embed : string -> option vector.
Variable round2 : Q -> Q.

Lemma first_batch_success
    (stream : EmbeddingPipeline -> Store vector -> nat -> option (list EmbeddingJob))
    (p : EmbeddingPipeline) (kind : string) (db db' : Store vector) (report : BatchReport) :
  first_batch vector embed stream p kind db = Ok (report, db') -> success report = true.
Proof.
  unfold first_batch. destruct (stream p db 0) as [batch|].
  - destruct (generate_embeddings_batch vector embed batch) as [results|]; cbn [bind];
      [|discriminate].
    destruct (bulk_upsert_embeddings vector db results) as [[db1 count]|]; cbn [bind];
      [|discriminate].
    intros H. injection H as <- _. reflexivity.
  - intros H. injection H as <- _. reflexivity.
Qed.

Lemma process_batch_failure (p : EmbeddingPipeline) (kind : string)
    (batch_size_ : option nat) (db db' : Store vector) (report : BatchReport) :
  process_batch vector embed p kind batch_size_ db = (report, db') ->
  success report = false -> db' = db /\ processed report = None.
Proof.
  unfold process_batch.
  set (p' := with_batch_size p (effective_batch_size batch_size_ p)).
  destruct (kind =? "message").
  - destruct (first_batch vector embed (stream_unembedded_messages vector) p' kind db)
      as [[r d]|e] eqn:E; intros H; injection H as <- <-; intros Hs.
    + rewrite (first_batch_success _ _ _ _ _ _ E) in Hs. discriminate.
    + split; reflexivity.
  - destruct (kind =? "memory_card").
    + destruct (first_batch vector embed (stream_unembedded_memory_cards vector) p' kind db)
        as [[r d]|e] eqn:E; intros H; injection H as <- <-; intros Hs.
      * rewrite (first_batch_success _ _ _ _ _ _ E) in Hs. discriminate.
      * split; reflexivity.
    + intros H. injection H as <- <-. discriminate.
Qed.

Lemma validate_batch_size (n : Z) :
  validate_integer n "batch_size" (Some 1%Z) (Some 1000%Z)
  = if ((1 <=? n) && (n <=? 1000))%Z then Ok n else raise_ValidationError "batch_size".
Proof.
  unfold validate_integer, Zlt_opt_min, Zgt_opt_max.
  destruct (n <? 1)%Z eqn:E1, (1000 <? n)%Z eqn:E2, (1 <=? n)%Z eqn:E3,
    (n <=? 1000)%Z eqn:E4; cbn [andb]; try reflexivity; lia.
Qed.

(** X28.  The endpoint [run_embedding_pipeline]: a batch size outside
    1..1000 is refused (400, field [batch_size]) whatever the target kind.
    With a valid or missing batch size: for the kinds [message] and
    [memory_card] the endpoint always answers with the report of
    [process_batch], also when the batch failed (the report then says so and
    nothing was written); for no kind or [all] it runs the full pipeline,
    ignoring the batch size, and answers 502 when that raises; any other
    kind is refused (400, field [target_kind]). *)
Theorem run_embedding_pipeline_outcomes (p : EmbeddingPipeline) (batch_size_ : option Z)
    (db : Store vector) :
  (forall n, batch_size_ = Some n -> ~ (1 <= n <= 1000)%Z ->
     forall target_kind_,
       run_embedding_pipeline vector embed round2 p batch_size_ target_kind_ db
       = JSONResponse 400 "VALIDATION_ERROR" (Some "batch_size"))
  /\ ((forall n, batch_size_ = Some n -> (1 <= n <= 1000)%Z) ->
      (forall kind, In kind ["message"; "memory_card"] ->
         exists report db',
           process_batch vector embed p kind (option_map Z.to_nat batch_size_) db
           = (report, db')
           /\ run_embedding_pipeline vector embed round2 p batch_size_ (Some kind) db
              = Returned (BatchData report, db')
           /\ (success report = false -> db' = db /\ processed report = None))
      /\ (forall target_kind_, In target_kind_ [None; Some "all"] ->
            run_embedding_pipeline vector embed round2 p batch_size_ target_kind_ db
            = match run_full_pipeline vector embed round2 p db with
              | Ok (report, db') => Returned (PipelineData report, db')
              | Err _ => JSONResponse 502 "EXTERNAL_SERVICE_ERROR" None
              end)
      /\ (forall kind, ~ In kind ["all"; "message"; "memory_card"] ->
            run_embedding_pipeline vector embed round2 p batch_size_ (Some kind) db
            = JSONResponse 400 "VALIDATION_ERROR" (Some "target_kind"))).
Proof.
  split.
  - intros n -> Hn target_kind_. unfold run_embedding_pipeline, validate_run_request.
    rewrite validate_batch_size.
    destruct ((1 <=? n) && (n <=? 1000))%Z eqn:E; [|reflexivity].
    apply andb_true_iff in E. destruct E as [E1 E2]. apply Z.leb_le in E1, E2. lia.
  - intros Hvalid.
    assert (V : (validated_batch_size <-
                   match batch_size_ with
                   | Some n =>
                       v <- validate_integer n "batch_size" (Some 1%Z) (Some 1000%Z) ;;
                       Ok (Some v)
                   | None => Ok None
                   end ;;
                 Ok validated_batch_size)
                = Ok batch_size_).
    { destruct batch_size_ as [n|]; [|reflexivity]. rewrite validate_batch_size.
      specialize (Hvalid n eq_refl).
      destruct (1 <=? n)%Z eqn:E1; [|lia]. destruct (n <=? 1000)%Z eqn:E2; [|lia].
      reflexivity. }
    assert (V' : match batch_size_ with
                 | Some n =>
                     v <- validate_integer n "batch_size" (Some 1%Z) (Some 1000%Z) ;;
                     Ok (Some v)
                 | None => Ok None
                 end = Ok batch_size_).
    { destruct (match batch_size_ with
                | Some n =>
                    v <- validate_integer n "batch_size" (Some 1%Z) (Some 1000%Z) ;;
                    Ok (Some v)
                | None => Ok None
                end) as [x|e]; cbn [bind] in V; [exact V | discriminate V]. }
    split; [|split].
    + intros kind Hkind.
      destruct (process_batch vector embed p kind (option_map Z.to_nat batch_size_) db)
        as [report db'] eqn:E.
      exists report, db'. split; [reflexivity|]. split.
      * unfold run_embedding_pipeline, validate_run_request. rewrite V'. cbn [bind].
        destruct Hkind as [<- | [<- | []]]; cbn; rewrite E; reflexivity.
      * apply (process_batch_failure _ _ _ _ _ _ E).
    + intros target_kind_ Hk.
      unfold run_embedding_pipeline, validate_run_request. rewrite V'. cbn [bind].
      destruct Hk as [<- | [<- | []]]; cbn;
        destruct (run_full_pipeline vector embed round2 p db) as [[report db']|e];
        reflexivity.
    + intros kind Hkind.
      unfold run_embedding_pipeline, validate_run_request. rewrite V'. cbn [bind].
      destruct (kind =? "all") eqn:E1.
      { apply String.eqb_eq in E1. exfalso. apply Hkind. left. symmetry. exact E1. }
      destruct (kind =? "message") eqn:E2.
      { apply String.eqb_eq in E2. exfalso. apply Hkind. right. left. symmetry. exact E2. }
      destruct (kind =? "memory_card") eqn:E3.
      { apply String.eqb_eq in E3. exfalso. apply Hkind. right. right. left.
        symmetry. exact E3. }
      reflexivity.
Qed.

End Endpoint.

(** The endpoint answers with a report, not with an error, when the client
    fails on the batch. *)
Example run_embedding_pipeline_reports_failed_batch :
  run_embedding_pipeline nat picky_client no_rounding batches_of_two (Some 10%Z)
                         (Some "message") blank_message_store
  = Returned (BatchData (mkBatchReport false None "message" None None
                                       (Some EmbeddingClientError)),
              blank_message_store).
Proof. reflexivity. Qed.

End EmbeddingEndpointsExtra.

(* ===================================================================== *)
(** * The generative client and the suggestions endpoint *)
(* ===================================================================== *)

Module ClientsExtra.
Import Py ErrorHandling Search SearchSpec SearchFacts ValidationSpec ValidationExtra
  SearchExtraSpec SearchExtra Suggestions.

Lemma summarize_is_mock (settings : Clients.Settings) (prompt : string) :
  Clients.summarize (Clients.get_generative_client settings) prompt
  = Clients.mock_summarize prompt.
Proof.
  unfold Clients.get_generative_client.
  destruct (lower (Clients.str_or (Clients.llm_provider settings) "mock") =? "openai");
    cbn [Clients.summarize]; [|reflexivity].
  destruct (negb (Clients.truthy (Clients.openai_api_key settings))); reflexivity.
Qed.

Lemma length_replace_char (c d : ascii) (s : string) :
  String.length (replace c (String d EmptyString) s) = String.length s.
Proof.
  induction s as [|x s IH]; cbn [replace]; [reflexivity|].
  destruct (Ascii.eqb c x); cbn [append String.length]; rewrite IH; reflexivity.
Qed.

Lemma length_slice_to (n : nat) (s : string) :
  String.length (slice_to n s) = Nat.min n (String.length s).
Proof.
  unfold slice_to. revert n. induction s as [|c s IH]; intros [|n]; cbn; try reflexivity.
  rewrite IH. reflexivity.
Qed.

Lemma slice_to_app (n : nat) (a b : string) :
  (n <= String.length a)%nat -> slice_to n (a ++ b) = slice_to n a.
Proof.
  unfold slice_to. revert n. induction a as [|c a IH]; intros [|n] H; cbn in *;
    try reflexivity; try lia.
  - destruct b; reflexivity.
  - rewrite IH; [reflexivity | lia].
Qed.

(** X25.  Whatever provider and API key are configured, the generative
    client answers with the mock summary: a fixed prefix, the first 200
    characters of the prompt with every newline replaced by a blank, and
    three dots.  The answer has 19 characters more than the part of the
    prompt it echoes and holds no newline. *)
Theorem generative_client_answer (settings : Clients.Settings) (prompt : string) :
  let answer_ := Clients.summarize (Clients.get_generative_client settings) prompt in
  answer_ = ("(mock) Summary: "
             ++ replace Clients.newline_char " " (slice_to 200 prompt) ++ "...")%string
  /\ String.length answer_ = 19 + Nat.min 200 (String.length prompt)
  /\ mem_char Clients.newline_char answer_ = false.
Proof.
  cbn zeta. rewrite summarize_is_mock. unfold Clients.mock_summarize. cbn zeta.
  split; [reflexivity|]. split.
  - rewrite !ValidationExtra.length_app, length_replace_char, length_slice_to.
    cbn [String.length]. lia.
  - rewrite !mem_char_app, mem_char_replace.
    rewrite Ascii.eqb_refl. cbn [negb andb].
    destruct (mem_char Clients.newline_char (slice_to 200 prompt)); reflexivity.
Qed.

Lemma build_prompt_split (env : Env) (query : string) :
  exists head,
    String.length head = 118 + String.length query
    /\ forall contexts_, exists rest, build_prompt env query contexts_ = (head ++ rest)%string.
Proof.
  exists ("Based on the following conversation contexts, please answer the user's question."
          ++ Embeddings.newline ++ Embeddings.newline ++ "User Question: " ++ query
          ++ Embeddings.newline ++ Embeddings.newline ++ "Relevant Contexts:"
          ++ Embeddings.newline)%string.
  split.
  - rewrite !ValidationExtra.length_app. cbn [String.length Embeddings.newline]. lia.
  - intros contexts_. eexists. unfold build_prompt. cbn zeta.
    rewrite !append_assoc. reflexivity.
Qed.

(** X26.  With the generative clients of [llm/clients.py], the answer of
    [rag_query] to a question of 82 characters or more does not depend on
    the retrieved contexts: it is the answer for the same question with no
    context at all, because the client echoes the first 200 characters of
    the prompt and the contexts come later. *)
Theorem rag_answer_ignores_contexts (env : Env) (settings : Clients.Settings)
    (q : RAGQuery) (session session' : Session) (r : RAGResponse) :
  (forall prompt,
     summarize env prompt
     = Some (Clients.summarize (Clients.get_generative_client settings) prompt)) ->
  (82 <= String.length (rq_query q))%nat ->
  rag_query env q session = (Returned r, session') ->
  answer r = Clients.mock_summarize (build_prompt env (rq_query q) []).
Proof.
  intros Hclient Hlen Hret.
  destruct (rag_query_inv env q session session' r Hret)
    as [v [af [n [_ [_ [_ [_ [_ Hs]]]]]]]].
  rewrite Hclient, summarize_is_mock in Hs. injection Hs as <-.
  unfold Clients.mock_summarize. cbn zeta.
  destruct (build_prompt_split env (rq_query q)) as [head [Hhead Hsplit]].
  destruct (Hsplit (contexts r)) as [rest1 ->]. destruct (Hsplit []) as [rest2 ->].
  rewrite !slice_to_app by lia. reflexivity.
Qed.

(** [rag_answer_ignores_contexts] on a question of 83 characters that
    retrieves two contexts from [db0]. *)
Lemma rag_answer_ignores_contexts_witness :
  exists r,
    rag_query env_mock long_question session0 = (Returned r, session0)
    /\ map source_id (contexts r) = ["m1"; "m2"]
    /\ answer r = Clients.mock_summarize (build_prompt env_mock (rq_query long_question) []).
Proof.
  destruct (rag_query env_mock long_question session0) as [resp s1] eqn:E.
  pose proof E as E'. vm_compute in E'. injection E' as <- <-.
  eexists. split; [reflexivity|]. split; [reflexivity|].
  apply (rag_answer_ignores_contexts env_mock default_settings long_question
           session0 session0).
  - intros prompt. reflexivity.
  - vm_compute. lia.
  - exact E.
Defined.

(** ** get_search_suggestions *)

(** X27.  [get_search_suggestions] returns at most a third of [limit]
    (rounded down) in each of its three categories, so at most [limit] in
    all and none at all for a limit of 1 or 2; every suggested thread
    title and assistant name is in the database and matches the validated
    query, and every suggested concept contains it, case ignored. *)
Theorem suggestions_bounds (env : Env) (set_iteration : list string -> list string)
    (q : string) (limit : Z) (session session' : Session) (s : Suggestions) :
  get_search_suggestions env set_iteration q limit session
  = (Handled (Returned s), session') ->
  (1 <= limit <= 20)%Z
  /\ (Z.of_nat (List.length (suggested_threads s)) <= limit / 3)%Z
  /\ (Z.of_nat (List.length (suggested_concepts s)) <= limit / 3)%Z
  /\ (Z.of_nat (List.length (suggested_assistants s)) <= limit / 3)%Z
  /\ (Z.of_nat (List.length (suggested_threads s) + List.length (suggested_concepts s)
                + List.length (suggested_assistants s)) <= limit)%Z
  /\ ((limit < 3)%Z -> s = mkSuggestions [] [] [])
  /\ exists v,
       validate_string q "query" 1 (Some 100) false None true = Ok v
       /\ Forall (fun title =>
                    exists t, In t (threads (database session))
                              /\ thread_title t = title
                              /\ sql_contains env (lower title) (lower v) = true)
                 (suggested_threads s)
       /\ Forall (fun name =>
                    exists a, In a (assistants (database session))
                              /\ assistant_name a = name
                              /\ sql_contains env (lower name) (lower v) = true)
                 (suggested_assistants s)
       /\ Forall (fun c => contains (lower v) (lower c) = true) (suggested_concepts s).
Proof.
  unfold get_search_suggestions.
  destruct (Z_between 1 20 limit) eqn:Zb; [|discriminate].
  destruct (get_search_suggestions_body env set_iteration q limit session)
    as [body s1] eqn:Eb.
  intros H. injection H as Hr Hs. subst s1.
  apply handle_api_errors_returned in Hr. subst body.
  unfold get_search_suggestions_body in Eb.
  destruct (validate_string q "query" 1 (Some 100) false None true) as [v|] eqn:Ev;
    cbn [bind] in Eb; [|discriminate].
  destruct (validate_integer limit "limit" (Some 1%Z) (Some 50%Z)) as [lim|] eqn:El;
    cbn [bind] in Eb; [|discriminate].
  apply validate_integer_ok in El. destruct El as [-> _].
  destruct (next_fault session) as [fault s1].
  injection Eb as Hbody Hs. apply try_except_ok in Hbody.
  destruct fault; [discriminate|]. injection Hbody as <-.
  unfold Z_between in Zb. apply andb_true_iff in Zb. destruct Zb as [Z1 Z2].
  apply Z.leb_le in Z1, Z2.
  assert (Hn : (0 <= limit / 3)%Z) by (apply Z.div_pos; lia).
  unfold get_search_suggestions_try.
  cbn [suggested_threads suggested_concepts suggested_assistants].
  split; [lia|]. rewrite !length_map.
  match goal with
  | |- (Z.of_nat (List.length ?a) <= _)%Z /\ (Z.of_nat (List.length ?b) <= _)%Z
       /\ (Z.of_nat (List.length ?c) <= _)%Z /\ _ =>
      pose proof (Z_limit_length (limit / 3) _ Hn : (Z.of_nat (List.length a) <= _)%Z) as B1;
      pose proof (Z_limit_length (limit / 3) _ Hn : (Z.of_nat (List.length b) <= _)%Z) as B2;
      pose proof (Z_limit_length (limit / 3) _ Hn : (Z.of_nat (List.length c) <= _)%Z) as B3
  end.
  split; [exact B1|]. split; [exact B2|]. split; [exact B3|].
  split; [pose proof (Z.mul_div_le limit 3 ltac:(lia)); lia|].
  split.
  - intros Hlt. assert (E0 : (limit / 3 = 0)%Z) by (apply Z.div_small; lia).
    rewrite E0. reflexivity.
  - exists v. split; [reflexivity|]. split; [|split].
    + apply Forall_forall. intros title Hin. apply in_map_iff in Hin.
      destruct Hin as [t [<- Hin]]. apply In_Z_limit, filter_In in Hin.
      exists t. split; [tauto|]. split; [reflexivity | tauto].
    + apply Forall_forall. intros name Hin. apply in_map_iff in Hin.
      destruct Hin as [a [<- Hin]]. apply In_Z_limit, filter_In in Hin.
      exists a. split; [tauto|]. split; [reflexivity | tauto].
    + apply Forall_forall. intros c Hin. apply In_Z_limit, filter_In in Hin. tauto.
Qed.

(** [suggestions_bounds] on the default limit of ten: three per category at
    most. *)
Lemma suggestions_bounds_witness :
  exists s,
    get_search_suggestions env0 first_occurrences "PY" 10 session0
    = (Handled (Returned s), session0)
    /\ s = mkSuggestions [] ["python"] []
    /\ (1 <= 10 <= 20)%Z
    /\ (Z.of_nat (List.length (suggested_threads s)) <= 10 / 3)%Z
    /\ (Z.of_nat (List.length (suggested_concepts s)) <= 10 / 3)%Z
    /\ (Z.of_nat (List.length (suggested_assistants s)) <= 10 / 3)%Z
    /\ (Z.of_nat (List.length (suggested_threads s) + List.length (suggested_concepts s)
                  + List.length (suggested_assistants s)) <= 10)%Z
    /\ ((10 < 3)%Z -> s = mkSuggestions [] [] [])
    /\ exists v,
         validate_string "PY" "query" 1 (Some 100) false None true = Ok v
         /\ Forall (fun title =>
                      exists t, In t (threads (database session0))
                                /\ thread_title t = title
                                /\ sql_contains env0 (lower title) (lower v) = true)
                   (suggested_threads s)
         /\ Forall (fun name =>
                      exists a, In a (assistants (database session0))
                                /\ assistant_name a = name
                                /\ sql_contains env0 (lower name) (lower v) = true)
                   (suggested_assistants s)
         /\ Forall (fun c => contains (lower v) (lower c) = true) (suggested_concepts s).
Proof.
  destruct (get_search_suggestions env0 first_occurrences "PY" 10 session0)
    as [r s1] eqn:E.
  pose proof E as E'. vm_compute in E'. injection E' as <- <-.
  eexists. split; [reflexivity|]. split; [reflexivity|].
  apply (suggestions_bounds env0 first_occurrences "PY" 10 session0 session0).
  exact E.
Defined.

End ClientsExtra.
